(** * GetRichQuick: the mean-reversion backtesting engine

    A shallow embedding of [src/backtesting/engine.py],
    [src/filters/performance_filter.py] and the price lookup of
    [src/data/market_data.py], with the properties of the position
    lifecycle, the rolling-window evaluator, the screening loop and the
    result aggregation; and of the code around them: the fetches and the
    ranking, the company metadata and its filters, the screener, the
    report and the plots.

    Conventions of the embedding.
    - A Python [float] is an exact rational ([Q]); division is total.
      Infinities, NaN and [ZeroDivisionError] are outside the model, so
      closing prices and the invested amount are meant to be positive:
      the source divides by the entry price when it opens a position,
      by the invested amount in the log line of a close, before the
      trade is moved, and by the earlier close in a percentage change.
      A float that the source rounds can fall on the other side of a
      rounding boundary than the exact value; the properties that need
      positive values or that speak of rounded results of arithmetic
      say so, the latter with a tolerance.
    - A [datetime] / pandas [Timestamp] is an integer count of
      microseconds ([instant]), without bound (a [datetime] outside the
      years 1 to 9999 raises [OverflowError]); time zones are not
      modelled (the source localises the query to the zone of the index
      before comparing).
      A ["%Y-%m-%d"] string is the calendar day number it denotes.
    - A price DataFrame is the list of its rows [(index, Close)], in
      row order.  A lookup by label returns the close of the first row
      with that label; pandas returns all of them for a repeated label,
      so histories are meant to have distinct dates.
    - A [dict] is an association list in insertion order ([Dict]).
    - Every [Trade(...)] construction yields a new object; its identity
      is the field [oid], drawn from the allocation counter [next_oid].
    - Logging is dropped. *)

From Stdlib Require Import String ZArith QArith Qround Qabs List Bool Lia.
From Stdlib Require Import Permutation Sorted Lqa.
Import ListNotations.
Open Scope Z_scope.

(** ** Dates and times *)

Definition instant := Z.

Definition us_per_day : Z := 86400000000.

(** [timedelta(days=n)] *)
Definition timedelta_days (n : Z) : Z := n * us_per_day.

(** [d.strftime("%Y-%m-%d")]: the calendar day of an instant. *)
Definition strftime (t : instant) : Z := t / us_per_day.

(** [datetime.strptime(s, "%Y-%m-%d")]: midnight of that day. *)
Definition strptime (day : Z) : instant := day * us_per_day.

(** [(a - b).days]: timedelta normalises with a floor division. *)
Definition delta_days (a b : instant) : Z := (a - b) / us_per_day.

(** ** Rational helpers *)

Definition Qltb (a b : Q) : bool := negb (Qle_bool b a).

(** Round half to even, to an integer. *)
Definition rint (x : Q) : Z :=
  let f := Qfloor x in
  match Qcompare (x - inject_Z f) (1 # 2) with
  | Lt => f
  | Gt => f + 1
  | Eq => if Z.even f then f else f + 1
  end.

(** [round(x, 2)] *)
Definition round2 (x : Q) : Q := (inject_Z (rint (x * 100)) / 100)%Q.

(** A value with at most two decimals. *)
Definition two_decimals (x : Q) : Prop := exists k : Z, (x == k # 100)%Q.

(** ** Insertion-ordered dictionaries with string keys *)

Module Dict.
Section Ops.
Context {V : Type}.

Definition t := list (string * V).

Definition empty : t := [].

Definition keys (d : t) : list string := map fst d.

Definition values (d : t) : list V := map snd d.

(** [d[k]], with [KeyError] as [None] *)
Fixpoint get (k : string) (d : t) : option V :=
  match d with
  | [] => None
  | (k', v) :: d' => if String.eqb k k' then Some v else get k d'
  end.

(** [k in d] *)
Definition mem (k : string) (d : t) : bool :=
  match get k d with Some _ => true | None => false end.

(** [d[k] = v]: an existing key keeps its place, a new key goes last. *)
Fixpoint set (k : string) (v : V) (d : t) : t :=
  match d with
  | [] => [(k, v)]
  | (k', v') :: d' =>
      if String.eqb k k' then (k, v) :: d' else (k', v') :: set k v d'
  end.

(** [del d[k]] *)
Fixpoint del (k : string) (d : t) : t :=
  match d with
  | [] => []
  | (k', v') :: d' =>
      if String.eqb k k' then d' else (k', v') :: del k d'
  end.
End Ops.
Arguments t : clear implicits.
End Dict.

(** ** Price series and the price lookup ([market_data.py]) *)

Definition PriceSeries := list (instant * Q).

Module MarketData.

(** [hist.index] *)
Definition index (hist : PriceSeries) : list instant := map fst hist.

(** [hist.loc[label, "Close"]], with [KeyError] as [None] *)
Definition loc_close (hist : PriceSeries) (label : instant) : option Q :=
  match find (fun row => fst row =? label) hist with
  | Some row => Some (snd row)
  | None => None
  end.

Definition get_price_on_date (hist : PriceSeries) (date : instant)
  : option Q :=
  match loc_close hist date with
  | Some close => Some close
  | None =>
      let prior_dates := filter (fun t => t <=? date) (index hist) in
      if (0 <? length prior_dates)%nat
      then loc_close hist (last prior_dates 0)
      else None
  end.

End MarketData.

(** ** The rolling-window evaluator ([performance_filter.py]) *)

Record WorstPerformance := mkWorstPerformance {
  return_pct : Q;
  start_date : Z;
  end_date : Z;
  start_price : Q;
  end_price : Q
}.

Module PerformanceFilter.
Import MarketData.

(** [close.pct_change(periods) * 100]; [None] is NaN.  pandas computes
    the change as [close / close.shift(periods) - 1]. *)
Definition pct_change_x100 (periods : nat) (close : list Q)
  : list (option Q) :=
  map (fun i =>
         if (i <? periods)%nat then None
         else match nth_error close i, nth_error close (i - periods) with
              | Some now, Some before => Some ((now / before - 1) * 100)%Q
              | _, _ => None
              end)
      (seq 0 (length close)).

(** [dropna(subset=[col])] on the rows (label, col) *)
Fixpoint dropna (rows : list (instant * option Q)) : list (instant * Q) :=
  match rows with
  | [] => []
  | (label, Some x) :: rows' => (label, x) :: dropna rows'
  | (_, None) :: rows' => dropna rows'
  end.

(** [idxmin]: the row of the first minimum. *)
Fixpoint idxmin (best : instant * Q) (rows : list (instant * Q))
  : instant * Q :=
  match rows with
  | [] => best
  | row :: rows' =>
      if Qltb (snd row) (snd best) then idxmin row rows'
      else idxmin best rows'
  end.

(** [index.get_loc(label)] *)
Fixpoint get_loc (idx : list instant) (label : instant) : option nat :=
  match idx with
  | [] => None
  | l :: idx' =>
      if l =? label then Some O
      else match get_loc idx' label with
           | Some n => Some (S n)
           | None => None
           end
  end.

Definition calculate_worst_5day_performance (hist : PriceSeries)
  : option WorstPerformance :=
  if (length hist <? 5)%nat then None
  else
    let pct := pct_change_x100 5 (map snd hist) in
    let hist_valid := dropna (combine (index hist) pct) in
    match hist_valid with
    | [] => None
    | first :: rest =>
        let (worst_idx, worst_return) := idxmin first rest in
        let end_date := worst_idx in
        match get_loc (index hist) worst_idx with
        | None => None
        | Some idx_position =>
            if (idx_position <? 5)%nat then None
            else
              let start_idx_position := (idx_position - 5)%nat in
              match nth_error (index hist) start_idx_position with
              | None => None
              | Some start_date =>
                  match loc_close hist start_date, loc_close hist end_date with
                  | Some start_price, Some end_price =>
                      Some {| return_pct := round2 worst_return;
                              start_date := strftime start_date;
                              end_date := strftime end_date;
                              start_price := round2 start_price;
                              end_price := round2 end_price |}
                  | _, _ => None
                  end
              end
        end
    end.

End PerformanceFilter.

(** ** The backtesting engine ([engine.py]) *)

Record Trade := mkTrade {
  oid : nat;
  ticker : string;
  company_name : string;
  entry_date : Z;
  entry_price : Q;
  shares : Q;
  target_price : Q;
  exit_date : option Z;
  exit_price : option Q;
  holding_days : option Z;
  pnl : option Q
}.

Record BacktestResult := mkBacktestResult {
  trades : list Trade;
  total_pnl : Q;
  total_invested : Q;
  total_trades : nat;
  winning_trades : nat;
  losing_trades : nat;
  still_open : nat;
  avg_holding_days : Q;
  holding_days_distribution : Dict.t nat
}.

(** The dictionary built by [_screen_for_date]. *)
Record Candidate := mkCandidate {
  c_ticker : string;
  c_return_pct : Q;
  c_entry_price : Q;
  c_target_price : Q;
  c_company_name : string
}.

(** The fields of [BacktestEngine] that the simulation reads or writes.
    [indices], [min_age_years], [countries] and [metadata_path] only feed
    the fetch of the ticker universe, which is an input of [run] here. *)
Record BacktestEngine := mkEngine {
  lookback_years : Z;
  investment_per_trade : Q;
  screening_frequency_days : Z;
  open_positions : Dict.t Trade;
  closed_trades : list Trade;
  all_historical_data : Dict.t PriceSeries;
  next_oid : nat
}.

Module Engine.
Import MarketData PerformanceFilter.

(** [BacktestEngine.__init__] *)
Definition init (lookback : Z) (investment : Q) (frequency : Z)
  : BacktestEngine :=
  {| lookback_years := lookback;
     investment_per_trade := investment;
     screening_frequency_days := frequency;
     open_positions := Dict.empty;
     closed_trades := [];
     all_historical_data := Dict.empty;
     next_oid := O |}.

Definition set_historical_data (e : BacktestEngine)
  (data : Dict.t PriceSeries) : BacktestEngine :=
  {| lookback_years := lookback_years e;
     investment_per_trade := investment_per_trade e;
     screening_frequency_days := screening_frequency_days e;
     open_positions := open_positions e;
     closed_trades := closed_trades e;
     all_historical_data := data;
     next_oid := next_oid e |}.

(** [hist[hist.index <= screening_date]] *)
Definition up_to_date (hist : PriceSeries) (date : instant) : PriceSeries :=
  filter (fun row => fst row <=? date) hist.

(** [df.tail(n)] *)
Definition tail (n : nat) (hist : PriceSeries) : PriceSeries :=
  skipn (length hist - n) hist.

(** The evaluator as [_screen_for_date] calls it on one history: on the
    last 10 rows up to the screening date, when there are at least 10. *)
Definition recent_worst (hist : PriceSeries) (screening_date : instant)
  : option WorstPerformance :=
  let hist_up_to_date := up_to_date hist screening_date in
  if (length hist_up_to_date <? 10)%nat then None
  else
    let hist_recent := tail 10 hist_up_to_date in
    calculate_worst_5day_performance hist_recent.

(** One round of the [for ticker, hist in ...] loop of [_screen_for_date]:
    the candidate appended for this ticker, if any. *)
Definition screen_ticker (screening_date : instant)
  (entry : string * PriceSeries) : list Candidate :=
  let (ticker, hist) := entry in
  match recent_worst hist screening_date with
  | None => []
  | Some perf =>
      if Qle_bool 0 (return_pct perf) then []
      else
        match get_price_on_date hist screening_date with
        | None => []
        | Some current_price =>
            [ {| c_ticker := ticker;
                 c_return_pct := return_pct perf;
                 c_entry_price := current_price;
                 c_target_price := start_price perf;
                 c_company_name := ticker |} ]
        end
  end.

(** [candidates.sort(key=lambda x: x["return_pct"])]: a stable sort. *)
Fixpoint insert_by_return (c : Candidate) (sorted : list Candidate)
  : list Candidate :=
  match sorted with
  | [] => [c]
  | c' :: rest =>
      if Qltb (c_return_pct c') (c_return_pct c)
      then c' :: insert_by_return c rest
      else c :: sorted
  end.

Definition sort_by_return (candidates : list Candidate) : list Candidate :=
  fold_right insert_by_return [] candidates.

Definition _screen_for_date (e : BacktestEngine) (screening_date : instant)
  : option Candidate :=
  let candidates :=
    flat_map (screen_ticker screening_date) (all_historical_data e) in
  match sort_by_return candidates with
  | [] => None
  | worst :: _ => Some worst
  end.

(** The [Trade(...)] built by [_open_position]. *)
Definition new_trade (e : BacktestEngine) (stock_info : Candidate)
  (entry_date : instant) : Trade :=
  let shares := (investment_per_trade e / c_entry_price stock_info)%Q in
  {| oid := next_oid e;
     ticker := c_ticker stock_info;
     company_name := c_company_name stock_info;
     entry_date := strftime entry_date;
     entry_price := c_entry_price stock_info;
     shares := shares;
     target_price := c_target_price stock_info;
     exit_date := None;
     exit_price := None;
     holding_days := None;
     pnl := None |}.

Definition _open_position (e : BacktestEngine) (stock_info : Candidate)
  (entry_date : instant) : BacktestEngine :=
  let ticker := c_ticker stock_info in
  if Dict.mem ticker (open_positions e) then e
  else if Qle_bool (c_target_price stock_info) (c_entry_price stock_info)
  then e
  else
    let trade := new_trade e stock_info entry_date in
    {| lookback_years := lookback_years e;
       investment_per_trade := investment_per_trade e;
       screening_frequency_days := screening_frequency_days e;
       open_positions := Dict.set ticker trade (open_positions e);
       closed_trades := closed_trades e;
       all_historical_data := all_historical_data e;
       next_oid := S (next_oid e) |}.

(** The four assignments of [_close_position] on the trade object. *)
Definition closed_trade (trade : Trade) (exit_price : Q)
  (exit_date : instant) : Trade :=
  let entry_dt := strptime (entry_date trade) in
  let holding_days := delta_days exit_date entry_dt in
  let pnl := (shares trade * (exit_price - entry_price trade))%Q in
  {| oid := oid trade;
     ticker := ticker trade;
     company_name := company_name trade;
     entry_date := entry_date trade;
     entry_price := entry_price trade;
     shares := shares trade;
     target_price := target_price trade;
     exit_date := Some (strftime exit_date);
     exit_price := Some exit_price;
     holding_days := Some holding_days;
     pnl := Some pnl |}.

Definition _close_position (e : BacktestEngine) (ticker : string)
  (exit_price : Q) (exit_date : instant) : BacktestEngine :=
  match Dict.get ticker (open_positions e) with
  | None => e
  | Some trade =>
      {| lookback_years := lookback_years e;
         investment_per_trade := investment_per_trade e;
         screening_frequency_days := screening_frequency_days e;
         open_positions := Dict.del ticker (open_positions e);
         closed_trades :=
           closed_trades e ++ [closed_trade trade exit_price exit_date];
         all_historical_data := all_historical_data e;
         next_oid := next_oid e |}
  end.

(** The first loop of [_update_open_positions]: what one open position
    contributes to [positions_to_close]. *)
Definition exit_check (e : BacktestEngine) (current_date : instant)
  (entry : string * Trade) : list (string * Q * instant) :=
  let (ticker, trade) := entry in
  match Dict.get ticker (all_historical_data e) with
  | None => []
  | Some hist =>
      match get_price_on_date hist current_date with
      | None => []
      | Some current_price =>
          if Qle_bool (target_price trade) current_price
          then [(ticker, current_price, current_date)]
          else []
      end
  end.

Definition close_all (e : BacktestEngine)
  (positions_to_close : list (string * Q * instant)) : BacktestEngine :=
  fold_left
    (fun e p => let '(ticker, exit_price, exit_date) := p in
                _close_position e ticker exit_price exit_date)
    positions_to_close e.

Definition _update_open_positions (e : BacktestEngine)
  (current_date : instant) : BacktestEngine :=
  let positions_to_close :=
    flat_map (exit_check e current_date) (open_positions e) in
  close_all e positions_to_close.

(** The body of the [while] loop of [_simulate_screenings], without the
    advance of [current_date]. *)
Definition screening (e : BacktestEngine) (current_date : instant)
  : BacktestEngine :=
  let e1 := _update_open_positions e current_date in
  match _screen_for_date e1 current_date with
  | Some worst_stock => _open_position e1 worst_stock current_date
  | None => e1
  end.

(** [while current_date <= end_date]; [None] when the fuel runs out. *)
Fixpoint screening_loop (fuel : nat) (e : BacktestEngine)
  (current_date end_date : instant) : option BacktestEngine :=
  if current_date <=? end_date then
    match fuel with
    | O => None
    | S fuel' =>
        screening_loop fuel' (screening e current_date)
          (current_date + timedelta_days (screening_frequency_days e))
          end_date
    end
  else Some e.

(** [now] is the value of [datetime.now()] in this call. *)
Definition _simulate_screenings (fuel : nat) (e : BacktestEngine)
  (now : instant) : option BacktestEngine :=
  let end_date := now in
  let start_date := end_date - timedelta_days (lookback_years e * 365) in
  screening_loop fuel e start_date end_date.

Definition close_remaining (current_date : instant) (e : BacktestEngine)
  (ticker : string) : BacktestEngine :=
  match Dict.get ticker (all_historical_data e) with
  | None => e
  | Some hist =>
      match get_price_on_date hist current_date with
      | Some current_price =>
          _close_position e ticker current_price current_date
      | None => e
      end
  end.

Definition _close_remaining_positions (e : BacktestEngine) (now : instant)
  : BacktestEngine :=
  let current_date := now in
  fold_left (close_remaining current_date)
    (Dict.keys (open_positions e)) e.

(** The table of [_create_holding_distribution]; an upper bound [None]
    is [float("inf")]. *)
Definition ranges : list (Z * option Z * string) :=
  [ (0, Some 7, "0-7 days"%string);
    (7, Some 14, "7-14 days"%string);
    (14, Some 30, "14-30 days"%string);
    (30, Some 60, "30-60 days"%string);
    (60, Some 90, "60-90 days"%string);
    (90, Some 180, "90-180 days"%string);
    (180, Some 365, "180-365 days"%string);
    (365, None, "365+ days"%string) ].

(** [min_days <= days < max_days] *)
Definition in_range (days : Z) (r : Z * option Z * string) : bool :=
  let '(min_days, max_days, _) := r in
  (min_days <=? days)
  && match max_days with Some m => days <? m | None => true end.

(** The inner [for ... break]: the label of the first range that holds
    [days], if any. *)
Fixpoint first_range (days : Z) (rs : list (Z * option Z * string))
  : option string :=
  match rs with
  | [] => None
  | r :: rs' => if in_range days r then Some (snd r) else first_range days rs'
  end.

(** [distribution[label] += 1] on a [defaultdict(int)] *)
Definition increment (label : string) (distribution : Dict.t nat)
  : Dict.t nat :=
  match Dict.get label distribution with
  | Some n => Dict.set label (S n) distribution
  | None => Dict.set label 1%nat distribution
  end.

Definition count_day (distribution : Dict.t nat) (days : Z) : Dict.t nat :=
  match first_range days ranges with
  | Some label => increment label distribution
  | None => distribution
  end.

Definition _create_holding_distribution (holding_days : list Z)
  : Dict.t nat :=
  match holding_days with
  | [] => Dict.empty
  | _ => fold_left count_day holding_days Dict.empty
  end.

Definition _create_empty_result : BacktestResult :=
  {| trades := [];
     total_pnl := 0;
     total_invested := 0;
     total_trades := 0;
     winning_trades := 0;
     losing_trades := 0;
     still_open := 0;
     avg_holding_days := 0;
     holding_days_distribution := Dict.empty |}.

(** [sum(...)] of floats and of ints *)
Definition sumQ (l : list Q) : Q := fold_left Qplus l 0%Q.
Definition sumZ (l : list Z) : Z := fold_left Z.add l 0.

(** [t.pnl for t in closed_trades if t.pnl is not None] *)
Definition pnl_values (closed : list Trade) : list Q :=
  flat_map (fun t => match pnl t with Some p => [p] | None => [] end) closed.

(** [t.pnl and t.pnl > 0]: [None] and [0.0] are falsy. *)
Definition is_win (t : Trade) : bool :=
  match pnl t with
  | Some p => negb (Qeq_bool p 0) && Qltb 0 p
  | None => false
  end.

Definition is_loss (t : Trade) : bool :=
  match pnl t with
  | Some p => negb (Qeq_bool p 0) && Qltb p 0
  | None => false
  end.

(** [[t.holding_days for t in closed_trades if t.holding_days]]: [None]
    and [0] are falsy. *)
Definition closed_holding_days_of (closed : list Trade) : list Z :=
  flat_map (fun t => match holding_days t with
                     | Some d => if d =? 0 then [] else [d]
                     | None => []
                     end) closed.

Definition _generate_results (e : BacktestEngine) : BacktestResult :=
  let all_trades := closed_trades e ++ Dict.values (open_positions e) in
  let closed_holding_days := closed_holding_days_of (closed_trades e) in
  {| trades := all_trades;
     total_pnl := sumQ (pnl_values (closed_trades e));
     total_invested :=
       (inject_Z (Z.of_nat (length all_trades)) * investment_per_trade e)%Q;
     total_trades := length all_trades;
     winning_trades := length (filter is_win (closed_trades e));
     losing_trades := length (filter is_loss (closed_trades e));
     still_open := length (open_positions e);
     avg_holding_days :=
       match closed_holding_days with
       | [] => 0
       | _ => (inject_Z (sumZ closed_holding_days)
               / inject_Z (Z.of_nat (length closed_holding_days)))%Q
       end;
     holding_days_distribution :=
       _create_holding_distribution closed_holding_days |}.

(** [run].  The two fetches are inputs: [candidate_tickers] is what
    [_get_candidate_tickers] returned and [fetched] what
    [market_data.fetch_multiple_stocks] returned; [now_loop] and
    [now_close] are the clock readings of [_simulate_screenings] and of
    [_close_remaining_positions].  [None] when the fuel runs out. *)
Definition run (fuel : nat) (e : BacktestEngine)
  (candidate_tickers : list string) (fetched : Dict.t PriceSeries)
  (now_loop now_close : instant) : option BacktestResult :=
  match candidate_tickers with
  | [] => Some _create_empty_result
  | _ =>
      let e1 := set_historical_data e fetched in
      match all_historical_data e1 with
      | [] => Some _create_empty_result
      | _ =>
          match _simulate_screenings fuel e1 now_loop with
          | None => None
          | Some e2 =>
              Some (_generate_results
                      (_close_remaining_positions e2 now_close))
          end
      end
  end.

(** The number of trades a histogram counts. *)
Definition histogram_total (distribution : Dict.t nat) : nat :=
  fold_right Nat.add O (Dict.values distribution).

(** *** Vocabulary of the properties *)

(** A new engine whose price histories have been fetched. *)
Definition fresh (lookback : Z) (investment : Q) (frequency : Z)
  (data : Dict.t PriceSeries) : BacktestEngine :=
  set_historical_data (init lookback investment frequency) data.

(** The calls of the position lifecycle. *)
Inductive plm_call :=
| CallOpen (candidate : Candidate) (date : instant)
| CallUpdate (date : instant)
| CallClose (ticker : string) (price : Q) (date : instant).

Definition call (e : BacktestEngine) (c : plm_call) : BacktestEngine :=
  match c with
  | CallOpen candidate date => _open_position e candidate date
  | CallUpdate date => _update_open_positions e date
  | CallClose ticker price date => _close_position e ticker price date
  end.

Definition calls (e : BacktestEngine) (cs : list plm_call) : BacktestEngine :=
  fold_left call cs e.

(** Screenings at a list of dates, in order. *)
Definition screenings (e : BacktestEngine) (dates : list instant)
  : BacktestEngine :=
  fold_left screening dates e.

(** Every trade object the engine holds. *)
Definition all_trades (e : BacktestEngine) : list Trade :=
  closed_trades e ++ Dict.values (open_positions e).

(** The two states of a trade: no exit field is set, or all four are. *)
Definition is_open (t : Trade) : Prop :=
  exit_date t = None /\ exit_price t = None
  /\ holding_days t = None /\ pnl t = None.

Definition is_closed (t : Trade) : Prop :=
  exit_date t <> None /\ exit_price t <> None
  /\ holding_days t <> None /\ pnl t <> None.

(** Whether [_open_position] inserts a trade: the ticker has no open
    position and the target is above the entry. *)
Definition accepts (e : BacktestEngine) (c : Candidate) : bool :=
  negb (Dict.mem (c_ticker c) (open_positions e))
  && negb (Qle_bool (c_target_price c) (c_entry_price c)).

(** A property of single trades holds of every trade held. *)
Definition every_trade (T : BacktestEngine -> Trade -> Prop)
  (e : BacktestEngine) : Prop :=
  forall t, In t (all_trades e) -> T e t.

(** Well-formed engine states: the open-position map has no repeated
    key and holds open trades under their own ticker, the ledger holds
    closed trades, and the trade objects are distinct and were allocated
    by this engine. *)
Definition wf (e : BacktestEngine) : Prop :=
  NoDup (Dict.keys (open_positions e))
  /\ (forall k t, In (k, t) (open_positions e) -> ticker t = k /\ is_open t)
  /\ (forall t, In t (closed_trades e) -> is_closed t)
  /\ (forall t, In t (all_trades e) -> (oid t < next_oid e)%nat)
  /\ NoDup (map oid (all_trades e)).

(** The closed trades that have a [holding_days] value. *)
Definition with_holding_days (closed : list Trade) : list Trade :=
  filter (fun t => match holding_days t with Some _ => true | None => false end)
         closed.


(** The target of a trade is the rounding of a close of its ticker. *)
Definition rounded_target (data : Dict.t PriceSeries) (t : Trade) : Prop :=
  exists hist raw,
    In (ticker t, hist) data
    /\ In raw (map snd hist) /\ target_price t = round2 raw.

End Engine.

(** ** Scenarios *)

Module Scenarios.
Import Engine.

(** Midnight and noon of a day. *)
Definition day (n : Z) : instant := n * us_per_day.
Definition noon (n : Z) : instant := n * us_per_day + us_per_day / 2.

(** One close per day, from day [first] on. *)
Definition daily (first : Z) (closes : list Z) : PriceSeries :=
  map (fun ip => (day (first + Z.of_nat (fst ip)), inject_Z (snd ip)))
      (combine (seq 0 (length closes)) closes).

(** Eleven closes with one dip, on days 1 to 11. *)
Definition dip : PriceSeries :=
  daily 1 [100; 100; 100; 100; 100; 90; 100; 100; 100; 100; 100].

(** A fall from 50 to 40, a rise to 100 and a fall to 60, on days 20
    to 42. *)
Definition swing : PriceSeries :=
  daily 20 [50; 50; 50; 50; 50; 50; 50; 50; 50; 50; 50;
            40; 40; 40; 40; 40; 100; 100; 60; 60; 60; 60; 60].

(** A fall from 50 to 40 over the five days before day 365. *)
Definition late_fall : PriceSeries :=
  daily 350 [50; 50; 50; 50; 50; 50; 50; 50; 50; 50; 50;
             40; 40; 40; 40; 40].

(** Three closes, on days 1, 2 and 5. *)
Definition gap : PriceSeries :=
  [(day 1, 10%Q); (day 2, 11%Q); (day 5, 12%Q)].

(** The three closes of [gap], out of order. *)
Definition shuffled : PriceSeries :=
  [(day 5, 12%Q); (day 1, 10%Q); (day 2, 11%Q)].


(** A candidate at 25 with target 26. *)
Definition at_25 : Candidate :=
  {| c_ticker := "T"; c_return_pct := (-4)%Q; c_entry_price := 25;
     c_target_price := 26; c_company_name := "T" |}.

End Scenarios.

(** ** Further vocabulary *)

Module Positions.
Import MarketData Engine.

(** What a trade is opened with: everything but the four exit fields. *)
Definition opening (t : Trade)
  : nat * string * string * Z * Q * Q * Q :=
  (oid t, ticker t, company_name t, entry_date t, entry_price t, shares t,
   target_price t).

(** The price at which [_close_remaining_positions] can close a ticker:
    the last close of its history at or before [now], if there is one. *)
Definition closing_price (e : BacktestEngine) (now : instant)
  (ticker : string) : option Q :=
  match Dict.get ticker (all_historical_data e) with
  | None => None
  | Some hist => get_price_on_date hist now
  end.

(** Whether the exit check of [_update_open_positions] leaves a position
    open. *)
Definition stays_open (e : BacktestEngine) (current_date : instant)
  (entry : string * Trade) : bool :=
  match exit_check e current_date entry with
  | [] => true
  | _ :: _ => false
  end.

(** The trades that the exit check of one position moves to the ledger. *)
Definition exits_of (e : BacktestEngine) (current_date : instant)
  (entry : string * Trade) : list Trade :=
  map (fun x => closed_trade (snd entry) (snd (fst x)) (snd x))
      (exit_check e current_date entry).

(** The candidates that [_screen_for_date] collects, before sorting. *)
Definition candidates_on (e : BacktestEngine) (screening_date : instant)
  : list Candidate :=
  flat_map (screen_ticker screening_date) (all_historical_data e).

(** The number of entries of a list of day counts that a range holds. *)
Definition count_in_range (r : Z * option Z * string) (days : list Z) : nat :=
  length (filter (fun d => in_range d r) days).

(** The loop of [_close_remaining_positions] for one position: the close
    it performs, if the ticker has a closing price. *)
Definition forced_exit (e : BacktestEngine) (now : instant)
  (entry : string * Trade) : list (string * Q * instant) :=
  match closing_price e now (fst entry) with
  | Some p => [(fst entry, p, now)]
  | None => []
  end.

(** A trade closed above its target: it has an exit price at or above
    the target and above the entry, and its pnl is the shares times the
    gain per share. *)
Definition recovered (t : Trade) : Prop :=
  exists p x,
    exit_price t = Some p /\ pnl t = Some x
    /\ (x == shares t * (p - entry_price t))%Q
    /\ (target_price t <= p)%Q /\ (entry_price t < p)%Q.

(** The pnl of a trade, when it has one, is the shares times the
    difference of exit and entry price. *)
Definition pnl_settled (t : Trade) : Prop :=
  match exit_price t, pnl t with
  | Some p, Some x => (x == shares t * (p - entry_price t))%Q
  | None, None => True
  | _, _ => False
  end.

(** Every close of every history is positive. *)
Definition positive_closes (data : Dict.t PriceSeries) : Prop :=
  Forall (fun kh => Forall (fun row => (0 < snd row)%Q) (snd kh)) data.

End Positions.

(** ** Vocabulary of the evaluator and of the lookups *)

Module Windows.
Import MarketData PerformanceFilter Engine.

(** The percentage change over the five rows that end at row [j]. *)
Definition window_return (hist : PriceSeries) (j : nat) : option Q :=
  if (j <? 5)%nat then None
  else match nth_error hist j, nth_error hist (j - 5) with
       | Some now, Some before => Some ((snd now / snd before - 1) * 100)%Q
       | _, _ => None
       end.




(** The engine with every history cut to the rows dated at or before
    [date]. *)
Definition known_at (e : BacktestEngine) (date : instant) : BacktestEngine :=
  set_historical_data e
    (map (fun kh => (fst kh, up_to_date (snd kh) date))
         (all_historical_data e)).

End Windows.

(** ** The rest of [market_data.py] and of [performance_filter.py] *)

Module Ranking.
Import MarketData PerformanceFilter.

(** [market_data.calculate_return] *)
Definition calculate_return (start_price end_price : Q) : Q :=
  ((end_price - start_price) / start_price * 100)%Q.

(** [config.RETRY_ATTEMPTS] *)
Definition RETRY_ATTEMPTS : nat := 3.

(** One attempt of [fetch_stock_history]: [download ticker attempt] is
    what [yfinance] returns at that attempt, [None] when it raises; an
    empty history raises [ValueError]. *)
Definition fetch_attempt (download : string -> nat -> option PriceSeries)
  (ticker : string) (attempt : nat) : option PriceSeries :=
  match download ticker attempt with
  | Some [] => None
  | Some hist => Some hist
  | None => None
  end.

(** The attempts that [@retry(stop=stop_after_attempt(n))] makes, from
    attempt [first] on: the first success, or [None] when all fail. *)
Fixpoint retry (download : string -> nat -> option PriceSeries)
  (ticker : string) (first n : nat) : option PriceSeries :=
  match n with
  | O => None
  | S n' =>
      match fetch_attempt download ticker first with
      | Some hist => Some hist
      | None => retry download ticker (S first) n'
      end
  end.

(** [market_data.fetch_stock_history] with its retries; the waits are not
    modelled. *)
Definition fetch_stock_history
  (download : string -> nat -> option PriceSeries) (ticker : string)
  : option PriceSeries :=
  retry download ticker O RETRY_ATTEMPTS.

(** [market_data.fetch_multiple_stocks] over a fetch function: a ticker
    whose fetch raises is left out. *)
Definition fetch_multiple_stocks (fetch : string -> option PriceSeries)
  (tickers : list string) : Dict.t PriceSeries :=
  fold_left
    (fun results ticker =>
       match fetch ticker with
       | Some hist => Dict.set ticker hist results
       | None => results
       end)
    tickers Dict.empty.

(** [calculate_performance_for_multiple] *)
Definition calculate_performance_for_multiple
  (market_data : Dict.t PriceSeries) : Dict.t WorstPerformance :=
  fold_left
    (fun results entry =>
       match calculate_worst_5day_performance (snd entry) with
       | Some performance => Dict.set (fst entry) performance results
       | None => results
       end)
    market_data Dict.empty.

(** [sorted(items, key=lambda x: x[1].return_pct)]: a stable sort. *)
Fixpoint insert_ranked (x : string * WorstPerformance)
  (sorted : list (string * WorstPerformance))
  : list (string * WorstPerformance) :=
  match sorted with
  | [] => [x]
  | y :: rest =>
      if Qltb (return_pct (snd y)) (return_pct (snd x))
      then y :: insert_ranked x rest
      else x :: sorted
  end.

Definition sorted_by_return (items : list (string * WorstPerformance))
  : list (string * WorstPerformance) :=
  fold_right insert_ranked [] items.

(** [rank_by_worst_performance].  The log line reads [ranked[0]], so an
    empty dictionary raises [IndexError]: [None]. *)
Definition rank_by_worst_performance
  (performance_data : Dict.t WorstPerformance)
  : option (list (string * WorstPerformance)) :=
  match sorted_by_return performance_data with
  | [] => None
  | ranked => Some ranked
  end.

(** [l[:n]], for any integer [n] *)
Definition slice_to {A} (n : Z) (l : list A) : list A :=
  if 0 <=? n then firstn (Z.to_nat n) l
  else firstn (length l - Z.to_nat (- n)) l.

(** [get_top_n_worst_performers] *)
Definition get_top_n_worst_performers
  (performance_data : Dict.t WorstPerformance) (n : Z)
  : option (list (string * WorstPerformance)) :=
  match rank_by_worst_performance performance_data with
  | Some ranked => Some (slice_to n ranked)
  | None => None
  end.

(** The order of a ranking: by return, ascending. *)
Definition le_return (a b : string * WorstPerformance) : Prop :=
  (return_pct (snd a) <= return_pct (snd b))%Q.

End Ranking.

(** ** The ticker universe: metadata, filters and index constituents
    ([company_metadata.py], [age_filter.py], [country_filter.py],
    [index_fetcher.py], [BacktestEngine._get_candidate_tickers]) *)

(** A text cell of the metadata table: [pd.read_csv] reads an empty cell
    as NaN, here [None].  A text column holds a string in some row: a
    column read as numbers, on which [.str] raises, is outside the
    model, as is a founding year that is not a number. *)
Definition cell := option string.

(** A row of the metadata CSV as [pd.read_csv] gives it; a missing
    founding year is [None].  [raw_notes] is [None] when the file has no
    column [notes]. *)
Record RawRow := mkRawRow {
  raw_ticker : cell;
  raw_company_name : cell;
  raw_founding_year : option Z;
  raw_country : cell;
  raw_index : cell;
  raw_notes : option cell
}.

(** A row of the metadata DataFrame.  The column [company_age_years] is
    there once an age filter has added it. *)
Record CompanyRow := mkCompanyRow {
  r_ticker : cell;
  r_company_name : cell;
  r_founding_year : Z;
  r_country : cell;
  r_index : cell;
  r_notes : option cell;
  r_company_age_years : option Z
}.

(** [schemas.Company] *)
Record Company := mkCompany {
  co_ticker : string;
  co_company_name : string;
  co_founding_year : Z;
  co_country : string;
  co_index : string;
  co_notes : option string
}.

(** The outcomes of [get_company]: no row, a company, or the
    [ValidationError] of the [Company] model. *)
Inductive company_lookup :=
| NotFound
| Found (c : Company)
| Invalid.

Module Universe.

(** [v in {"SP500", "DAX", "FTSE100"}] *)
Definition valid_index (name : string) : bool :=
  String.eqb name "SP500" || String.eqb name "DAX"
  || String.eqb name "FTSE100".

(** [1600 <= v <= current_year] *)
Definition valid_founding_year (current_year year : Z) : bool :=
  (1600 <=? year) && (year <=? current_year).

(** The two checks of the loop of [load_metadata]; NaN is not in the set
    of indices. *)
Definition valid_row (current_year : Z) (row : CompanyRow) : bool :=
  valid_founding_year current_year (r_founding_year row)
  && match r_index row with
     | Some name => valid_index name
     | None => false
     end.

(** [df.dropna(subset=["founding_year"])] with the conversion to int *)
Definition dropna_founding_year (raw : list RawRow) : list CompanyRow :=
  flat_map (fun row =>
              match raw_founding_year row with
              | Some year =>
                  [ {| r_ticker := raw_ticker row;
                       r_company_name := raw_company_name row;
                       r_founding_year := year;
                       r_country := raw_country row;
                       r_index := raw_index row;
                       r_notes := raw_notes row;
                       r_company_age_years := None |} ]
              | None => []
              end) raw.

(** [load_metadata] from the rows read on: the rows without founding year
    are dropped, then the rows that fail a check.  [current_year] is
    [datetime.now().year]. *)
Definition load_metadata (current_year : Z) (raw : list RawRow)
  : list CompanyRow :=
  filter (valid_row current_year) (dropna_founding_year raw).

(** [series == value] on a text column: NaN equals nothing. *)
Definition cell_eqb (c : cell) (value : string) : bool :=
  match c with
  | Some s => String.eqb s value
  | None => false
  end.

(** Whether two cells match in [isin]: equal strings match, and NaN
    matches NaN. *)
Definition cell_match (a b : cell) : bool :=
  match a, b with
  | Some s, Some s' => String.eqb s s'
  | None, None => true
  | _, _ => false
  end.

(** [series.isin(values)] on a text column *)
Definition isin (c : cell) (values : list cell) : bool :=
  existsb (cell_match c) values.

(** A list of strings as values of [isin]. *)
Definition strings (values : list string) : list cell := map Some values.

(** [df[df["index"] == index_name]] *)
Definition get_companies_by_index (df : list CompanyRow) (index_name : string)
  : list CompanyRow :=
  filter (fun row => cell_eqb (r_index row) index_name) df.

Definition get_companies_by_country (df : list CompanyRow)
  (countries : list string) : list CompanyRow :=
  filter (fun row => isin (r_country row) (strings countries)) df.

(** [get_companies_by_tickers]; the tickers are those of the index
    listings, which can hold NaN. *)
Definition get_companies_by_tickers (df : list CompanyRow)
  (tickers : list cell) : list CompanyRow :=
  filter (fun row => isin (r_ticker row) tickers) df.

(** The construction of a [Company] from a row: a [str] field takes a
    string and rejects NaN, [notes] also takes [None] (no column), and the
    two validators run on the founding year and on the index. *)
Definition company_of_row (current_year : Z) (row : CompanyRow)
  : option Company :=
  match r_ticker row, r_company_name row, r_country row, r_index row with
  | Some ticker, Some name, Some country, Some index_name =>
      if valid_founding_year current_year (r_founding_year row)
         && valid_index index_name
      then
        match r_notes row with
        | None =>
            Some {| co_ticker := ticker; co_company_name := name;
                    co_founding_year := r_founding_year row;
                    co_country := country; co_index := index_name;
                    co_notes := None |}
        | Some (Some notes) =>
            Some {| co_ticker := ticker; co_company_name := name;
                    co_founding_year := r_founding_year row;
                    co_country := country; co_index := index_name;
                    co_notes := Some notes |}
        | Some None => None
        end
      else None
  | _, _, _, _ => None
  end.

(** [get_company]: the first row of the ticker, made a [Company]. *)
Definition get_company (current_year : Z) (df : list CompanyRow)
  (ticker : string) : company_lookup :=
  match filter (fun row => cell_eqb (r_ticker row) ticker) df with
  | [] => NotFound
  | row :: _ =>
      match company_of_row current_year row with
      | Some company => Found company
      | None => Invalid
      end
  end.

(** [df["company_age_years"] = current_year - df["founding_year"]] *)
Definition with_age (current_year : Z) (row : CompanyRow) : CompanyRow :=
  {| r_ticker := r_ticker row;
     r_company_name := r_company_name row;
     r_founding_year := r_founding_year row;
     r_country := r_country row;
     r_index := r_index row;
     r_notes := r_notes row;
     r_company_age_years := Some (current_year - r_founding_year row) |}.

Definition age_at_least (min_age : Z) (row : CompanyRow) : bool :=
  match r_company_age_years row with
  | Some age => min_age <=? age
  | None => false
  end.

(** [age_filter.filter_by_age]: the rows returned carry the age column. *)
Definition filter_by_age (current_year : Z) (df : list CompanyRow)
  (min_age_years : Z) : list CompanyRow :=
  filter (age_at_least min_age_years) (map (with_age current_year) df).

(** [age_filter.get_companies_older_than] *)
Definition get_companies_older_than (df : list CompanyRow)
  (founding_year : Z) : list CompanyRow :=
  filter (fun row => r_founding_year row <? founding_year) df.

(** [age_filter.get_companies_in_age_range] *)
Definition get_companies_in_age_range (current_year : Z)
  (df : list CompanyRow) (min_age max_age : Z) : list CompanyRow :=
  filter (fun row =>
            match r_company_age_years row with
            | Some age => (min_age <=? age) && (age <=? max_age)
            | None => false
            end)
         (map (with_age current_year) df).

(** [index_fetcher.fetch_index_tickers]: [fetchers name] is what the
    fetcher of a supported index returns, [None] when it raises; an
    unsupported name raises [ValueError].  A listing is a list of cells:
    [fetch_sp500_tickers] returns the column [Symbol] as it is, NaN
    included. *)
Definition fetch_index_tickers (fetchers : string -> option (list cell))
  (index_name : string) : option (list cell) :=
  if valid_index index_name then fetchers index_name else None.

(** [index_fetcher.fetch_all_indices]: a failed index maps to the empty
    list. *)
Definition fetch_all_indices (fetchers : string -> option (list cell))
  (indices : list string) : Dict.t (list cell) :=
  fold_left
    (fun results index_name =>
       match fetch_index_tickers fetchers index_name with
       | Some tickers => Dict.set index_name tickers results
       | None => Dict.set index_name [] results
       end)
    indices Dict.empty.

(** The loop over the indices of [_get_candidate_tickers] and of
    [ScreeningEngine._fetch_index_constituents]: a failed index is logged
    and skipped. *)
Definition all_index_tickers (fetchers : string -> option (list cell))
  (indices : list string) : list cell :=
  flat_map (fun index_name =>
              match fetch_index_tickers fetchers index_name with
              | Some tickers => tickers
              | None => []
              end) indices.

Section WithUpper.
(** [str.upper] *)
Variable upper : string -> string.

(** [country_filter.filter_by_country]; [.str.upper()] keeps NaN. *)
Definition filter_by_country (df : list CompanyRow)
  (countries : option (list string)) : list CompanyRow :=
  match countries with
  | None => df
  | Some [] => df
  | Some cs =>
      let countries_normalized := map upper cs in
      filter (fun row =>
                isin (option_map upper (r_country row))
                     (strings countries_normalized))
             df
  end.

(** [BacktestEngine._get_candidate_tickers], from the rows of the CSV
    on; the result is the column [ticker] of the rows left.  [load_year]
    and [current_year] are the clock readings of [load_metadata] and of
    [filter_by_age]. *)
Definition _get_candidate_tickers
  (fetchers : string -> option (list cell)) (indices : list string)
  (raw : list RawRow) (min_age_years : Z) (countries : list string)
  (load_year current_year : Z) : list cell :=
  let all_tickers := all_index_tickers fetchers indices in
  let metadata_df := load_metadata load_year raw in
  let filtered_df := get_companies_by_tickers metadata_df all_tickers in
  let filtered_df := filter_by_age current_year filtered_df min_age_years in
  let filtered_df :=
    match countries with
    | [] => filtered_df
    | _ => filter_by_country filtered_df (Some countries)
    end in
  map r_ticker filtered_df.
End WithUpper.

End Universe.

(** ** The screening workflow ([screener.py]) *)

(** [schemas.ScreeningResult] *)
Record ScreeningResult := mkScreeningResult {
  sr_ticker : string;
  sr_company_name : string;
  sr_country : string;
  sr_index : string;
  sr_founding_year : Z;
  sr_company_age_years : Z;
  sr_worst_5day_performance : WorstPerformance
}.

(** The counters of [schemas.ScreeningMetadata] and the results of
    [schemas.ScreeningOutput]. *)
Record ScreeningOutput := mkScreeningOutput {
  so_total_candidates : Z;
  so_companies_with_metadata : Z;
  so_companies_screened : Z;
  so_excluded_no_metadata : Z;
  so_excluded_too_young : Z;
  so_results : list ScreeningResult
}.

Module Screener.
Import PerformanceFilter Ranking Universe.

Definition len {A} (l : list A) : Z := Z.of_nat (length l).

(** The [ScreeningResult] built for a company; [current_year] is the
    clock reading of [Company.company_age_years]. *)
Definition screening_result (current_year : Z) (company : Company)
  (perf : WorstPerformance) : ScreeningResult :=
  {| sr_ticker := co_ticker company;
     sr_company_name := co_company_name company;
     sr_country := co_country company;
     sr_index := co_index company;
     sr_founding_year := co_founding_year company;
     sr_company_age_years := current_year - co_founding_year company;
     sr_worst_5day_performance := perf |}.

(** The loop of [_calculate_and_rank] over the ranking: a ticker without
    a row is skipped; [None] when [get_company] raises. *)
Fixpoint results_of (current_year : Z) (df : list CompanyRow)
  (ranked : list (string * WorstPerformance))
  : option (list ScreeningResult) :=
  match ranked with
  | [] => Some []
  | (ticker, perf) :: rest =>
      match get_company current_year df ticker with
      | Invalid => None
      | NotFound => results_of current_year df rest
      | Found company =>
          match results_of current_year df rest with
          | Some results =>
              Some (screening_result current_year company perf :: results)
          | None => None
          end
      end
  end.

(** [ScreeningEngine._calculate_and_rank]; [None] is an exception, the
    [IndexError] of [rank_by_worst_performance] among them. *)
Definition _calculate_and_rank (current_year : Z) (df : list CompanyRow)
  (market_data_dict : Dict.t PriceSeries) : option (list ScreeningResult) :=
  match rank_by_worst_performance
          (calculate_performance_for_multiple market_data_dict) with
  | None => None
  | Some ranked => results_of current_year df ranked
  end.


Section WithUpper.
Variable upper : string -> string.

(** [ScreeningEngine._apply_filters], without the counter *)
Definition _apply_filters (current_year : Z) (df : list CompanyRow)
  (min_age_years : Z) (countries : list string) : list CompanyRow :=
  let df := filter_by_age current_year df min_age_years in
  match countries with
  | [] => df
  | _ => filter_by_country upper df (Some countries)
  end.

(** The strings of [df["ticker"].tolist()].  A table filtered by
    listings without NaN has a string in every ticker cell; what
    [yfinance] does with a NaN ticker is outside the model. *)
Definition ticker_strings (df : list CompanyRow) : list string :=
  flat_map (fun row => match r_ticker row with
                       | Some ticker => [ticker]
                       | None => []
                       end) df.

(** The steps 3 to 6 of [ScreeningEngine.run], on the rows that
    [load_metadata] read; [fetch] is [market_data.fetch_stock_history]
    with the lookback of the engine, [load_year] and [current_year] are
    the clock readings of [load_metadata] and of the later steps.
    [None] is an exception. *)
Definition screen (fetchers : string -> option (list cell))
  (fetch : string -> option PriceSeries) (indices : list string)
  (min_age_years : Z) (countries : list string)
  (raw : list RawRow) (load_year current_year : Z)
  : option ScreeningOutput :=
  let all_tickers := all_index_tickers fetchers indices in
  let metadata_df := load_metadata load_year raw in
  let with_metadata := get_companies_by_tickers metadata_df all_tickers in
  let total_candidates := len all_tickers in
  let excluded_no_metadata := total_candidates - len with_metadata in
  let aged := filter_by_age current_year with_metadata min_age_years in
  let excluded_too_young := len with_metadata - len aged in
  let filtered_df :=
    _apply_filters current_year with_metadata min_age_years countries in
  match filtered_df with
  | [] =>
      Some {| so_total_candidates := total_candidates;
              so_companies_with_metadata := 0;
              so_companies_screened := 0;
              so_excluded_no_metadata := excluded_no_metadata;
              so_excluded_too_young := excluded_too_young;
              so_results := [] |}
  | _ =>
      let market_data_dict :=
        fetch_multiple_stocks fetch (ticker_strings filtered_df) in
      match _calculate_and_rank current_year filtered_df market_data_dict with
      | None => None
      | Some results =>
          Some {| so_total_candidates := total_candidates;
                  so_companies_with_metadata := len metadata_df;
                  so_companies_screened := len results;
                  so_excluded_no_metadata := excluded_no_metadata;
                  so_excluded_too_young := excluded_too_young;
                  so_results := results |}
      end
  end.

(** [ScreeningEngine.run].  [csv] is what the read of the metadata file
    gives: the rows, or [None] when [load_metadata] raises (no file, a
    required column missing, a founding year that is no number), which
    [_load_metadata] raises again. *)
Definition run (fetchers : string -> option (list cell))
  (fetch : string -> option PriceSeries) (indices : list string)
  (min_age_years : Z) (countries : list string)
  (csv : option (list RawRow)) (load_year current_year : Z)
  : option ScreeningOutput :=
  match csv with
  | None => None
  | Some raw =>
      screen fetchers fetch indices min_age_years countries raw load_year
        current_year
  end.


Definition performance_data (fetch : string -> option PriceSeries)
  (filtered_df : list CompanyRow) : Dict.t WorstPerformance :=
  calculate_performance_for_multiple
    (fetch_multiple_stocks fetch (ticker_strings filtered_df)).
End WithUpper.




End Screener.

(** ** The report and the curve ([reporter.py], [plotter.py]) *)

(** The entry ["metadata"] of the dictionary that [save_backtest_results]
    writes, without the date of the report. *)
Record ReportMetadata := mkReportMetadata {
  rm_total_trades : Z;
  rm_closed_trades : Z;
  rm_still_open : Z;
  rm_winning_trades : Z;
  rm_losing_trades : Z;
  rm_total_pnl : Q;
  rm_total_invested : Q;
  rm_return_pct : Q;
  rm_avg_holding_days : Q
}.

(** An entry of ["trades"]. *)
Record TradeRow := mkTradeRow {
  tr_ticker : string;
  tr_company_name : string;
  tr_entry_date : Z;
  tr_entry_price : Q;
  tr_shares : Q;
  tr_target_price : Q;
  tr_exit_date : option Z;
  tr_exit_price : option Q;
  tr_holding_days : option Z;
  tr_pnl : option Q;
  tr_pnl_pct : option Q
}.

Record Report := mkReport {
  rp_metadata : ReportMetadata;
  rp_holding_days_distribution : Dict.t nat;
  rp_trades : list TradeRow
}.

Module Reporter.
Import Engine.

(** [round(x, digits)] *)
Definition round_to (digits : nat) (x : Q) : Q :=
  (inject_Z (rint (x * inject_Z (10 ^ Z.of_nat digits)))
   / inject_Z (10 ^ Z.of_nat digits))%Q.

(** The entry of a trade.  [if t.exit_price] is false for [None] and for
    [0.0]. *)
Definition trade_row (t : Trade) : TradeRow :=
  {| tr_ticker := ticker t;
     tr_company_name := company_name t;
     tr_entry_date := entry_date t;
     tr_entry_price := round2 (entry_price t);
     tr_shares := round_to 4 (shares t);
     tr_target_price := round2 (target_price t);
     tr_exit_date := exit_date t;
     tr_exit_price :=
       match exit_price t with
       | Some p => if Qeq_bool p 0 then None else Some (round2 p)
       | None => None
       end;
     tr_holding_days := holding_days t;
     tr_pnl := option_map round2 (pnl t);
     tr_pnl_pct :=
       match pnl t with
       | Some x =>
           if Qltb 0 (entry_price t * shares t)
           then Some (round2 (x / (entry_price t * shares t) * 100))
           else None
       | None => None
       end |}.

(** A reported value: a value of two decimals less than 0.01 away from
    [exact].  The source rounds a float, which can fall on the other side
    of a rounding boundary than the exact value. *)
Definition reported_as (field : option Q) (exact : Q) : Prop :=
  exists x, field = Some x /\ two_decimals x /\ (Qabs (x - exact) < 1 # 100)%Q.

(** The dictionary of [save_backtest_results] *)
Definition save_backtest_results (result : BacktestResult) : Report :=
  {| rp_metadata :=
       {| rm_total_trades := Z.of_nat (total_trades result);
          rm_closed_trades :=
            Z.of_nat (total_trades result) - Z.of_nat (still_open result);
          rm_still_open := Z.of_nat (still_open result);
          rm_winning_trades := Z.of_nat (winning_trades result);
          rm_losing_trades := Z.of_nat (losing_trades result);
          rm_total_pnl := round2 (total_pnl result);
          rm_total_invested := round2 (total_invested result);
          rm_return_pct :=
            if Qltb 0 (total_invested result)
            then round2 (total_pnl result / total_invested result * 100)
            else 0;
          rm_avg_holding_days := round_to 1 (avg_holding_days result) |};
     rp_holding_days_distribution := holding_days_distribution result;
     rp_trades := map trade_row (trades result) |}.

End Reporter.

Module Plotter.
Import Engine.

(** [[t for t in result.trades if t.exit_date is not None]], each trade
    with its exit date *)
Definition dated (all : list Trade) : list (Z * Trade) :=
  flat_map (fun t => match exit_date t with
                     | Some d => [(d, t)]
                     | None => []
                     end) all.

(** [closed_trades.sort(key=lambda t: t.exit_date)]: a stable sort; the
    dates compare as their day numbers. *)
Fixpoint insert_by_exit (x : Z * Trade) (sorted : list (Z * Trade))
  : list (Z * Trade) :=
  match sorted with
  | [] => [x]
  | y :: rest =>
      if fst y <? fst x then y :: insert_by_exit x rest else x :: sorted
  end.

Definition sort_by_exit (l : list (Z * Trade)) : list (Z * Trade) :=
  fold_right insert_by_exit [] l.

(** The order of that sort. *)
Definition by_exit (a b : Z * Trade) : Prop := fst a <= fst b.

(** The loop that accumulates the curve from [current_pnl] on; adding a
    pnl of [None] raises [TypeError]: [None]. *)
Fixpoint accumulate (current_pnl : Q) (closed : list (Z * Trade))
  : option (list (instant * Q)) :=
  match closed with
  | [] => Some []
  | (d, t) :: rest =>
      match pnl t with
      | Some x =>
          match accumulate (current_pnl + x) rest with
          | Some points => Some ((strptime d, (current_pnl + x)%Q) :: points)
          | None => None
          end
      | None => None
      end
  end.

(** The points of [plot_cumulative_pnl], dates and cumulative pnl; no
    point when no trade is closed. *)
Definition cumulative_pnl (result : BacktestResult)
  : option (list (instant * Q)) :=
  accumulate 0 (sort_by_exit (dated (trades result))).

(** [cumulative_pnl[-1]], the value of the annotation *)
Definition final_pnl (points : list (instant * Q)) : option Q :=
  match rev points with
  | [] => None
  | last :: _ => Some (snd last)
  end.

(** [[t.holding_days for t in result.trades
      if t.holding_days is not None]] *)
Definition plotted_holding_days (all : list Trade) : list Z :=
  flat_map (fun t => match holding_days t with
                     | Some d => [d]
                     | None => []
                     end) all.

(** [[0, 7, 14, 30, 60, 90, 180, 365, max(holding_days) + 1]], for the
    list [first :: rest] *)
Definition bins (first : Z) (rest : list Z) : list Z :=
  [0; 7; 14; 30; 60; 90; 180; 365; fold_left Z.max rest first + 1].

(** The counts of the bars: for each [i], the number of day counts with
    [bins[i] <= days < bins[i + 1]]. *)
Fixpoint bin_counts (bins : list Z) (days : list Z) : list nat :=
  match bins with
  | [] => []
  | lo :: rest =>
      match rest with
      | [] => []
      | hi :: _ =>
          length (filter (fun d => (lo <=? d) && (d <? hi)) days)
          :: bin_counts rest days
      end
  end.

(** The bars of [plot_holding_period_distribution]; [None] when there is
    no holding period and nothing is plotted. *)
Definition plot_holding_period_distribution (result : BacktestResult)
  : option (list nat) :=
  match plotted_holding_days (trades result) with
  | [] => None
  | first :: rest => Some (bin_counts (bins first rest) (first :: rest))
  end.

(** The closed trades that were held for zero days. *)
Definition zero_day_trades (closed : list Trade) : nat :=
  length (filter (fun t => match holding_days t with
                           | Some d => d =? 0
                           | None => false
                           end) closed).

End Plotter.

(** * Properties *)

(** ** Lists *)

Lemma NoDup_app_disjoint {A} (l1 l2 : list A) :
  NoDup (l1 ++ l2) -> forall a, In a l1 -> ~ In a l2.
Proof.
  induction l1 as [|x l1 IH]; simpl; [tauto|].
  intros Hnd a [<-|Hin] Hin2; inversion Hnd as [|? ? Hnotin Hnd']; subst.
  - apply Hnotin. apply in_or_app. now right.
  - now apply (IH Hnd' a).
Qed.

(** ** Dictionaries *)

Module DictFacts.
Section Facts.
Context {V : Type}.
Implicit Types (d : Dict.t V) (k : string) (v : V).

Lemma mem_true_iff k d : Dict.mem k d = true <-> In k (Dict.keys d).
Proof.
  unfold Dict.mem. induction d as [|[k' v'] d IH]; simpl.
  - split; [discriminate | tauto].
  - destruct (String.eqb_spec k k') as [->|Hne].
    + split; auto.
    + rewrite IH. split; [tauto|]. intros [Heq|Hin]; [congruence | exact Hin].
Qed.

Lemma mem_false_iff k d : Dict.mem k d = false <-> ~ In k (Dict.keys d).
Proof.
  rewrite <- mem_true_iff. destruct (Dict.mem k d); split; congruence.
Qed.

Lemma get_In k v d : Dict.get k d = Some v -> In (k, v) d.
Proof.
  induction d as [|[k' v'] d IH]; simpl; [discriminate|].
  destruct (String.eqb_spec k k') as [->|Hne].
  - intros [= ->]. now left.
  - intros H. right. now apply IH.
Qed.

Lemma In_get k v d : NoDup (Dict.keys d) -> In (k, v) d -> Dict.get k d = Some v.
Proof.
  induction d as [|[k' v'] d IH]; simpl; [tauto|].
  intros Hnd [Heq|Hin]; inversion Hnd as [|? ? Hnotin Hnd']; subst.
  - inversion Heq; subst. now rewrite String.eqb_refl.
  - destruct (String.eqb_spec k k') as [->|Hne].
    + exfalso. apply Hnotin. change k' with (fst (k', v)). now apply in_map.
    + now apply IH.
Qed.

Lemma get_None_mem k d : Dict.get k d = None -> Dict.mem k d = false.
Proof. unfold Dict.mem. now intros ->. Qed.

Lemma get_Some_mem k v d : Dict.get k d = Some v -> Dict.mem k d = true.
Proof. unfold Dict.mem. now intros ->. Qed.

(** Setting a key that is absent appends the binding. *)
Lemma set_absent k v d : Dict.mem k d = false -> Dict.set k v d = d ++ [(k, v)].
Proof.
  unfold Dict.mem. induction d as [|[k' v'] d IH]; simpl; [reflexivity|].
  destruct (String.eqb_spec k k') as [->|Hne]; [discriminate|].
  intros H. now rewrite IH.
Qed.

Lemma keys_set k v d :
  Dict.keys (Dict.set k v d)
  = if Dict.mem k d then Dict.keys d else Dict.keys d ++ [k].
Proof.
  unfold Dict.mem. induction d as [|[k' v'] d IH]; simpl; [reflexivity|].
  destruct (String.eqb_spec k k') as [->|Hne]; simpl; [reflexivity|].
  rewrite IH. now destruct (Dict.get k d).
Qed.

Lemma In_del k k' v d : In (k', v) (Dict.del k d) -> In (k', v) d.
Proof.
  induction d as [|[k0 v0] d IH]; simpl; [tauto|].
  destruct (String.eqb k k0); simpl; [now right|].
  intros [H|H]; [now left | right; now apply IH].
Qed.

Lemma In_keys_del k k' d : In k' (Dict.keys (Dict.del k d)) -> In k' (Dict.keys d).
Proof.
  unfold Dict.keys. rewrite !in_map_iff.
  intros [[k0 v0] [Hk Hin]]. exists (k0, v0). split; [exact Hk|].
  now apply In_del with k.
Qed.

Lemma NoDup_keys_del k d : NoDup (Dict.keys d) -> NoDup (Dict.keys (Dict.del k d)).
Proof.
  induction d as [|[k0 v0] d IH]; simpl; [auto|].
  intros Hnd. inversion Hnd as [|? ? Hnotin Hnd']; subst.
  destruct (String.eqb k k0); simpl; [exact Hnd'|].
  constructor; [|now apply IH].
  intros Hin. apply Hnotin. now apply In_keys_del with k.
Qed.

Lemma NoDup_keys_set k v d : NoDup (Dict.keys d) -> NoDup (Dict.keys (Dict.set k v d)).
Proof.
  intros Hnd. rewrite keys_set.
  destruct (Dict.mem k d) eqn:Hm; [exact Hnd|].
  apply mem_false_iff in Hm.
  apply NoDup_app; repeat split; auto.
  - constructor; [simpl; tauto | constructor].
  - intros x Hx [<-|[]]. now apply Hm.
Qed.

(** On a dictionary (no repeated key) a deleted key is gone. *)
Lemma del_not_mem k d : NoDup (Dict.keys d) -> Dict.mem k (Dict.del k d) = false.
Proof.
  intros Hnd. apply mem_false_iff.
  induction d as [|[k0 v0] d IH]; simpl; [tauto|].
  inversion Hnd as [|? ? Hnotin Hnd']; subst.
  destruct (String.eqb_spec k k0) as [->|Hne]; [exact Hnotin|].
  simpl. intros [Heq|Hin]; [congruence | now apply IH].
Qed.

(** What is left after a deletion, in terms of the bindings. *)
Lemma In_del_inv k k' v d :
  NoDup (Dict.keys d) -> In (k', v) d -> k' <> k -> In (k', v) (Dict.del k d).
Proof.
  induction d as [|[k0 v0] d IH]; simpl; [tauto|].
  intros Hnd Hin Hne. inversion Hnd; subst.
  destruct (String.eqb_spec k k0) as [->|Hne0].
  - destruct Hin as [Heq|Hin]; [inversion Heq; congruence | exact Hin].
  - destruct Hin as [Heq|Hin]; [now left | right; now apply IH].
Qed.
Lemma In_set k k' v v' d :
  In (k', v') (Dict.set k v d) -> In (k', v') d \/ (k', v') = (k, v).
Proof.
  induction d as [|[k0 v0] d IH]; simpl.
  - intros [H|[]]. right. now symmetry.
  - destruct (String.eqb k k0); simpl.
    + intros [H|H]; [right; now symmetry | left; now right].
    + intros [H|H]; [left; now left|].
      destruct (IH H) as [H'|H']; [left; now right | now right].
Qed.

(** A binding that [get] finds splits the dictionary around it, and
    [del] removes exactly that binding. *)
Lemma get_split k v d :
  Dict.get k d = Some v ->
  exists d1 d2, d = d1 ++ (k, v) :: d2 /\ Dict.del k d = d1 ++ d2.
Proof.
  induction d as [|[k0 v0] d IH]; simpl; [discriminate|].
  destruct (String.eqb_spec k k0) as [->|Hne].
  - intros [= ->]. now exists [], d.
  - intros H. destruct (IH H) as (d1 & d2 & -> & Hdel).
    exists ((k0, v0) :: d1), d2. simpl. now rewrite Hdel.
Qed.

Lemma In_values (x : V) d : In x (Dict.values d) <-> exists k, In (k, x) d.
Proof.
  unfold Dict.values. rewrite in_map_iff. split.
  - intros [[k v] [Heq Hin]]. simpl in Heq. subst. now exists k.
  - intros [k Hin]. now exists (k, x).
Qed.
End Facts.
End DictFacts.

(** ** How the two primitive moves change the engine *)

Module EngineFacts.
Import Engine DictFacts.

Lemma open_rejected e c d : accepts e c = false -> _open_position e c d = e.
Proof.
  unfold accepts, _open_position.
  destruct (Dict.mem _ _); [reflexivity|].
  destruct (Qle_bool _ _); [reflexivity | discriminate].
Qed.

Lemma open_accepted e c d :
  accepts e c = true ->
  open_positions (_open_position e c d)
  = open_positions e ++ [(c_ticker c, new_trade e c d)]
  /\ closed_trades (_open_position e c d) = closed_trades e
  /\ next_oid (_open_position e c d) = S (next_oid e).
Proof.
  unfold accepts, _open_position.
  destruct (Dict.mem _ _) eqn:Hm; [discriminate|].
  destruct (Qle_bool _ _); [discriminate|]. intros _. simpl.
  now rewrite set_absent.
Qed.

Lemma accepts_target e c :
  accepts e c = true -> (c_entry_price c < c_target_price c)%Q.
Proof.
  unfold accepts. rewrite andb_true_iff, !negb_true_iff. intros [_ H].
  apply Qnot_le_lt. intros Hle. apply Qle_bool_iff in Hle. congruence.
Qed.

Lemma open_config e c d :
  investment_per_trade (_open_position e c d) = investment_per_trade e
  /\ all_historical_data (_open_position e c d) = all_historical_data e
  /\ screening_frequency_days (_open_position e c d)
     = screening_frequency_days e
  /\ lookback_years (_open_position e c d) = lookback_years e.
Proof.
  unfold _open_position.
  destruct (Dict.mem _ _); [tauto|]. destruct (Qle_bool _ _); simpl; tauto.
Qed.

Lemma close_absent e k p d :
  Dict.get k (open_positions e) = None -> _close_position e k p d = e.
Proof. unfold _close_position. now intros ->. Qed.

Lemma close_present e k p d t :
  Dict.get k (open_positions e) = Some t ->
  open_positions (_close_position e k p d) = Dict.del k (open_positions e)
  /\ closed_trades (_close_position e k p d)
     = closed_trades e ++ [closed_trade t p d]
  /\ next_oid (_close_position e k p d) = next_oid e.
Proof. unfold _close_position. intros ->. simpl. tauto. Qed.

Lemma close_config e k p d :
  investment_per_trade (_close_position e k p d) = investment_per_trade e
  /\ all_historical_data (_close_position e k p d) = all_historical_data e
  /\ screening_frequency_days (_close_position e k p d)
     = screening_frequency_days e
  /\ lookback_years (_close_position e k p d) = lookback_years e.
Proof.
  unfold _close_position. destruct (Dict.get _ _); simpl; tauto.
Qed.

(** Every composite move is a chain of the two primitive ones, so a
    property that both keep is kept by all of them. *)
Section Preservation.
Variable P : BacktestEngine -> Prop.
Variable Good : Candidate -> Prop.
Hypothesis P_open : forall e c d, Good c -> P e -> P (_open_position e c d).
Hypothesis P_close : forall e k p d, P e -> P (_close_position e k p d).

Lemma keeps_close_all l : forall e, P e -> P (close_all e l).
Proof.
  unfold close_all. induction l as [|[[k p] d] l IH]; simpl; intros e He.
  - exact He.
  - apply IH. now apply P_close.
Qed.

Lemma keeps_update e d : P e -> P (_update_open_positions e d).
Proof. intros He. unfold _update_open_positions. now apply keeps_close_all. Qed.

Lemma keeps_close_remaining e now : P e -> P (_close_remaining_positions e now).
Proof.
  unfold _close_remaining_positions.
  generalize (Dict.keys (open_positions e)) as ks.
  intros ks. revert e. induction ks as [|k ks IH]; simpl; intros e He.
  - exact He.
  - apply IH. unfold close_remaining.
    destruct (Dict.get k (all_historical_data e)); [|exact He].
    destruct (MarketData.get_price_on_date _ _); [|exact He].
    now apply P_close.
Qed.

Lemma keeps_call e c :
  (forall x, Good x) -> P e -> P (call e c).
Proof.
  intros HG He. destruct c; simpl.
  - now apply P_open.
  - now apply keeps_update.
  - now apply P_close.
Qed.

Lemma keeps_calls cs :
  (forall x, Good x) -> forall e, P e -> P (calls e cs).
Proof.
  intros HG. unfold calls. induction cs as [|c cs IH]; simpl; intros e He.
  - exact He.
  - apply IH. now apply keeps_call.
Qed.

Hypothesis screen_good :
  forall e d c, P e -> _screen_for_date e d = Some c -> Good c.

Lemma keeps_screening e d : P e -> P (screening e d).
Proof.
  intros He. unfold screening.
  assert (H1 : P (_update_open_positions e d)) by now apply keeps_update.
  destruct (_screen_for_date _ d) eqn:Hs; [|exact H1].
  apply P_open; [|exact H1]. now apply screen_good with (2 := Hs).
Qed.

Lemma keeps_screenings dates : forall e, P e -> P (screenings e dates).
Proof.
  unfold screenings. induction dates as [|d ds IH]; simpl; intros e He.
  - exact He.
  - apply IH. now apply keeps_screening.
Qed.

Lemma keeps_screening_loop fuel :
  forall e cur stop e',
    P e -> screening_loop fuel e cur stop = Some e' -> P e'.
Proof.
  induction fuel as [|fuel IH]; simpl; intros e cur stop e' He.
  - destruct (cur <=? stop); [discriminate|]. now intros [= <-].
  - destruct (cur <=? stop); [|now intros [= <-]].
    apply IH. now apply keeps_screening.
Qed.
End Preservation.

(** The trades held after a primitive move. *)
Lemma all_trades_open e c d t' :
  In t' (all_trades (_open_position e c d)) ->
  In t' (all_trades e) \/ (accepts e c = true /\ t' = new_trade e c d).
Proof.
  destruct (accepts e c) eqn:Ha.
  - destruct (open_accepted e c d Ha) as (Ho & Hc & _).
    unfold all_trades. rewrite Ho, Hc. unfold Dict.values.
    rewrite map_app, !in_app_iff. simpl. intuition.
  - rewrite (open_rejected e c d Ha). now left.
Qed.

Lemma all_trades_close e k p d t' :
  In t' (all_trades (_close_position e k p d)) ->
  In t' (all_trades e)
  \/ exists t, Dict.get k (open_positions e) = Some t
               /\ t' = closed_trade t p d.
Proof.
  destruct (Dict.get k (open_positions e)) as [t|] eqn:Hg.
  - destruct (close_present e k p d t Hg) as (Ho & Hc & _).
    unfold all_trades. rewrite Ho, Hc, !in_app_iff. simpl.
    intros [[H|[H|[]]]|H].
    + left. now left.
    + right. exists t. now split.
    + left. right. apply In_values in H. destruct H as [k' H].
      apply In_values. exists k'. now apply In_del with k.
  - rewrite (close_absent e k p d Hg). now left.
Qed.

(** A property of single trades that closing keeps and that every
    accepted candidate's new trade has, holds of all trades. *)
Section Pointwise.
Variable T : BacktestEngine -> Trade -> Prop.
Hypothesis T_open_old :
  forall e c d t, T e t -> T (_open_position e c d) t.
Hypothesis T_close_old :
  forall e k p d t, T e t -> T (_close_position e k p d) t.
Hypothesis T_closed :
  forall e k p d t, T e t -> T (_close_position e k p d) (closed_trade t p d).

Lemma every_trade_close e k p d :
  every_trade T e -> every_trade T (_close_position e k p d).
Proof.
  intros He t' Hin. apply all_trades_close in Hin.
  destruct Hin as [Hin|(t & Hg & ->)].
  - apply T_close_old. now apply He.
  - apply T_closed. apply He. unfold all_trades. apply in_or_app. right.
    apply In_values. exists k. now apply get_In.
Qed.

Lemma every_trade_open e c d :
  (accepts e c = true -> T (_open_position e c d) (new_trade e c d)) ->
  every_trade T e -> every_trade T (_open_position e c d).
Proof.
  intros Hnew He t' Hin. apply all_trades_open in Hin.
  destruct Hin as [Hin|[Ha ->]].
  - apply T_open_old. now apply He.
  - now apply Hnew.
Qed.
End Pointwise.

Lemma wf_fresh lb inv fr data : wf (fresh lb inv fr data).
Proof.
  unfold wf, fresh, all_trades. simpl.
  repeat split; try constructor; intros; contradiction.
Qed.

Lemma wf_open e c d : wf e -> wf (_open_position e c d).
Proof.
  intros (Hk & Ho & Hc & Hlt & Hnd).
  destruct (accepts e c) eqn:Ha; [|now rewrite (open_rejected e c d Ha)].
  destruct (open_accepted e c d Ha) as (Eo & Ec & En).
  assert (Hm : Dict.mem (c_ticker c) (open_positions e) = false).
  { unfold accepts in Ha. apply andb_true_iff in Ha.
    now rewrite negb_true_iff in Ha. }
  unfold wf, all_trades. rewrite Eo, Ec, En.
  split; [|split; [|split; [|split]]].
  - unfold Dict.keys. rewrite map_app. simpl.
    apply NoDup_app; repeat split; auto.
    + constructor; [simpl; tauto | constructor].
    + intros x Hx [<-|[]]. now apply mem_false_iff in Hm.
  - intros k0 t0 H. apply in_app_or in H. destruct H as [H|[H|[]]].
    + now apply Ho.
    + inversion H; subst. unfold is_open. simpl. tauto.
  - exact Hc.
  - intros t. unfold Dict.values. rewrite map_app, app_assoc, in_app_iff.
    simpl. intros [H|[<-|[]]]; [|simpl; lia].
    apply Nat.lt_lt_succ_r. now apply Hlt.
  - unfold Dict.values. rewrite !map_app. simpl. rewrite app_assoc.
    rewrite <- map_app.
    apply NoDup_app; repeat split; auto.
    + constructor; [simpl; tauto | constructor].
    + intros x Hx [<-|[]]. apply in_map_iff in Hx.
      destruct Hx as (t & Heq & Hin). apply Hlt in Hin. simpl in Heq. lia.
Qed.

Lemma wf_close e k p d : wf e -> wf (_close_position e k p d).
Proof.
  intros (Hk & Ho & Hc & Hlt & Hnd).
  destruct (Dict.get k (open_positions e)) as [t|] eqn:Hg;
    [|now rewrite (close_absent e k p d Hg)].
  destruct (close_present e k p d t Hg) as (Eo & Ec & En).
  destruct (get_split k t _ Hg) as (d1 & d2 & Hsplit & Hdel).
  unfold wf, all_trades. rewrite Eo, Ec, En.
  split; [|split; [|split; [|split]]].
  - now apply NoDup_keys_del.
  - intros k0 t0 H. apply In_del in H. now apply Ho.
  - intros t0 H. apply in_app_or in H. destruct H as [H|[<-|[]]];
      [now apply Hc|].
    unfold is_closed. simpl. repeat split; discriminate.
  - intros t'. rewrite <- app_assoc, !in_app_iff. simpl.
    intros [H|[[<-|[]]|H]].
    + apply Hlt. unfold all_trades. apply in_or_app. now left.
    + simpl. apply Hlt. unfold all_trades. apply in_or_app. right.
      apply In_values. exists k. now apply get_In.
    + apply Hlt. unfold all_trades. apply in_or_app. right.
      apply In_values in H. destruct H as [k' H].
      apply In_values. exists k'. now apply In_del with k.
  - revert Hnd. unfold all_trades. rewrite Hdel, Hsplit.
    unfold Dict.values. rewrite !map_app. simpl.
    apply Permutation_NoDup.
    rewrite <- !app_assoc. apply Permutation_app_head. simpl.
    symmetry. apply Permutation_middle.
Qed.

Lemma wf_calls lb inv fr data cs : wf (calls (fresh lb inv fr data) cs).
Proof.
  apply keeps_calls with (Good := fun _ => True); auto using wf_fresh.
  - intros. now apply wf_open.
  - intros. now apply wf_close.
Qed.

End EngineFacts.

(** ** The position lifecycle *)

Module Lifecycle.
Import Engine DictFacts EngineFacts.

Lemma entry_below_target_calls lb inv fr data cs t :
  In t (all_trades (calls (fresh lb inv fr data) cs)) ->
  (entry_price t < target_price t)%Q.
Proof.
  revert t.
  change (every_trade (fun _ t => (entry_price t < target_price t)%Q)
            (calls (fresh lb inv fr data) cs)).
  apply keeps_calls with (Good := fun _ => True); auto.
  - intros e c d _. apply every_trade_open; auto.
    intros Ha. simpl. now apply accepts_target with e.
  - intros e k p d. apply every_trade_close; auto.
  - intros t [].
Qed.

Lemma shares_calls lb inv fr data cs :
  let e := calls (fresh lb inv fr data) cs in
  investment_per_trade e = inv
  /\ forall t, In t (all_trades e) -> (shares t == inv / entry_price t)%Q.
Proof.
  set (P := fun e => investment_per_trade e = inv
                     /\ every_trade
                          (fun _ t => (shares t == inv / entry_price t)%Q) e).
  change (P (calls (fresh lb inv fr data) cs)).
  apply keeps_calls with (Good := fun _ => True); auto.
  - intros e c d _ [Hi He]. split.
    + now rewrite (proj1 (open_config e c d)).
    + apply every_trade_open; auto. intros _. simpl. now rewrite Hi.
  - intros e k p d [Hi He]. split.
    + now rewrite (proj1 (close_config e k p d)).
    + apply every_trade_close; auto.
  - split; [reflexivity | intros t []].
Qed.

(** Every call only appends to the ledger. *)
Lemma ledger_grows e c : exists l, closed_trades (call e c) = closed_trades e ++ l.
Proof.
  set (P := fun e' => exists l, closed_trades e' = closed_trades e ++ l).
  change (P (call e c)).
  apply keeps_call with (Good := fun _ => True); auto.
  - intros e' c' d _ [l Hl]. unfold P. exists l.
    destruct (accepts e' c') eqn:Ha.
    + destruct (open_accepted e' c' d Ha) as (_ & -> & _). exact Hl.
    + now rewrite (open_rejected e' c' d Ha).
  - intros e' k p d [l Hl]. unfold P.
    destruct (Dict.get k (open_positions e')) as [t|] eqn:Hg.
    + destruct (close_present e' k p d t Hg) as (_ & -> & _).
      exists (l ++ [closed_trade t p d]). now rewrite Hl, app_assoc.
    + rewrite (close_absent e' k p d Hg). now exists l.
  - exists []. now rewrite app_nil_r.
Qed.

Lemma close_twice e k p d p' d' :
  NoDup (Dict.keys (open_positions e)) ->
  _close_position (_close_position e k p d) k p' d' = _close_position e k p d.
Proof.
  intros Hnd. destruct (Dict.get k (open_positions e)) as [t|] eqn:Hg.
  - apply close_absent.
    destruct (close_present e k p d t Hg) as (-> & _).
    pose proof (del_not_mem k _ Hnd) as Hm. unfold Dict.mem in Hm.
    now destruct (Dict.get k (Dict.del k (open_positions e))).
  - rewrite (close_absent e k p d Hg). now apply close_absent.
Qed.

(** (a - b).days against the day of a and a midnight b. *)
Lemma delta_days_strptime (t : instant) (day : Z) :
  delta_days t (strptime day) = strftime t - day.
Proof.
  unfold delta_days, strptime, strftime.
  replace (t - day * us_per_day) with (t + (- day) * us_per_day) by ring.
  rewrite Z.div_add by (unfold us_per_day; lia). ring.
Qed.

(** C1: over every sequence of open / update / close calls on a new
    engine, the keys of the open-position map are pairwise distinct, so
    a ticker has at most one open trade; and [_open_position] leaves the
    engine as it is when the candidate's ticker already has one. *)
Theorem single_position_per_ticker :
  (forall lb inv fr data cs,
      NoDup (Dict.keys (open_positions (calls (fresh lb inv fr data) cs))))
  /\ (forall lb inv fr data cs k t1 t2,
         In (k, t1) (open_positions (calls (fresh lb inv fr data) cs)) ->
         In (k, t2) (open_positions (calls (fresh lb inv fr data) cs)) ->
         t1 = t2)
  /\ (forall e c d,
         Dict.mem (c_ticker c) (open_positions e) = true ->
         _open_position e c d = e).
Proof.
  split; [|split].
  - intros. apply (wf_calls lb inv fr data cs).
  - intros lb inv fr data cs k t1 t2 H1 H2.
    pose proof (proj1 (wf_calls lb inv fr data cs)) as Hnd.
    apply (In_get _ _ _ Hnd) in H1. apply (In_get _ _ _ Hnd) in H2.
    congruence.
  - intros e c d Hm. apply open_rejected. unfold accepts. now rewrite Hm.
Qed.

(** C2: a candidate whose target price is at most its entry price is
    skipped, the engine is returned unchanged; an open position that
    [_open_position] adds has target above entry; and over every sequence
    of calls on a new engine every trade held, open or closed, has
    [entry_price < target_price]. *)
Theorem target_guard :
  (forall e c d,
      (c_target_price c <= c_entry_price c)%Q -> _open_position e c d = e)
  /\ (forall e c d k t,
         In (k, t) (open_positions (_open_position e c d)) ->
         In (k, t) (open_positions e)
         \/ (entry_price t < target_price t)%Q)
  /\ (forall lb inv fr data cs t,
         In t (all_trades (calls (fresh lb inv fr data) cs)) ->
         (entry_price t < target_price t)%Q).
Proof.
  split; [|split].
  - intros e c d Hle. apply open_rejected. unfold accepts.
    apply Qle_bool_iff in Hle. rewrite Hle. apply andb_false_r.
  - intros e c d k t Hin. destruct (accepts e c) eqn:Ha.
    + destruct (open_accepted e c d Ha) as (Ho & _). rewrite Ho in Hin.
      apply in_app_or in Hin. destruct Hin as [Hin|[Heq|[]]]; [now left|].
      right. inversion Heq; subst. simpl. now apply accepts_target with e.
    + rewrite (open_rejected e c d Ha) in Hin. now left.
  - apply entry_below_target_calls.
Qed.

(** C3: closing a ticker that has no open trade returns the engine
    unchanged; on every state reached by calls on a new engine, a second
    close of the same ticker changes nothing; there, each trade object
    occurs at most once in the ledger, ledger trades are closed, and the
    trades in the open-position map are open and not in the ledger; and
    every call leaves the ledger it found as a prefix of the new one. *)
Theorem close_at_most_once :
  (forall e k p d,
      Dict.mem k (open_positions e) = false -> _close_position e k p d = e)
  /\ (forall lb inv fr data cs k p d p' d',
         let e := calls (fresh lb inv fr data) cs in
         _close_position (_close_position e k p d) k p' d'
         = _close_position e k p d)
  /\ (forall lb inv fr data cs,
         let e := calls (fresh lb inv fr data) cs in
         NoDup (map oid (closed_trades e))
         /\ (forall t, In t (closed_trades e) -> is_closed t)
         /\ (forall k t, In (k, t) (open_positions e) ->
                         is_open t /\ ~ In (oid t) (map oid (closed_trades e))))
  /\ (forall e c, exists l, closed_trades (call e c) = closed_trades e ++ l).
Proof.
  split; [|split; [|split]].
  - intros e k p d Hm. apply close_absent. unfold Dict.mem in Hm.
    now destruct (Dict.get k (open_positions e)).
  - intros. apply close_twice. apply (wf_calls lb inv fr data cs).
  - intros lb inv fr data cs e.
    destruct (wf_calls lb inv fr data cs) as (_ & Ho & Hc & _ & Hnd).
    fold e in Ho, Hc, Hnd. unfold all_trades in Hnd.
    rewrite map_app in Hnd. split; [|split].
    + now apply NoDup_app_remove_r in Hnd.
    + exact Hc.
    + intros k t Hin. split; [now apply (Ho k t)|].
      intros Hcl. apply (NoDup_app_disjoint _ _ Hnd (oid t) Hcl). apply in_map. apply In_values. now exists k.
  - apply ledger_grows.
Qed.

(** C4: on every state reached by calls on a new engine with an
    investment per trade that is not 0 (the log line of the close divides
    by it before the trade is moved), closing a ticker that has an open
    trade appends that trade to the ledger with [holding_days] the
    difference of the calendar days of exit and entry and [pnl] equal to
    [shares * (exit_price - entry_price)], where [shares] is
    [investment_per_trade / entry_price]; with 50 invested at 25 there
    are 2 shares, and an exit at 30 gives a pnl of 10. *)
Theorem close_holding_days_and_pnl lb inv fr data cs k t price date :
  ~ (inv == 0)%Q ->
  Dict.get k (open_positions (calls (fresh lb inv fr data) cs)) = Some t ->
  exists t',
    closed_trades
      (_close_position (calls (fresh lb inv fr data) cs) k price date)
    = closed_trades (calls (fresh lb inv fr data) cs) ++ [t']
    /\ (oid t' = oid t /\ entry_date t' = entry_date t
        /\ entry_price t' = entry_price t /\ shares t' = shares t)
    /\ exit_date t' = Some (strftime date)
    /\ exit_price t' = Some price
    /\ holding_days t' = Some (strftime date - entry_date t')
    /\ (shares t' == inv / entry_price t')%Q
    /\ (exists x, pnl t' = Some x
                  /\ (x == shares t' * (price - entry_price t'))%Q
                  /\ ((inv == 50)%Q -> (entry_price t' == 25)%Q ->
                      (price == 30)%Q -> (x == 10)%Q))
    /\ ((inv == 50)%Q -> (entry_price t' == 25)%Q -> (shares t' == 2)%Q).
Proof.
  intros _ Hg. exists (closed_trade t price date).
  destruct (close_present _ k price date t Hg) as (_ & Hc & _).
  assert (Hs : (shares t == inv / entry_price t)%Q).
  { apply (proj2 (shares_calls lb inv fr data cs)).
    unfold all_trades. apply in_or_app. right.
    apply In_values. exists k. now apply get_In. }
  split; [exact Hc|]. split; [now repeat split|].
  split; [reflexivity|]. split; [reflexivity|].
  split; [simpl; now rewrite delta_days_strptime|].
  split; [exact Hs|]. split.
  - exists (shares t * (price - entry_price t))%Q. simpl.
    split; [reflexivity|]. split; [reflexivity|].
    intros Hi He Hp. rewrite Hs, Hi, He, Hp. reflexivity.
  - simpl. intros Hi He. rewrite Hs, Hi, He. reflexivity.
Qed.

(** The scenario of C4: 50 invested at 25 on day 3, closed at 30 on
    day 10. *)
Lemma close_holding_days_and_pnl_witness :
  exists t',
    closed_trades
      (_close_position
         (calls (fresh 5 50 7 []) [CallOpen Scenarios.at_25 (Scenarios.noon 3)])
         "T" 30 (Scenarios.noon 10))
    = [t']
    /\ holding_days t' = Some 7
    /\ (shares t' == 2)%Q
    /\ exists x, pnl t' = Some x /\ (x == 10)%Q.
Proof.
  assert (Hinv : ~ (50 == 0)%Q) by (unfold Qeq; simpl; lia).
  destruct (close_holding_days_and_pnl 5 50 7 []
              [CallOpen Scenarios.at_25 (Scenarios.noon 3)] "T"
              (new_trade (fresh 5 50 7 []) Scenarios.at_25 (Scenarios.noon 3))
              30 (Scenarios.noon 10) Hinv eq_refl)
    as (t' & Hc & (_ & Hd & Hp & _) & _ & _ & Hh & _ & (x & Hx & _ & Hten) & Htwo).
  exists t'. split; [exact Hc|]. split.
  - rewrite Hh, Hd. reflexivity.
  - split.
    + apply Htwo; [reflexivity | rewrite Hp; reflexivity].
    + exists x. split; [exact Hx|].
      apply Hten; [reflexivity | rewrite Hp; reflexivity | reflexivity].
Defined.

End Lifecycle.

(** ** The price lookup *)

Module MarketDataFacts.
Import MarketData.

Lemma loc_close_Some hist label p :
  loc_close hist label = Some p -> In (label, p) hist.
Proof.
  unfold loc_close.
  destruct (find (fun row => fst row =? label) hist) as [[t q]|] eqn:Hf;
    [|discriminate].
  intros [= <-]. apply find_some in Hf. destruct Hf as [Hin Heq].
  simpl in Heq. apply Z.eqb_eq in Heq. now subst.
Qed.

Lemma loc_close_None hist label :
  loc_close hist label = None -> ~ In label (index hist).
Proof.
  unfold loc_close, index.
  destruct (find (fun row => fst row =? label) hist) as [row|] eqn:Hf;
    [discriminate|].
  intros _ Hin. apply in_map_iff in Hin. destruct Hin as (row & Heq & Hin).
  pose proof (find_none _ _ Hf row Hin) as Hn. simpl in Hn.
  apply Z.eqb_neq in Hn. now apply Hn.
Qed.

Lemma loc_close_index hist label :
  In label (index hist) -> exists p, loc_close hist label = Some p.
Proof.
  intros Hin. destruct (loc_close hist label) as [p|] eqn:Hl.
  - now exists p.
  - now apply loc_close_None in Hl.
Qed.

(** In an increasing list the last element that passes a filter is the
    greatest one that does. *)
Lemma last_filter_max (f : Z -> bool) (l : list Z) (d : Z) :
  StronglySorted Z.lt l ->
  forall x, In x (filter f l) -> x <= last (filter f l) d.
Proof.
  induction l as [|a l IH]; simpl; [tauto|].
  intros Hs x Hx. apply StronglySorted_inv in Hs. destruct Hs as [Hs Ha].
  assert (Hlast : filter f l <> [] ->
                  a < last (filter f l) d /\ In (last (filter f l) d) (filter f l)).
  { intros Hne. destruct (exists_last Hne) as (l' & y & Hy).
    rewrite Hy, last_last. split.
    - rewrite Forall_forall in Ha. apply Ha.
      assert (Hin : In y (filter f l)) by (rewrite Hy; apply in_or_app; right; now left).
      now apply filter_In in Hin.
    - apply in_or_app. right. now left. }
  destruct (f a).
  - destruct (filter f l) as [|b l'] eqn:Hfl.
    + destruct Hx as [<-|[]]. simpl. lia.
    + change (last (a :: b :: l') d) with (last (b :: l') d).
      destruct Hx as [<-|Hx].
      * assert (b :: l' <> []) by discriminate. apply Hlast in H. lia.
      * now apply IH.
  - now apply IH.
Qed.

Lemma last_In (l : list Z) (d : Z) : l <> [] -> In (last l d) l.
Proof.
  intros Hne. destruct (exists_last Hne) as (l' & y & ->).
  rewrite last_last. apply in_or_app. right. now left.
Qed.

(** C8: on a series with increasing dates, the lookup returns the close
    of the latest row dated at or before the query, and returns nothing
    exactly when every row is dated after the query. *)
Theorem get_price_on_date_latest_prior (hist : PriceSeries) (date : instant) :
  StronglySorted Z.lt (index hist) ->
  match get_price_on_date hist date with
  | Some p =>
      exists t, In (t, p) hist /\ t <= date
                /\ forall t', In t' (index hist) -> t' <= date -> t' <= t
  | None => forall t', In t' (index hist) -> date < t'
  end.
Proof.
  intros Hs. unfold get_price_on_date.
  destruct (loc_close hist date) as [p|] eqn:Hl.
  - exists date. split; [now apply loc_close_Some|]. split; [lia | auto].
  - set (prior := filter (fun t => t <=? date) (index hist)).
    destruct prior as [|a prior'] eqn:Hp.
    + simpl. intros t' Hin.
      destruct (Z.leb_spec t' date) as [Hle|Hgt]; [|exact Hgt].
      assert (Hin' : In t' prior).
      { apply filter_In. split; [exact Hin | now apply Z.leb_le]. }
      rewrite Hp in Hin'. contradiction.
    + rewrite <- Hp.
      replace (0 <? length prior)%nat with true by (rewrite Hp; reflexivity).
      assert (Hne : prior <> []) by (rewrite Hp; discriminate).
      pose proof (last_In prior 0 Hne) as Hlast.
      apply filter_In in Hlast. destruct Hlast as [Hidx Hle].
      apply Z.leb_le in Hle.
      destruct (loc_close_index hist _ Hidx) as [p Hp'].
      rewrite Hp'. exists (last prior 0).
      split; [now apply loc_close_Some|]. split; [exact Hle|].
      intros t' Hin Ht'. apply last_filter_max; [exact Hs|].
      apply filter_In. split; [exact Hin | now apply Z.leb_le].
Qed.

(** On days 1, 2 and 5, a query on day 3 at noon gets the close of
    day 2. *)
Lemma get_price_on_date_latest_prior_witness :
  exists t, In (t, 11%Q) Scenarios.gap /\ t <= Scenarios.noon 3
            /\ forall t', In t' (index Scenarios.gap) ->
                          t' <= Scenarios.noon 3 -> t' <= t.
Proof.
  apply (get_price_on_date_latest_prior Scenarios.gap (Scenarios.noon 3)).
  repeat constructor.
Defined.

End MarketDataFacts.

(** ** The rolling-window evaluator on the dip scenario *)

Module EvaluatorFacts.
Import MarketData PerformanceFilter Engine Scenarios.

(** C5 fails as stated: called as the selector calls it, on the last 10
    of the 11 rows, the evaluator does not return about -10% on a window
    that ends at the close of 90; that close sits at position 4 and ends
    no 5-row window. *)
Lemma selector_misses_the_dip :
  ~ exists perf,
      recent_worst dip (noon 11) = Some perf
      /\ (Qabs (return_pct perf - (-10)) <= 1 # 100)%Q
      /\ (end_price perf == 90)%Q.
Proof.
  intros (perf & Hperf & Hret & _).
  vm_compute in Hperf. injection Hperf as <-.
  vm_compute in Hret. now apply Hret.
Qed.

(** C5, amended: on the whole 11-row series the evaluator returns -10%
    for the window from the close of 100 on day 1 to the close of 90 on
    day 6; called as the selector calls it, on the last 10 rows, it
    returns 0% for the window from day 2 to day 7, both closes 100, and
    the ticker is no candidate. *)
Theorem dip_worst_window :
  (exists perf,
      calculate_worst_5day_performance dip = Some perf
      /\ (return_pct perf == -10)%Q
      /\ start_date perf = 1 /\ (start_price perf == 100)%Q
      /\ end_date perf = 6 /\ (end_price perf == 90)%Q)
  /\ (exists perf,
         recent_worst dip (noon 11) = Some perf
         /\ (return_pct perf == 0)%Q
         /\ start_date perf = 2 /\ (start_price perf == 100)%Q
         /\ end_date perf = 7 /\ (end_price perf == 100)%Q)
  /\ screen_ticker (noon 11) ("T"%string, dip) = [].
Proof.
  split; [|split].
  - eexists. split; [vm_compute; reflexivity|].
    repeat split; vm_compute; reflexivity.
  - eexists. split; [vm_compute; reflexivity|].
    repeat split; vm_compute; reflexivity.
  - vm_compute. reflexivity.
Qed.

Lemma round2_two_decimals x : two_decimals (round2 x).
Proof.
  exists (rint (x * 100)). unfold round2, Qeq, Qdiv, Qmult, Qinv, inject_Z.
  simpl. lia.
Qed.

Lemma loc_close_close hist label p :
  loc_close hist label = Some p -> In p (map snd hist).
Proof.
  intros H. apply MarketDataFacts.loc_close_Some in H.
  change p with (snd (label, p)). now apply in_map.
Qed.

(** The three numbers of a result are roundings, the two prices of
    closes of the series. *)
Lemma evaluator_rounds hist perf :
  calculate_worst_5day_performance hist = Some perf ->
  exists raw_return raw_start raw_end,
    In raw_start (map snd hist) /\ In raw_end (map snd hist)
    /\ return_pct perf = round2 raw_return
    /\ start_price perf = round2 raw_start
    /\ end_price perf = round2 raw_end.
Proof.
  unfold calculate_worst_5day_performance.
  destruct (length hist <? 5)%nat; [discriminate|].
  destruct (dropna _) as [|first rest]; [discriminate|].
  destruct (idxmin first rest) as [worst_idx worst_return].
  destruct (get_loc (index hist) worst_idx) as [pos|]; [|discriminate].
  destruct (pos <? 5)%nat; [discriminate|].
  destruct (nth_error (index hist) (pos - 5)) as [start|]; [|discriminate].
  destruct (loc_close hist start) as [ps|] eqn:Hs; [|discriminate].
  destruct (loc_close hist worst_idx) as [pe|] eqn:He; [|discriminate].
  intros [= <-]. exists worst_return, ps, pe. simpl.
  split; [now apply loc_close_close with start|].
  split; [now apply loc_close_close with worst_idx|].
  now repeat split.
Qed.

Lemma In_tail {A} n (l : list A) x : In x (skipn n l) -> In x l.
Proof.
  intros H. rewrite <- (firstn_skipn n l). apply in_or_app. now right.
Qed.

Lemma recent_worst_rounds hist d perf :
  recent_worst hist d = Some perf ->
  exists raw, In raw (map snd hist) /\ start_price perf = round2 raw.
Proof.
  unfold recent_worst. destruct (length _ <? 10)%nat; [discriminate|].
  intros H. apply evaluator_rounds in H.
  destruct H as (_ & raw & _ & Hin & _ & _ & Hstart & _).
  exists raw. split; [|exact Hstart].
  apply in_map_iff in Hin. destruct Hin as (row & <- & Hin).
  apply in_map. unfold tail in Hin. apply In_tail in Hin.
  unfold up_to_date in Hin. now apply filter_In in Hin.
Qed.

Lemma screen_ticker_target d k hist c :
  In c (screen_ticker d (k, hist)) ->
  c_ticker c = k
  /\ exists raw, In raw (map snd hist) /\ c_target_price c = round2 raw.
Proof.
  unfold screen_ticker.
  destruct (recent_worst hist d) as [perf|] eqn:Hr; [|intros []].
  destruct (Qle_bool 0 (return_pct perf)); [intros []|].
  destruct (get_price_on_date hist d); [|intros []].
  intros [<-|[]]. simpl. split; [reflexivity|].
  now apply recent_worst_rounds with d.
Qed.

Lemma In_insert_by_return c x l :
  In c (insert_by_return x l) -> c = x \/ In c l.
Proof.
  induction l as [|y l IH]; simpl.
  - intros [<-|[]]. now left.
  - destruct (Qltb _ _); simpl.
    + intros [<-|H]; [right; now left|].
      destruct (IH H) as [->|H']; [now left | right; now right].
    + intros [<-|H]; [now left | now right].
Qed.

Lemma In_sort_by_return c l : In c (sort_by_return l) -> In c l.
Proof.
  unfold sort_by_return. induction l as [|x l IH]; simpl; [tauto|].
  intros H. apply In_insert_by_return in H.
  destruct H as [->|H]; [now left | right; now apply IH].
Qed.

Lemma screen_for_date_target e d w :
  _screen_for_date e d = Some w ->
  exists hist raw,
    In (c_ticker w, hist) (all_historical_data e)
    /\ In raw (map snd hist) /\ c_target_price w = round2 raw.
Proof.
  unfold _screen_for_date.
  destruct (sort_by_return _) as [|worst rest] eqn:Hsort; [discriminate|].
  intros [= <-].
  assert (Hin : In worst (sort_by_return
                            (flat_map (screen_ticker d)
                                      (all_historical_data e)))).
  { rewrite Hsort. now left. }
  apply In_sort_by_return in Hin. apply in_flat_map in Hin.
  destruct Hin as ([k hist] & Hdata & Hin).
  apply screen_ticker_target in Hin. destruct Hin as (<- & raw & Hraw & Ht).
  now exists hist, raw.
Qed.

End EvaluatorFacts.

(** ** The driver *)

Module Driver.
Import MarketData PerformanceFilter Engine DictFacts EngineFacts Scenarios.

(** C9: with no candidate ticker, or with no price history fetched,
    [run] returns the empty result, whatever the fuel, so before any
    screening; its counts and sums are zero and its lists empty. *)
Theorem run_without_data_is_empty fuel e candidate_tickers fetched
  now_loop now_close :
  candidate_tickers = [] \/ fetched = [] ->
  run fuel e candidate_tickers fetched now_loop now_close
  = Some _create_empty_result
  /\ trades _create_empty_result = []
  /\ (total_pnl _create_empty_result == 0)%Q
  /\ (total_invested _create_empty_result == 0)%Q
  /\ total_trades _create_empty_result = O
  /\ winning_trades _create_empty_result = O
  /\ losing_trades _create_empty_result = O
  /\ still_open _create_empty_result = O
  /\ (avg_holding_days _create_empty_result == 0)%Q
  /\ holding_days_distribution _create_empty_result = [].
Proof.
  intros H. split; [|now repeat split].
  unfold run. destruct candidate_tickers as [|c cs]; [reflexivity|].
  destruct H as [H| ->]; [discriminate | reflexivity].
Qed.

(** No candidate ticker and no fuel. *)
Lemma run_without_data_is_empty_witness :
  run 0 (init 5 50 7) [] [] (noon 0) (noon 0) = Some _create_empty_result
  /\ total_trades _create_empty_result = O.
Proof.
  destruct (run_without_data_is_empty 0 (init 5 50 7) [] []
              (noon 0) (noon 0) (or_introl eq_refl))
    as (Hrun & _ & _ & _ & Htotal & _).
  split; [exact Hrun | exact Htotal].
Defined.

(** *** The holding-period histogram *)

Lemma histogram_total_set label n (dist : Dict.t nat) :
  histogram_total (Dict.set label n dist)
  = match Dict.get label dist with
    | Some m => (histogram_total dist - m + n)%nat
    | None => (histogram_total dist + n)%nat
    end.
Proof.
  unfold histogram_total.
  induction dist as [|[k m] dist IH]; simpl; [lia|].
  destruct (String.eqb label k); simpl; [lia|].
  rewrite IH. destruct (Dict.get label dist) as [m'|] eqn:Hg; [|lia].
  assert (m' <= fold_right Nat.add 0 (Dict.values dist))%nat; [|lia].
  clear IH. induction dist as [|[k' m''] dist IH]; simpl in *; [discriminate|].
  destruct (String.eqb label k'); [injection Hg as ->; lia|].
  specialize (IH Hg). lia.
Qed.

Lemma histogram_total_increment label dist :
  histogram_total (increment label dist) = S (histogram_total dist).
Proof.
  unfold increment.
  destruct (Dict.get label dist) as [m|] eqn:Hg;
    rewrite histogram_total_set, Hg; [|lia].
  assert (m <= histogram_total dist)%nat; [|lia].
  unfold histogram_total.
  induction dist as [|[k' m'] dist IH]; simpl in *; [discriminate|].
  destruct (String.eqb label k'); [injection Hg as ->; lia|].
  specialize (IH Hg). lia.
Qed.

(** A day count from 0 on falls in a range; a negative one in none. *)
Lemma first_range_nonneg days :
  0 <= days -> exists label, first_range days ranges = Some label.
Proof.
  intros H. unfold ranges, first_range, in_range.
  repeat match goal with
         | |- context [(?a <=? days) && (days <? ?b)] =>
             destruct (Z.leb_spec a days); destruct (Z.ltb_spec days b);
             simpl; try lia; try (eexists; reflexivity)
         end.
  destruct (Z.leb_spec 365 days); simpl; [eexists; reflexivity | lia].
Qed.

(** On day counts from 0 on, the histogram counts every entry once. *)
Lemma histogram_counts_all (l : list Z) :
  Forall (fun days => 0 <= days) l ->
  histogram_total (_create_holding_distribution l) = length l.
Proof.
  intros Hl. unfold _create_holding_distribution.
  assert (H : forall dist,
             histogram_total (fold_left count_day l dist)
             = (histogram_total dist + length l)%nat).
  { induction Hl as [|days l Hd Hl IH]; intros dist; simpl; [lia|].
    rewrite IH. unfold count_day.
    destruct (first_range_nonneg days Hd) as [label ->].
    rewrite histogram_total_increment. lia. }
  destruct l as [|days l]; [reflexivity|]. now rewrite H.
Qed.

(** C7 fails on the code: with a lookback of one year and a screening
    every 5 days, the last screening falls on the day of the run; the
    trade it opens is closed the same day with [holding_days = 0], which
    [_generate_results] filters out as falsy, so the histogram is empty
    although one closed trade has a [holding_days] value. *)
Theorem zero_day_trade_not_counted :
  exists r t,
    run 74 (init 1 50 5) ["T"%string] [("T"%string, late_fall)]
        (noon 365) (noon 365 + 1) = Some r
    /\ trades r = [t]
    /\ exit_date t = Some 365 /\ holding_days t = Some 0
    /\ length (with_holding_days (trades r)) = 1%nat
    /\ holding_days_distribution r = []
    /\ histogram_total (holding_days_distribution r) = O.
Proof.
  eexists. eexists. split; [vm_compute; reflexivity|].
  repeat split.
Qed.

(** *** Termination of the screening loop *)

Lemma screening_frequency e d :
  screening_frequency_days (screening e d) = screening_frequency_days e.
Proof.
  set (P := fun e' => screening_frequency_days e'
                      = screening_frequency_days e).
  change (P (screening e d)).
  apply keeps_screening with (Good := fun _ => True); unfold P; auto.
  - intros e' c d' _ He'.
    now rewrite (proj1 (proj2 (proj2 (open_config e' c d')))).
  - intros e' k p d' He'.
    now rewrite (proj1 (proj2 (proj2 (close_config e' k p d')))).
Qed.

(** With a positive frequency the loop ends: fuel beyond the number of
    screening dates gives a result. *)
Lemma screening_loop_returns fuel :
  forall e current_date end_date,
    0 < screening_frequency_days e ->
    end_date - current_date
    < Z.of_nat fuel * timedelta_days (screening_frequency_days e) ->
    exists e', screening_loop fuel e current_date end_date = Some e'.
Proof.
  induction fuel as [|fuel IH]; intros e cur stop Hpos Hfuel.
  - simpl in *. destruct (Z.leb_spec cur stop); [lia | now exists e].
  - cbn [screening_loop]. destruct (Z.leb_spec cur stop); [|now exists e].
    apply IH; rewrite screening_frequency; [exact Hpos|].
    unfold timedelta_days in *. lia.
Qed.

(** *** The order of exits and entries in a screening *)






(** *** Rounded targets *)

Lemma rounded_targets_screenings lb inv fr data dates t :
  In t (all_trades (screenings (fresh lb inv fr data) dates)) ->
  rounded_target data t.
Proof.
  set (Good := fun c : Candidate =>
                 exists hist raw,
                   In (c_ticker c, hist) data
                   /\ In raw (map snd hist) /\ c_target_price c = round2 raw).
  set (P := fun e => all_historical_data e = data
                     /\ every_trade (fun _ => rounded_target data) e).
  assert (HP : P (screenings (fresh lb inv fr data) dates)).
  { apply keeps_screenings with (Good := Good).
    - intros e c d Hc [Hd He]. split.
      + now rewrite (proj1 (proj2 (open_config e c d))).
      + apply every_trade_open; auto.
    - intros e k p d [Hd He]. split.
      + now rewrite (proj1 (proj2 (close_config e k p d))).
      + apply every_trade_close; auto.
    - intros e d c [Hd _] Hs. unfold Good. rewrite <- Hd.
      now apply EvaluatorFacts.screen_for_date_target with d.
    - split; [reflexivity | intros x []]. }
  intros Hin. now apply (proj2 HP).
Qed.

End Driver.

(** ** Which positions a batch of closes moves *)

Module PositionFacts.
Import MarketData Engine DictFacts EngineFacts Positions Scenarios.

Lemma filter_all {A} (f : A -> bool) (l : list A) :
  (forall x, In x l -> f x = true) -> filter f l = l.
Proof.
  induction l as [|a l IH]; simpl; intros H; [reflexivity|].
  rewrite (H a (or_introl eq_refl)). f_equal. apply IH. auto.
Qed.

Lemma filter_filter {A} (f g : A -> bool) (l : list A) :
  filter f (filter g l) = filter (fun x => g x && f x) l.
Proof.
  induction l as [|a l IH]; simpl; [reflexivity|].
  destruct (g a); simpl; [|exact IH]. destruct (f a); now rewrite IH.
Qed.

Lemma del_as_filter {V} k (d : Dict.t V) :
  NoDup (Dict.keys d) ->
  Dict.del k d = filter (fun kv => negb (String.eqb k (fst kv))) d.
Proof.
  induction d as [|[k0 v0] d IH]; simpl; intros Hnd; [reflexivity|].
  inversion Hnd as [|? ? Hnotin Hnd']; subst.
  destruct (String.eqb_spec k k0) as [->|Hne]; simpl.
  - symmetry. apply filter_all. intros [k1 v1] Hin. simpl.
    destruct (String.eqb_spec k0 k1) as [->|]; [|reflexivity].
    exfalso. apply Hnotin. change k1 with (fst (k1, v1)). now apply in_map.
  - f_equal. now apply IH.
Qed.

Lemma NoDup_keys_close e k p d :
  NoDup (Dict.keys (open_positions e)) ->
  NoDup (Dict.keys (open_positions (_close_position e k p d))).
Proof.
  intros Hnd. destruct (Dict.get k (open_positions e)) as [t|] eqn:Hg.
  - destruct (close_present e k p d t Hg) as (-> & _).
    now apply NoDup_keys_del.
  - now rewrite (close_absent e k p d Hg).
Qed.

Lemma close_open_positions e k p d :
  NoDup (Dict.keys (open_positions e)) ->
  open_positions (_close_position e k p d)
  = filter (fun kv => negb (String.eqb k (fst kv))) (open_positions e).
Proof.
  intros Hnd. destruct (Dict.get k (open_positions e)) as [t|] eqn:Hg.
  - destruct (close_present e k p d t Hg) as (-> & _).
    now apply del_as_filter.
  - rewrite (close_absent e k p d Hg). symmetry. apply filter_all.
    intros [k1 v1] Hin. simpl.
    destruct (String.eqb_spec k k1) as [<-|]; [|reflexivity].
    apply get_None_mem in Hg. apply mem_false_iff in Hg. exfalso. apply Hg.
    change k with (fst (k, v1)). now apply in_map.
Qed.

(** After a batch of closes the open positions are those whose ticker the
    batch does not name. *)
Lemma close_all_open_positions l :
  forall e,
    NoDup (Dict.keys (open_positions e)) ->
    open_positions (close_all e l)
    = filter (fun kv =>
                negb (existsb (fun x => String.eqb (fst (fst x)) (fst kv)) l))
             (open_positions e).
Proof.
  unfold close_all.
  induction l as [|[[k p] d] l IH]; intros e Hnd; simpl.
  - symmetry. now apply filter_all.
  - rewrite IH by now apply NoDup_keys_close.
    rewrite close_open_positions by exact Hnd. rewrite filter_filter.
    apply filter_ext. intros [k1 v1]. simpl. now rewrite negb_orb.
Qed.

(** Batches built position by position, with at most one close per
    position and under its own ticker. *)
Section Batch.
Variable g : string * Trade -> list (string * Q * instant).
Hypothesis g_shape :
  forall k t, g (k, t) = [] \/ exists p d, g (k, t) = [(k, p, d)].

Definition moved (entry : string * Trade) : list Trade :=
  map (fun x => closed_trade (snd entry) (snd (fst x)) (snd x)) (g entry).

Definition kept (entry : string * Trade) : bool :=
  match g entry with [] => true | _ :: _ => false end.

Lemma batch_ledger os :
  forall e,
    NoDup (Dict.keys (open_positions e)) ->
    NoDup (map fst os) ->
    (forall k t, In (k, t) os -> In (k, t) (open_positions e)) ->
    closed_trades (close_all e (flat_map g os))
    = closed_trades e ++ flat_map moved os.
Proof.
  unfold close_all.
  induction os as [|[k t] os IH]; intros e Hnd Hos Hin; simpl.
  - now rewrite app_nil_r.
  - inversion Hos as [|? ? Hnotin Hos']; subst.
    rewrite fold_left_app. unfold moved at 1. simpl.
    destruct (g_shape k t) as [Hg|(p & d & Hg)]; rewrite Hg; simpl.
    + apply IH; auto. intros k' t' Hin'. apply Hin. now right.
    + assert (Hget : Dict.get k (open_positions e) = Some t).
      { apply In_get; [exact Hnd|]. apply Hin. now left. }
      destruct (close_present e k p d t Hget) as (Eo & Ec & _).
      rewrite IH.
      * rewrite Ec, <- app_assoc. reflexivity.
      * now apply NoDup_keys_close.
      * exact Hos'.
      * intros k' t' Hin'. rewrite Eo. apply In_del_inv.
        -- exact Hnd.
        -- apply Hin. now right.
        -- intros ->. apply Hnotin. change k with (fst (k, t')).
           now apply in_map.
Qed.

Lemma batch_names k t os :
  NoDup (map fst os) -> In (k, t) os ->
  existsb (fun x => String.eqb (fst (fst x)) k) (flat_map g os)
  = negb (kept (k, t)).
Proof.
  intros Hnd Hin. unfold kept.
  destruct (existsb _ (flat_map g os)) eqn:Hex.
  - apply existsb_exists in Hex. destruct Hex as ([[k1 p1] d1] & Hx & Hk).
    simpl in Hk. apply String.eqb_eq in Hk. subst k1.
    apply in_flat_map in Hx. destruct Hx as ([k2 t2] & Hin2 & Hx).
    destruct (g_shape k2 t2) as [Hg|(p & d & Hg)]; rewrite Hg in Hx;
      [contradiction|].
    destruct Hx as [Hx|[]]. inversion Hx; subst.
    assert (t2 = t).
    { assert (H1 : Dict.get k os = Some t2) by now apply In_get.
      assert (H2 : Dict.get k os = Some t) by now apply In_get.
      congruence. }
    subst. now rewrite Hg.
  - destruct (g (k, t)) as [|x rest] eqn:Hg; [reflexivity|].
    exfalso. destruct (g_shape k t) as [Hg'|(p & d & Hg')]; [congruence|].
    assert (Hx : existsb (fun x => String.eqb (fst (fst x)) k)
                   (flat_map g os) = true).
    { apply existsb_exists. exists (k, p, d). split.
      - apply in_flat_map. exists (k, t). split; [exact Hin|].
        rewrite Hg'. now left.
      - simpl. apply String.eqb_refl. }
    congruence.
Qed.

Lemma batch_open_positions e :
  NoDup (Dict.keys (open_positions e)) ->
  open_positions (close_all e (flat_map g (open_positions e)))
  = filter kept (open_positions e).
Proof.
  intros Hnd. rewrite close_all_open_positions by exact Hnd.
  apply filter_ext_in. intros [k t] Hin. simpl.
  rewrite (batch_names k t _ Hnd Hin). apply negb_involutive.
Qed.
End Batch.

Lemma exit_check_shape e d k t :
  exit_check e d (k, t) = []
  \/ exists p d', exit_check e d (k, t) = [(k, p, d')].
Proof.
  unfold exit_check.
  destruct (Dict.get k (all_historical_data e)) as [hist|]; [|now left].
  destruct (get_price_on_date hist d) as [p|]; [|now left].
  destruct (Qle_bool _ _); [right; now exists p, d | now left].
Qed.

Lemma forced_exit_shape e now k t :
  forced_exit e now (k, t) = []
  \/ exists p d', forced_exit e now (k, t) = [(k, p, d')].
Proof.
  unfold forced_exit. simpl.
  destruct (closing_price e now k) as [p|]; [right; now exists p, now | now left].
Qed.

(** What the exit check does with one position, by the closing price of
    its ticker. *)
Lemma exit_check_price e d k t :
  match closing_price e d k with
  | Some p =>
      if Qle_bool (target_price t) p
      then exit_check e d (k, t) = [(k, p, d)]
      else exit_check e d (k, t) = []
  | None => exit_check e d (k, t) = []
  end.
Proof.
  unfold closing_price, exit_check.
  destruct (Dict.get k (all_historical_data e)) as [hist|]; [|reflexivity].
  destruct (get_price_on_date hist d); [|reflexivity].
  now destruct (Qle_bool _ _).
Qed.

Lemma update_open_positions_eq e d :
  NoDup (Dict.keys (open_positions e)) ->
  open_positions (_update_open_positions e d)
  = filter (stays_open e d) (open_positions e).
Proof.
  intros Hnd. unfold _update_open_positions.
  now rewrite (batch_open_positions _ (exit_check_shape e d)).
Qed.

Lemma update_closed_trades_eq e d :
  NoDup (Dict.keys (open_positions e)) ->
  closed_trades (_update_open_positions e d)
  = closed_trades e ++ flat_map (exits_of e d) (open_positions e).
Proof.
  intros Hnd. unfold _update_open_positions.
  rewrite (batch_ledger _ (exit_check_shape e d)); auto.
Qed.

(** The forced close is a batch of closes, one per position that has a
    closing price. *)
Lemma close_remaining_as_batch e now :
  _close_remaining_positions e now
  = close_all e (flat_map (forced_exit e now) (open_positions e)).
Proof.
  unfold _close_remaining_positions, Dict.keys, close_all.
  assert (H : forall os e',
             all_historical_data e' = all_historical_data e ->
             fold_left (close_remaining now) (map fst os) e'
             = fold_left
                 (fun e0 p => let '(ticker, exit_price, exit_date) := p in
                              _close_position e0 ticker exit_price exit_date)
                 (flat_map (forced_exit e now) os) e').
  { induction os as [|[k t] os IH]; intros e' Hd; simpl; [reflexivity|].
    rewrite fold_left_app. unfold close_remaining at 2.
    unfold forced_exit at 2, closing_price. simpl. rewrite Hd.
    destruct (Dict.get k (all_historical_data e)) as [hist|]; simpl.
    - destruct (get_price_on_date hist now) as [p|]; simpl.
      + apply IH. now rewrite (proj1 (proj2 (close_config e' k p now))).
      + now apply IH.
    - now apply IH. }
  now apply H.
Qed.

Lemma screenings_are_calls dates :
  forall e, exists cs, screenings e dates = calls e cs.
Proof.
  unfold screenings, calls.
  induction dates as [|d dates IH]; intros e; simpl.
  - now exists [].
  - destruct (IH (screening e d)) as [cs Hcs]. rewrite Hcs.
    unfold screening.
    destruct (_screen_for_date (_update_open_positions e d) d) as [w|].
    + now exists (CallUpdate d :: CallOpen w d :: cs).
    + now exists (CallUpdate d :: cs).
Qed.

(** X1: on every state reached by calls on a new engine, the exit check
    keeps the positions it does not close in their order, and appends the
    others to the ledger in the order of the open-position map; a position
    is closed exactly when its ticker has a closing price at or above its
    target, and it is closed at that price and on that date. *)
Theorem update_closes_the_recovered_positions lb inv fr data cs d :
  open_positions
    (_update_open_positions (calls (fresh lb inv fr data) cs) d)
  = filter (stays_open (calls (fresh lb inv fr data) cs) d)
      (open_positions (calls (fresh lb inv fr data) cs))
  /\ closed_trades
       (_update_open_positions (calls (fresh lb inv fr data) cs) d)
     = closed_trades (calls (fresh lb inv fr data) cs)
       ++ flat_map (exits_of (calls (fresh lb inv fr data) cs) d)
            (open_positions (calls (fresh lb inv fr data) cs))
  /\ (forall k t p,
         closing_price (calls (fresh lb inv fr data) cs) d k = Some p ->
         (target_price t <= p)%Q ->
         stays_open (calls (fresh lb inv fr data) cs) d (k, t) = false
         /\ exits_of (calls (fresh lb inv fr data) cs) d (k, t)
            = [closed_trade t p d])
  /\ (forall k t,
         closing_price (calls (fresh lb inv fr data) cs) d k = None
         \/ (exists p,
                closing_price (calls (fresh lb inv fr data) cs) d k = Some p
                /\ (p < target_price t)%Q) ->
         stays_open (calls (fresh lb inv fr data) cs) d (k, t) = true
         /\ exits_of (calls (fresh lb inv fr data) cs) d (k, t) = []).
Proof.
  set (e := calls (fresh lb inv fr data) cs).
  assert (Hnd : NoDup (Dict.keys (open_positions e)))
    by apply (wf_calls lb inv fr data cs).
  split; [now apply update_open_positions_eq|].
  split; [now apply update_closed_trades_eq|].
  split.
  - intros k t p Hp Hle. pose proof (exit_check_price e d k t) as H.
    rewrite Hp in H. apply Qle_bool_iff in Hle. rewrite Hle in H.
    unfold stays_open, exits_of. now rewrite H.
  - intros k t H. pose proof (exit_check_price e d k t) as Hx.
    unfold stays_open, exits_of.
    destruct H as [Hn|(p & Hp & Hlt)].
    + rewrite Hn in Hx. now rewrite Hx.
    + rewrite Hp in Hx.
      destruct (Qle_bool (target_price t) p) eqn:Hle.
      * apply Qle_bool_iff in Hle. exfalso. now apply (Qlt_not_le _ _ Hlt).
      * now rewrite Hx.
Qed.

(** X2: on every state reached by calls on a new engine whose investment
    per trade is not 0 (the log line of a close divides by it before the
    trade is moved), the forced close at the end of a run closes each
    position whose ticker has a close at or before [now], at that close,
    and keeps the other positions open and in place; when every open
    ticker has such a close, no position is left open. *)
Theorem forced_close_leaves_only_unpriced lb inv fr data cs now :
  ~ (inv == 0)%Q ->
  open_positions
    (_close_remaining_positions (calls (fresh lb inv fr data) cs) now)
  = filter (fun kt =>
              match closing_price (calls (fresh lb inv fr data) cs) now
                      (fst kt) with
              | None => true
              | Some _ => false
              end)
      (open_positions (calls (fresh lb inv fr data) cs))
  /\ closed_trades
       (_close_remaining_positions (calls (fresh lb inv fr data) cs) now)
     = closed_trades (calls (fresh lb inv fr data) cs)
       ++ flat_map
            (fun kt =>
               match closing_price (calls (fresh lb inv fr data) cs) now
                       (fst kt) with
               | Some p => [closed_trade (snd kt) p now]
               | None => []
               end)
            (open_positions (calls (fresh lb inv fr data) cs))
  /\ ((forall k,
          In k (Dict.keys (open_positions (calls (fresh lb inv fr data) cs))) ->
          closing_price (calls (fresh lb inv fr data) cs) now k <> None) ->
      open_positions
        (_close_remaining_positions (calls (fresh lb inv fr data) cs) now)
      = []).
Proof.
  intros _.
  set (e := calls (fresh lb inv fr data) cs).
  assert (Hnd : NoDup (Dict.keys (open_positions e)))
    by apply (wf_calls lb inv fr data cs).
  assert (Ho : open_positions (_close_remaining_positions e now)
               = filter (fun kt => match closing_price e now (fst kt) with
                                   | None => true
                                   | Some _ => false
                                   end) (open_positions e)).
  { rewrite close_remaining_as_batch.
    rewrite (batch_open_positions _ (forced_exit_shape e now)) by exact Hnd.
    apply filter_ext. intros kt. unfold kept, forced_exit.
    now destruct (closing_price e now (fst kt)). }
  split; [exact Ho|]. split.
  - rewrite close_remaining_as_batch.
    rewrite (batch_ledger _ (forced_exit_shape e now)); auto.
    f_equal. apply flat_map_ext. intros kt. unfold moved, forced_exit.
    now destruct (closing_price e now (fst kt)).
  - intros Hall. rewrite Ho.
    destruct (filter _ (open_positions e)) as [|[k t] rest] eqn:Hf;
      [reflexivity|].
    assert (Hin : In (k, t) (filter
                    (fun kt => match closing_price e now (fst kt) with
                               | None => true
                               | Some _ => false
                               end) (open_positions e)))
      by (rewrite Hf; now left).
    apply filter_In in Hin. destruct Hin as [Hin Hc]. simpl in Hc.
    exfalso. apply (Hall k).
    + change k with (fst (k, t)). now apply in_map.
    + now destruct (closing_price e now k).
Qed.

(** A position at 25 in the dip scenario, with 50 invested: the forced
    close on day 400 finds the close of day 11 and leaves nothing open. *)
Lemma forced_close_leaves_only_unpriced_witness :
  open_positions
    (_close_remaining_positions
       (calls (fresh 5 50 7 [("T"%string, dip)]) [CallOpen at_25 (noon 3)])
       (noon 400))
  = [].
Proof.
  assert (Hinv : ~ (50 == 0)%Q) by (unfold Qeq; simpl; lia).
  apply (proj2 (proj2 (forced_close_leaves_only_unpriced
                         5 50 7 [("T"%string, dip)]
                         [CallOpen at_25 (noon 3)] (noon 400) Hinv))).
  intros k Hk. vm_compute in Hk. destruct Hk as [<-|[]].
  vm_compute. discriminate.
Defined.

Lemma close_keeps_openings e0 e k p d :
  Permutation (map opening (all_trades e)) (map opening (all_trades e0)) ->
  Permutation (map opening (all_trades (_close_position e k p d)))
              (map opening (all_trades e0)).
Proof.
  intros HP. destruct (Dict.get k (open_positions e)) as [t|] eqn:Hg;
    [|now rewrite (close_absent e k p d Hg)].
  destruct (close_present e k p d t Hg) as (Eo & Ec & _).
  destruct (get_split k t _ Hg) as (d1 & d2 & Hsplit & Hdel).
  rewrite <- HP. unfold all_trades. rewrite Eo, Ec, Hdel, Hsplit.
  unfold Dict.values. rewrite !map_app. simpl. rewrite <- !app_assoc.
  apply Permutation_app_head. simpl.
  change (opening (closed_trade t p d)) with (opening t).
  apply Permutation_middle.
Qed.

(** X3: the exit check and the forced close lose no trade, duplicate none
    and change nothing of what a trade was opened with: the trades held
    afterwards are, up to order and to their exit fields, the trades held
    before. *)
Theorem closing_conserves_the_trades e d :
  Permutation (map opening (all_trades (_update_open_positions e d)))
              (map opening (all_trades e))
  /\ Permutation (map opening (all_trades (_close_remaining_positions e d)))
                 (map opening (all_trades e))
  /\ length (all_trades (_update_open_positions e d)) = length (all_trades e)
  /\ length (all_trades (_close_remaining_positions e d))
     = length (all_trades e).
Proof.
  assert (H1 : Permutation
                 (map opening (all_trades (_update_open_positions e d)))
                 (map opening (all_trades e))).
  { apply (keeps_update
             (fun e' => Permutation (map opening (all_trades e'))
                                    (map opening (all_trades e)))).
    - intros. now apply close_keeps_openings.
    - reflexivity. }
  assert (H2 : Permutation
                 (map opening (all_trades (_close_remaining_positions e d)))
                 (map opening (all_trades e))).
  { apply (keeps_close_remaining
             (fun e' => Permutation (map opening (all_trades e'))
                                    (map opening (all_trades e)))).
    - intros. now apply close_keeps_openings.
    - reflexivity. }
  split; [exact H1|]. split; [exact H2|]. split.
  - apply Permutation_length in H1. now rewrite !length_map in H1.
  - apply Permutation_length in H2. now rewrite !length_map in H2.
Qed.

Lemma get_last {V} k (v : V) (d : Dict.t V) :
  Dict.mem k d = false -> Dict.get k (d ++ [(k, v)]) = Some v.
Proof.
  unfold Dict.mem. induction d as [|[k0 v0] d IH]; simpl.
  - now rewrite String.eqb_refl.
  - destruct (String.eqb k k0); [discriminate | exact IH].
Qed.

Lemma del_last {V} k (v : V) (d : Dict.t V) :
  Dict.mem k d = false -> Dict.del k (d ++ [(k, v)]) = d.
Proof.
  unfold Dict.mem. induction d as [|[k0 v0] d IH]; simpl.
  - now rewrite String.eqb_refl.
  - destruct (String.eqb k k0); [discriminate|]. intros H. now rewrite IH.
Qed.

(** X4: with an investment per trade and an entry price that are not 0
    (the open divides by the entry price, the log line of the close by
    the investment), closing the ticker of a candidate that
    [_open_position] has just accepted restores the open-position map and
    appends to the ledger the new trade, closed: held for the difference
    of the two calendar days, with a pnl of
    investment / entry * (exit - entry). *)
Theorem open_then_close_restores_the_map e c d p d' :
  ~ (investment_per_trade e == 0)%Q ->
  ~ (c_entry_price c == 0)%Q ->
  accepts e c = true ->
  open_positions
    (_close_position (_open_position e c d) (c_ticker c) p d')
  = open_positions e
  /\ exists t,
      closed_trades
        (_close_position (_open_position e c d) (c_ticker c) p d')
      = closed_trades e ++ [t]
      /\ oid t = next_oid e /\ ticker t = c_ticker c
      /\ entry_date t = strftime d /\ exit_date t = Some (strftime d')
      /\ holding_days t = Some (strftime d' - strftime d)
      /\ entry_price t = c_entry_price c /\ exit_price t = Some p
      /\ pnl t = Some (investment_per_trade e / c_entry_price c
                       * (p - c_entry_price c))%Q.
Proof.
  intros _ _ Ha. destruct (open_accepted e c d Ha) as (Eo & Ec & _).
  assert (Hm : Dict.mem (c_ticker c) (open_positions e) = false).
  { unfold accepts in Ha. apply andb_true_iff in Ha.
    now rewrite negb_true_iff in Ha. }
  assert (Hg : Dict.get (c_ticker c) (open_positions (_open_position e c d))
               = Some (new_trade e c d)).
  { rewrite Eo. now apply get_last. }
  destruct (close_present _ (c_ticker c) p d' _ Hg) as (Eo' & Ec' & _).
  split.
  - rewrite Eo', Eo. now apply del_last.
  - exists (closed_trade (new_trade e c d) p d').
    split; [now rewrite Ec', Ec|]. simpl.
    rewrite Lifecycle.delta_days_strptime. now repeat split.
Qed.

(** A candidate at 25 on a new engine, closed at 30 a week later. *)
Lemma open_then_close_restores_the_map_witness :
  open_positions
    (_close_position (_open_position (fresh 5 50 7 []) at_25 (noon 3))
       "T" 30 (noon 10))
  = [].
Proof.
  assert (Hinv : ~ (investment_per_trade (fresh 5 50 7 []) == 0)%Q)
    by (unfold Qeq; simpl; lia).
  assert (Hentry : ~ (c_entry_price at_25 == 0)%Q)
    by (unfold Qeq; simpl; lia).
  exact (proj1 (open_then_close_restores_the_map
                  (fresh 5 50 7 []) at_25 (noon 3) 30 (noon 10)
                  Hinv Hentry eq_refl)).
Defined.

End PositionFacts.

(** ** Invariants of a run of screenings *)

Module RunFacts.
Import MarketData PerformanceFilter Engine DictFacts EngineFacts Positions
  PositionFacts Scenarios.

Lemma get_price_on_date_close hist d p :
  get_price_on_date hist d = Some p -> In p (map snd hist).
Proof.
  unfold get_price_on_date.
  destruct (loc_close hist d) as [q|] eqn:Hl.
  - intros [= <-]. now apply EvaluatorFacts.loc_close_close with d.
  - destruct (0 <? length _)%nat; [|discriminate].
    apply EvaluatorFacts.loc_close_close.
Qed.

Lemma screen_for_date_entry e d w :
  _screen_for_date e d = Some w ->
  exists hist,
    In (c_ticker w, hist) (all_historical_data e)
    /\ In (c_entry_price w) (map snd hist).
Proof.
  unfold _screen_for_date.
  destruct (sort_by_return _) as [|worst rest] eqn:Hsort; [discriminate|].
  intros [= <-].
  assert (Hin : In worst (sort_by_return
                            (flat_map (screen_ticker d)
                                      (all_historical_data e)))).
  { rewrite Hsort. now left. }
  apply EvaluatorFacts.In_sort_by_return in Hin. apply in_flat_map in Hin.
  destruct Hin as ([k hist] & Hdata & Hin). exists hist.
  unfold screen_ticker in Hin.
  destruct (recent_worst hist d) as [perf|]; [|contradiction].
  destruct (Qle_bool 0 (return_pct perf)); [contradiction|].
  destruct (get_price_on_date hist d) as [p|] eqn:Hp; [|contradiction].
  destruct Hin as [<-|[]]. simpl. split; [exact Hdata|].
  now apply get_price_on_date_close with d.
Qed.

Lemma update_config e d :
  investment_per_trade (_update_open_positions e d) = investment_per_trade e
  /\ all_historical_data (_update_open_positions e d) = all_historical_data e.
Proof.
  apply (keeps_update
           (fun e' => investment_per_trade e' = investment_per_trade e
                      /\ all_historical_data e' = all_historical_data e)).
  - intros e' k p d' [H1 H2].
    destruct (close_config e' k p d') as (E1 & E2 & _).
    now rewrite E1, E2.
  - now split.
Qed.

Section Run.
Variable inv : Q.
Variable data : Dict.t PriceSeries.
Variable okprice : Q -> Prop.
Hypothesis data_ok :
  forall k hist x, In (k, hist) data -> In x (map snd hist) -> okprice x.

(** What a run of screenings keeps. *)
Definition sized (t : Trade) : Prop :=
  okprice (entry_price t) /\ (shares t == inv / entry_price t)%Q.

Definition run_inv (e : BacktestEngine) : Prop :=
  investment_per_trade e = inv
  /\ all_historical_data e = data
  /\ NoDup (Dict.keys (open_positions e))
  /\ (forall k t, In (k, t) (open_positions e) ->
                  (entry_price t < target_price t)%Q /\ sized t)
  /\ Forall (fun t => recovered t /\ sized t) (closed_trades e).

Lemma run_inv_fresh lb fr : run_inv (fresh lb inv fr data).
Proof.
  unfold run_inv, fresh. simpl.
  repeat split; try constructor; intros; contradiction.
Qed.

Lemma run_inv_update e d : run_inv e -> run_inv (_update_open_positions e d).
Proof.
  intros (Hi & Hd & Hnd & Ho & Hc).
  destruct (update_config e d) as [Ei Ed].
  unfold run_inv. rewrite Ei, Ed.
  rewrite update_open_positions_eq, update_closed_trades_eq by exact Hnd.
  split; [exact Hi|]. split; [exact Hd|]. split.
  - rewrite <- update_open_positions_eq by exact Hnd.
    apply (keeps_update (fun e' => NoDup (Dict.keys (open_positions e')))).
    + intros. now apply NoDup_keys_close.
    + exact Hnd.
  - split.
    + intros k t Hin. apply filter_In in Hin. apply (Ho k t). tauto.
    + apply Forall_app. split; [exact Hc|].
      apply Forall_forall. intros x Hx. apply in_flat_map in Hx.
      destruct Hx as ([k t] & Hin & Hx).
      destruct (Ho k t Hin) as [Hlt Hs].
      unfold exits_of in Hx. pose proof (exit_check_price e d k t) as Hp.
      destruct (closing_price e d k) as [p|];
        [|rewrite Hp in Hx; contradiction].
      destruct (Qle_bool (target_price t) p) eqn:Hle;
        rewrite Hp in Hx; [|contradiction].
      destruct Hx as [<-|[]]. simpl. apply Qle_bool_iff in Hle.
      split; [|exact Hs].
      exists p, (shares t * (p - entry_price t))%Q. simpl.
      split; [reflexivity|]. split; [reflexivity|].
      split; [reflexivity|]. split; [exact Hle|].
      now apply Qlt_le_trans with (target_price t).
Qed.

Lemma run_inv_open e d w :
  run_inv e -> _screen_for_date e d = Some w -> run_inv (_open_position e w d).
Proof.
  intros (Hi & Hd & Hnd & Ho & Hc) Hs.
  destruct (open_config e w d) as (Ei & Ed & _).
  destruct (accepts e w) eqn:Ha;
    [|rewrite (open_rejected e w d Ha); unfold run_inv; auto].
  destruct (open_accepted e w d Ha) as (Eo & Ec & _).
  unfold run_inv. rewrite Ei, Ed, Ec.
  split; [exact Hi|]. split; [exact Hd|]. split.
  - unfold _open_position. unfold accepts in Ha.
    destruct (Dict.mem _ _); [discriminate|].
    destruct (Qle_bool _ _); [discriminate|]. simpl.
    now apply NoDup_keys_set.
  - split; [|exact Hc]. rewrite Eo. intros k t Hin.
    apply in_app_or in Hin. destruct Hin as [Hin|[Hin|[]]];
      [now apply (Ho k t)|].
    injection Hin as <- <-. simpl.
    split; [now apply accepts_target with e|].
    unfold sized. simpl. split; [|rewrite Hi; reflexivity].
    destruct (screen_for_date_entry e d w Hs) as (hist & Hin' & Hx).
    rewrite Hd in Hin'. now apply data_ok with (c_ticker w) hist.
Qed.

Lemma run_inv_screenings dates :
  forall e, run_inv e -> run_inv (screenings e dates).
Proof.
  unfold screenings. induction dates as [|d dates IH]; intros e He; simpl.
  - exact He.
  - apply IH. unfold screening.
    pose proof (run_inv_update e d He) as Hu.
    destruct (_screen_for_date _ d) as [w|] eqn:Hs; [|exact Hu].
    now apply run_inv_open.
Qed.
End Run.

(** X5: in a run of screenings on a new engine, every trade in the ledger
    was closed at a price at or above its target, hence above its entry
    price: before the forced close the ledger holds recovery exits only. *)
Theorem recovery_exits_reach_the_target lb inv fr data dates :
  Forall (fun t =>
            exists p, exit_price t = Some p
                      /\ (target_price t <= p)%Q /\ (entry_price t < p)%Q)
         (closed_trades (screenings (fresh lb inv fr data) dates)).
Proof.
  destruct (run_inv_screenings inv data (fun _ => True) (fun _ _ _ _ _ => I)
              dates _ (run_inv_fresh inv data (fun _ => True) lb fr))
    as (_ & _ & _ & _ & Hc).
  apply Forall_forall. intros t Hin. rewrite Forall_forall in Hc.
  destruct (Hc t Hin) as [(p & x & Hp & _ & _ & Hle & Hlt) _].
  now exists p.
Qed.

Lemma positive_closes_In data k hist x :
  positive_closes data -> In (k, hist) data -> In x (map snd hist) ->
  (0 < x)%Q.
Proof.
  unfold positive_closes. rewrite Forall_forall. intros H Hin Hx.
  specialize (H (k, hist) Hin). simpl in H. rewrite Forall_forall in H.
  apply in_map_iff in Hx. destruct Hx as (row & <- & Hrow). now apply H.
Qed.

Lemma gain_positive inv entry p sh x :
  (0 < inv)%Q -> (0 < entry)%Q -> (entry < p)%Q ->
  (sh == inv / entry)%Q -> (x == sh * (p - entry))%Q -> (0 < x)%Q.
Proof.
  intros Hi He Hp Hs Hx. rewrite Hx, Hs.
  apply Qmult_lt_0_compat.
  - unfold Qdiv. apply Qmult_lt_0_compat; [exact Hi|].
    now apply Qinv_lt_0_compat.
  - unfold Qminus. rewrite <- (Qplus_opp_r entry).
    apply Qplus_lt_l. exact Hp.
Qed.

Lemma is_win_positive t x :
  pnl t = Some x -> (0 < x)%Q -> is_win t = true /\ is_loss t = false.
Proof.
  intros Hp Hx. unfold is_win, is_loss, Qltb. rewrite Hp.
  assert (H1 : Qle_bool x 0 = false).
  { destruct (Qle_bool x 0) eqn:H; [|reflexivity].
    apply Qle_bool_iff in H. exfalso. now apply (Qlt_not_le _ _ Hx). }
  assert (H2 : Qeq_bool x 0 = false).
  { destruct (Qeq_bool x 0) eqn:H; [|reflexivity].
    apply Qeq_bool_iff in H. rewrite H in Hx. now apply Qlt_irrefl in Hx. }
  assert (H3 : Qle_bool 0 x = true).
  { apply Qle_bool_iff. now apply Qlt_le_weak. }
  rewrite H1, H2, H3. now split.
Qed.

Lemma filter_none {A} (f : A -> bool) (l : list A) :
  (forall x, In x l -> f x = false) -> filter f l = [].
Proof.
  induction l as [|a l IH]; simpl; intros H; [reflexivity|].
  rewrite (H a (or_introl eq_refl)). apply IH. auto.
Qed.

(** X6: with a positive investment and positive closes, every trade that a
    run of screenings has closed made a profit; the result counts each
    closed trade as a winner and none as a loser.  A loss can only come
    from the forced close at the end of a run. *)
Theorem no_loss_before_the_forced_close lb inv fr data dates :
  (0 < inv)%Q ->
  positive_closes data ->
  Forall (fun t => exists x, pnl t = Some x /\ (0 < x)%Q)
         (closed_trades (screenings (fresh lb inv fr data) dates))
  /\ losing_trades
       (_generate_results (screenings (fresh lb inv fr data) dates)) = O
  /\ winning_trades
       (_generate_results (screenings (fresh lb inv fr data) dates))
     = length (closed_trades (screenings (fresh lb inv fr data) dates)).
Proof.
  intros Hinv Hdata.
  destruct (run_inv_screenings inv data (fun x => (0 < x)%Q)
              (fun k hist x => positive_closes_In data k hist x Hdata)
              dates _ (run_inv_fresh inv data _ lb fr))
    as (_ & _ & _ & _ & Hc).
  assert (Hpos : Forall (fun t => exists x, pnl t = Some x /\ (0 < x)%Q)
                   (closed_trades (screenings (fresh lb inv fr data) dates))).
  { apply Forall_forall. intros t Hin. rewrite Forall_forall in Hc.
    destruct (Hc t Hin) as [(p & x & _ & Hx & Heq & _ & Hlt) [He Hs]].
    exists x. split; [exact Hx|].
    now apply gain_positive with inv (entry_price t) p (shares t). }
  split; [exact Hpos|]. rewrite Forall_forall in Hpos. simpl. split.
  - rewrite filter_none; [reflexivity|]. intros t Hin.
    destruct (Hpos t Hin) as (x & Hx & H0).
    now apply (is_win_positive t x).
  - rewrite filter_all; [reflexivity|]. intros t Hin.
    destruct (Hpos t Hin) as (x & Hx & H0).
    now apply (is_win_positive t x).
Qed.

(** The swing scenario over the screenings of days 35 and 42: one trade
    closed, a winner. *)
Lemma no_loss_before_the_forced_close_witness :
  losing_trades
    (_generate_results
       (screenings (fresh 1 50 7 [("T"%string, swing)]) [noon 35; noon 42]))
  = O.
Proof.
  refine (proj1 (proj2 (no_loss_before_the_forced_close
                          1 50 7 [("T"%string, swing)] [noon 35; noon 42]
                          _ _))).
  - reflexivity.
  - repeat constructor.
Defined.

(** Every trade of a full run is sized from a positive entry price and
    has its pnl settled from its exit price. *)
Lemma full_run_trades lb inv fr data dates now t :
  positive_closes data ->
  In t (all_trades
          (_close_remaining_positions
             (screenings (fresh lb inv fr data) dates) now)) ->
  (0 < entry_price t)%Q /\ (shares t == inv / entry_price t)%Q
  /\ pnl_settled t.
Proof.
  intros Hdata.
  set (T := fun (_ : BacktestEngine) t =>
              (0 < entry_price t)%Q /\ (shares t == inv / entry_price t)%Q
              /\ pnl_settled t).
  set (Good := fun c : Candidate => (0 < c_entry_price c)%Q).
  set (P := fun e => investment_per_trade e = inv
                     /\ all_historical_data e = data /\ every_trade T e).
  assert (Hclose : forall e k p d, P e -> P (_close_position e k p d)).
  { intros e k p d (Hi & Hd & He).
    destruct (close_config e k p d) as (Ei & Ed & _). unfold P.
    rewrite Ei, Ed. split; [exact Hi|]. split; [exact Hd|].
    apply every_trade_close; auto.
    intros e' k' p' d' t' (H1 & H2 & _). unfold T, pnl_settled. simpl.
    split; [exact H1|]. split; [exact H2 | reflexivity]. }
  assert (HP : P (_close_remaining_positions
                    (screenings (fresh lb inv fr data) dates) now)).
  { apply keeps_close_remaining; [exact Hclose|].
    apply keeps_screenings with (Good := Good); [|exact Hclose| |].
    - intros e c d Hc (Hi & Hd & He).
      destruct (open_config e c d) as (Ei & Ed & _). unfold P.
      rewrite Ei, Ed. split; [exact Hi|]. split; [exact Hd|].
      apply every_trade_open; auto. intros _. unfold T, pnl_settled. simpl.
      split; [exact Hc|]. split; [now rewrite Hi | exact I].
    - intros e d c (_ & Hd & _) Hs. unfold Good.
      destruct (screen_for_date_entry e d c Hs) as (hist & Hin & Hx).
      rewrite Hd in Hin.
      now apply positive_closes_In with data (c_ticker c) hist.
    - split; [reflexivity|]. split; [reflexivity | intros x []]. }
  intros Hin. now apply (proj2 (proj2 HP)).
Qed.

(** X7: with a positive investment and positive closes, in the result of
    a full run a closed trade counts as a winner exactly when it was
    closed above its entry price and as a loser exactly when it was
    closed below it; a trade closed at its entry price and a trade still
    open count as neither. *)
Theorem win_and_loss_follow_the_exit_price lb inv fr data dates now :
  (0 < inv)%Q ->
  positive_closes data ->
  Forall (fun t =>
            match exit_price t with
            | Some p =>
                (is_win t = true <-> (entry_price t < p)%Q)
                /\ (is_loss t = true <-> (p < entry_price t)%Q)
            | None => is_win t = false /\ is_loss t = false
            end)
         (trades (_generate_results
                    (_close_remaining_positions
                       (screenings (fresh lb inv fr data) dates) now))).
Proof.
  intros Hinv Hdata. apply Forall_forall. intros t Hin.
  change (In t (all_trades
                  (_close_remaining_positions
                     (screenings (fresh lb inv fr data) dates) now))) in Hin.
  destruct (full_run_trades lb inv fr data dates now t Hdata Hin)
    as (He & Hs & Hp).
  unfold pnl_settled in Hp. unfold is_win, is_loss, Qltb.
  destruct (exit_price t) as [p|]; destruct (pnl t) as [x|];
    try contradiction; [|now split].
  assert (Hsh : (0 < shares t)%Q).
  { rewrite Hs. unfold Qdiv. apply Qmult_lt_0_compat; [exact Hinv|].
    now apply Qinv_lt_0_compat. }
  assert (Hx0 : (0 < x)%Q <-> (entry_price t < p)%Q).
  { rewrite Hp. split; intros H; nra. }
  assert (Hx1 : (x < 0)%Q <-> (p < entry_price t)%Q).
  { rewrite Hp. split; intros H; nra. }
  rewrite <- Hx0, <- Hx1.
  destruct (Qeq_bool x 0) eqn:Heq; simpl.
  - apply Qeq_bool_iff in Heq. split; split; try discriminate;
      intros H; rewrite Heq in H; now apply Qlt_irrefl in H.
  - split; rewrite negb_true_iff; split; intros H.
    + apply Qnot_le_lt. intros Hle. apply Qle_bool_iff in Hle. congruence.
    + destruct (Qle_bool x 0) eqn:Hle; [|reflexivity].
      apply Qle_bool_iff in Hle. exfalso. now apply (Qlt_not_le _ _ H).
    + apply Qnot_le_lt. intros Hle. apply Qle_bool_iff in Hle. congruence.
    + destruct (Qle_bool 0 x) eqn:Hle; [|reflexivity].
      apply Qle_bool_iff in Hle. exfalso. now apply (Qlt_not_le _ _ H).
Qed.

(** The swing scenario, run to day 400: two trades, each with an exit
    price. *)
Lemma win_and_loss_follow_the_exit_price_witness :
  Forall (fun t =>
            match exit_price t with
            | Some p =>
                (is_win t = true <-> (entry_price t < p)%Q)
                /\ (is_loss t = true <-> (p < entry_price t)%Q)
            | None => is_win t = false /\ is_loss t = false
            end)
         (trades (_generate_results
                    (_close_remaining_positions
                       (screenings (fresh 1 50 7 [("T"%string, swing)])
                          [noon 35; noon 42])
                       (noon 400)))).
Proof.
  apply (win_and_loss_follow_the_exit_price
           1 50 7 [("T"%string, swing)] [noon 35; noon 42] (noon 400)).
  - reflexivity.
  - repeat constructor.
Defined.

End RunFacts.

(** ** Termination of the date loop *)

Module LoopFacts.
Import MarketData Engine DictFacts EngineFacts Scenarios.

(** More fuel than the loop needs does not change its result. *)
Lemma screening_loop_more fuel :
  forall e cur stop e' more,
    screening_loop fuel e cur stop = Some e' ->
    screening_loop (fuel + more) e cur stop = Some e'.
Proof.
  induction fuel as [|fuel IH]; intros e cur stop e' more.
  - simpl. destruct more; simpl; destruct (cur <=? stop);
      try discriminate; auto.
  - cbn [screening_loop Nat.add]. destruct (cur <=? stop); [|auto].
    apply IH.
Qed.

(** X8: with a positive screening frequency the date loop ends: fuel for
    lookback_years * 365 / frequency + 1 screenings gives its result, and
    any further fuel gives the same result. *)
Theorem simulate_screenings_returns e now :
  0 < screening_frequency_days e ->
  exists e',
    _simulate_screenings
      (Z.to_nat (lookback_years e * 365 / screening_frequency_days e) + 1)
      e now = Some e'
    /\ forall more,
        _simulate_screenings
          (Z.to_nat (lookback_years e * 365 / screening_frequency_days e)
           + 1 + more)
          e now = Some e'.
Proof.
  intros Hpos. unfold _simulate_screenings.
  destruct (Driver.screening_loop_returns
              (Z.to_nat (lookback_years e * 365 / screening_frequency_days e)
               + 1)
              e (now - timedelta_days (lookback_years e * 365)) now Hpos)
    as [e' He'].
  - unfold timedelta_days.
    set (f := screening_frequency_days e) in *.
    set (n := lookback_years e * 365).
    pose proof (Z.div_mod n f ltac:(lia)) as Hdm.
    pose proof (Z.mod_pos_bound n f Hpos) as Hmod.
    rewrite Nat2Z.inj_add. simpl (Z.of_nat 1).
    assert (Hq : n / f <= Z.of_nat (Z.to_nat (n / f))) by lia.
    assert (Hlt : n < (Z.of_nat (Z.to_nat (n / f)) + 1) * f) by nia.
    unfold us_per_day. nia.
  - exists e'. split; [exact He'|]. intros more.
    now apply screening_loop_more.
Qed.

(** The default run: five years, every seven days. *)
Lemma simulate_screenings_returns_witness :
  exists e',
    _simulate_screenings 261 (init 5 50 7) (noon 2000) = Some e'
    /\ forall more,
        _simulate_screenings (261 + more) (init 5 50 7) (noon 2000)
        = Some e'.
Proof.
  exact (simulate_screenings_returns (init 5 50 7) (noon 2000) eq_refl).
Defined.

Lemma screening_loop_hangs fuel :
  forall e cur stop,
    screening_frequency_days e <= 0 -> cur <= stop ->
    screening_loop fuel e cur stop = None.
Proof.
  induction fuel as [|fuel IH]; intros e cur stop Hf Hle; simpl.
  - now destruct (Z.leb_spec cur stop); [|lia].
  - destruct (Z.leb_spec cur stop); [|lia].
    apply IH.
    + now rewrite Driver.screening_frequency.
    + unfold timedelta_days, us_per_day. nia.
Qed.

(** X9: with a screening frequency of 0 days and a lookback that is not
    negative, the date of the loop does not advance and never passes the
    end date: once tickers and histories are there, [run] returns for no
    amount of fuel. *)
Theorem run_hangs_without_positive_frequency fuel e candidate_tickers
  fetched now_loop now_close :
  screening_frequency_days e = 0 ->
  0 <= lookback_years e ->
  candidate_tickers <> [] ->
  fetched <> [] ->
  run fuel e candidate_tickers fetched now_loop now_close = None.
Proof.
  intros Hf Hl Hc Hd. unfold run.
  destruct candidate_tickers as [|c cs]; [contradiction|].
  destruct fetched as [|x xs]; [contradiction|]. simpl.
  unfold _simulate_screenings. rewrite screening_loop_hangs; [reflexivity| |].
  - simpl. simpl in Hf. lia.
  - simpl. unfold timedelta_days, us_per_day. nia.
Qed.

(** A frequency of 0 days on the dip scenario. *)
Lemma run_hangs_without_positive_frequency_witness :
  run 1000 (init 5 50 0) ["T"%string] [("T"%string, dip)]
      (noon 2000) (noon 2000) = None.
Proof.
  apply run_hangs_without_positive_frequency.
  - reflexivity.
  - discriminate.
  - discriminate.
  - discriminate.
Defined.

End LoopFacts.

(** ** The selection of a screening *)

Module SelectionFacts.
Import MarketData PerformanceFilter Engine Positions Scenarios.

Lemma Qltb_lt a b : Qltb a b = true <-> (a < b)%Q.
Proof.
  unfold Qltb. rewrite negb_true_iff. split; intros H.
  - apply Qnot_le_lt. intros Hle. apply Qle_bool_iff in Hle. congruence.
  - destruct (Qle_bool b a) eqn:Hle; [|reflexivity].
    apply Qle_bool_iff in Hle. exfalso. now apply (Qlt_not_le _ _ H).
Qed.

Lemma Qltb_ge a b : Qltb a b = false <-> (b <= a)%Q.
Proof.
  unfold Qltb. rewrite negb_false_iff. apply Qle_bool_iff.
Qed.

(** The head of the sorted candidates is the first candidate with the
    least return. *)
Lemma sort_by_return_head l :
  match sort_by_return l with
  | [] => l = []
  | w :: _ =>
      exists before after,
        l = before ++ w :: after
        /\ (forall c, In c before -> (c_return_pct w < c_return_pct c)%Q)
        /\ (forall c, In c after -> (c_return_pct w <= c_return_pct c)%Q)
  end.
Proof.
  unfold sort_by_return. induction l as [|x l IH]; simpl; [reflexivity|].
  destruct (fold_right insert_by_return [] l) as [|w rest].
  - subst l. simpl. exists [], []. repeat split; intros c [].
  - destruct IH as (before & after & -> & Hb & Ha). simpl.
    destruct (Qltb (c_return_pct w) (c_return_pct x)) eqn:Hlt.
    + apply Qltb_lt in Hlt. exists (x :: before), after.
      split; [reflexivity|]. split; [|exact Ha].
      intros c [<-|Hc]; [exact Hlt | now apply Hb].
    + apply Qltb_ge in Hlt. exists [], (before ++ w :: after).
      split; [reflexivity|]. split; [intros c []|].
      intros c Hc. apply in_app_or in Hc.
      destruct Hc as [Hc|[<-|Hc]].
      * apply Qle_trans with (c_return_pct w); [exact Hlt|].
        apply Qlt_le_weak. now apply Hb.
      * exact Hlt.
      * apply Qle_trans with (c_return_pct w); [exact Hlt | now apply Ha].
Qed.

Lemma screen_ticker_negative d entry c :
  In c (screen_ticker d entry) ->
  (c_return_pct c < 0)%Q /\ c_ticker c = fst entry
  /\ c_company_name c = fst entry
  /\ get_price_on_date (snd entry) d = Some (c_entry_price c).
Proof.
  unfold screen_ticker. destruct entry as [k hist]. simpl.
  destruct (recent_worst hist d) as [perf|]; [|intros []].
  destruct (Qle_bool 0 (return_pct perf)) eqn:Hle; [intros []|].
  destruct (get_price_on_date hist d) as [p|]; [|intros []].
  intros [<-|[]]. simpl. repeat split.
  apply Qnot_le_lt. intros H. apply Qle_bool_iff in H. congruence.
Qed.

(** X10: the selection of a screening is the first, in the order of the
    histories, of the candidates with the least return; its return is
    negative and its entry price is the price of its ticker on the
    screening date.  There is no selection exactly when no ticker yields
    a candidate. *)
Theorem selection_is_the_first_worst e d :
  match _screen_for_date e d with
  | Some w =>
      (exists before after,
          candidates_on e d = before ++ w :: after
          /\ (forall c, In c before -> (c_return_pct w < c_return_pct c)%Q)
          /\ (forall c, In c after -> (c_return_pct w <= c_return_pct c)%Q))
      /\ (c_return_pct w < 0)%Q
      /\ exists hist,
          In (c_ticker w, hist) (all_historical_data e)
          /\ get_price_on_date hist d = Some (c_entry_price w)
  | None =>
      forall entry, In entry (all_historical_data e) ->
                    screen_ticker d entry = []
  end.
Proof.
  unfold _screen_for_date.
  pose proof (sort_by_return_head
                (flat_map (screen_ticker d) (all_historical_data e))) as H.
  destruct (sort_by_return _) as [|w rest].
  - intros entry Hin.
    destruct (screen_ticker d entry) as [|c cs] eqn:Hs; [reflexivity|].
    assert (Hc : In c (flat_map (screen_ticker d) (all_historical_data e))).
    { apply in_flat_map. exists entry. split; [exact Hin|].
      rewrite Hs. now left. }
    rewrite H in Hc. contradiction.
  - destruct H as (before & after & Heq & Hb & Ha).
    split; [now exists before, after|].
    assert (Hw : In w (flat_map (screen_ticker d) (all_historical_data e))).
    { rewrite Heq. apply in_or_app. right. now left. }
    apply in_flat_map in Hw. destruct Hw as ([k hist] & Hin & Hw).
    apply screen_ticker_negative in Hw. simpl in Hw.
    destruct Hw as (Hneg & Hk & _ & Hp). split; [exact Hneg|].
    exists hist. now rewrite Hk.
Qed.

End SelectionFacts.

(** ** The result of a run *)

Module ResultFacts.
Import MarketData Engine DictFacts EngineFacts Positions Scenarios.

Lemma get_set {V} k k' (v : V) (d : Dict.t V) :
  Dict.get k' (Dict.set k v d)
  = if String.eqb k' k then Some v else Dict.get k' d.
Proof.
  induction d as [|[k0 v0] d IH]; simpl.
  - reflexivity.
  - destruct (String.eqb_spec k k0) as [->|Hne]; simpl.
    + now destruct (String.eqb k' k0).
    + destruct (String.eqb_spec k' k0) as [->|Hne'].
      * destruct (String.eqb_spec k0 k); [congruence | reflexivity].
      * exact IH.
Qed.

(** The count under a label, 0 when the label is absent. *)
Definition count_of (label : string) (dist : Dict.t nat) : nat :=
  match Dict.get label dist with Some n => n | None => O end.

Lemma get_increment label label' dist :
  Dict.get label' (increment label dist)
  = if String.eqb label' label then Some (S (count_of label dist))
    else Dict.get label' dist.
Proof.
  unfold increment, count_of.
  destruct (Dict.get label dist); now rewrite get_set.
Qed.

(** One day count raises the bucket of the range that holds it, and no
    other bucket. *)
Lemma count_day_get r dist days :
  In r ranges ->
  Dict.get (snd r) (count_day dist days)
  = if in_range days r then Some (S (count_of (snd r) dist))
    else Dict.get (snd r) dist.
Proof.
  intros Hr. unfold count_day, ranges in *. simpl in Hr.
  repeat (destruct Hr as [<-|Hr]; [|]); try contradiction;
    unfold first_range, in_range; simpl;
    repeat match goal with
           | |- context [?a <=? days] =>
               destruct (Z.leb_spec a days); simpl; try lia
           | |- context [days <? ?b] =>
               destruct (Z.ltb_spec days b); simpl; try lia
           end;
    try rewrite get_increment; reflexivity.
Qed.

Lemma fold_count_day_get r days :
  In r ranges ->
  forall dist,
    Dict.get (snd r) (fold_left count_day days dist)
    = match count_in_range r days with
      | O => Dict.get (snd r) dist
      | S n => Some (count_of (snd r) dist + S n)%nat
      end.
Proof.
  intros Hr. unfold count_in_range.
  induction days as [|d days IH]; intros dist; simpl; [reflexivity|].
  rewrite IH. unfold count_of. rewrite (count_day_get r dist d Hr).
  destruct (in_range d r); simpl.
  - destruct (length _); f_equal; unfold count_of; lia.
  - reflexivity.
Qed.

Lemma first_range_negative days :
  days < 0 -> first_range days ranges = None.
Proof.
  intros H. unfold ranges, first_range, in_range.
  repeat match goal with
         | |- context [?a <=? days] =>
             destruct (Z.leb_spec a days); simpl; try lia
         end; reflexivity.
Qed.

Lemma histogram_total_fold days :
  forall dist,
    histogram_total (fold_left count_day days dist)
    = (histogram_total dist + length (filter (fun d => (0 <=? d)%Z) days))%nat.
Proof.
  induction days as [|d days IH]; intros dist; simpl; [lia|].
  rewrite IH.
  assert (Hc : histogram_total (count_day dist d)
               = (histogram_total dist + if (0 <=? d)%Z then 1 else 0)%nat).
  { unfold count_day. destruct (Z.leb_spec 0 d) as [Hd|Hd].
    - destruct (Driver.first_range_nonneg d Hd) as [label ->].
      rewrite Driver.histogram_total_increment. lia.
    - rewrite (first_range_negative d Hd). lia. }
  rewrite Hc. destruct (0 <=? d)%Z; simpl; lia.
Qed.

Lemma histogram_total_count days :
  histogram_total (_create_holding_distribution days)
  = length (filter (fun d => (0 <=? d)%Z) days).
Proof.
  unfold _create_holding_distribution.
  destruct days as [|d days]; [reflexivity|].
  now rewrite histogram_total_fold.
Qed.

(** X11: in the histogram of a list of day counts, each of the eight
    labels carries the number of entries in its range, and is absent when
    that number is 0; the counts add up to the number of entries from 0
    on, so a negative day count is in no bucket. *)
Theorem histogram_counts_each_range (days : list Z) :
  Forall (fun r =>
            Dict.get (snd r) (_create_holding_distribution days)
            = match count_in_range r days with
              | O => None
              | S n => Some (S n)
              end)
         ranges
  /\ histogram_total (_create_holding_distribution days)
     = length (filter (fun d => (0 <=? d)%Z) days).
Proof.
  split.
  - apply Forall_forall. intros r Hr. unfold _create_holding_distribution.
    destruct days as [|d days]; [reflexivity|].
    rewrite (fold_count_day_get r (d :: days) Hr Dict.empty).
    now destruct (count_in_range r (d :: days)).
  - apply histogram_total_count.
Qed.

Lemma filter_disjoint_length {A} (f g : A -> bool) (l : list A) :
  (forall x, f x && g x = false) ->
  (length (filter f l) + length (filter g l) <= length l)%nat.
Proof.
  intros H. induction l as [|a l IH]; simpl; [lia|].
  specialize (H a). destruct (f a), (g a); simpl in *; try discriminate; lia.
Qed.

Lemma win_or_loss t : is_win t && is_loss t = false.
Proof.
  unfold is_win, is_loss, Qltb. destruct (pnl t) as [x|]; [|reflexivity].
  destruct (Qeq_bool x 0); simpl; [reflexivity|].
  destruct (Qle_bool x 0) eqn:H1; simpl; [reflexivity|].
  destruct (Qle_bool 0 x) eqn:H2; simpl; [reflexivity|].
  exfalso. destruct (Qlt_le_dec 0 x) as [H|H].
  - apply Qlt_le_weak, Qle_bool_iff in H. congruence.
  - apply Qle_bool_iff in H. congruence.
Qed.

Lemma closed_holding_days_length closed :
  (length (closed_holding_days_of closed) <= length closed)%nat.
Proof.
  unfold closed_holding_days_of.
  induction closed as [|t closed IH]; simpl; [lia|].
  rewrite length_app. destruct (holding_days t) as [d|]; simpl; [|lia].
  destruct (d =? 0); simpl; lia.
Qed.

(** X12: in every result of [_generate_results], the trades are the closed
    ones followed by the open ones, closed = total - still open; no trade
    is both a winner and a loser, so winners and losers together are at
    most the closed trades; the histogram counts at most the closed
    trades; and a histogram that is not empty means that some trade is
    closed, which is what the summary divides by. *)
Theorem result_counts_are_consistent e :
  trades (_generate_results e)
  = closed_trades e ++ Dict.values (open_positions e)
  /\ (total_trades (_generate_results e) - still_open (_generate_results e)
      = length (closed_trades e))%nat
  /\ (winning_trades (_generate_results e)
      + losing_trades (_generate_results e)
      <= length (closed_trades e))%nat
  /\ (histogram_total (holding_days_distribution (_generate_results e))
      <= length (closed_trades e))%nat
  /\ (holding_days_distribution (_generate_results e) <> [] ->
      (0 < total_trades (_generate_results e)
           - still_open (_generate_results e))%nat).
Proof.
  assert (Hclosed : (total_trades (_generate_results e)
                     - still_open (_generate_results e)
                     = length (closed_trades e))%nat).
  { simpl. unfold Dict.values. rewrite length_app, length_map. lia. }
  assert (Hhist : (histogram_total
                     (holding_days_distribution (_generate_results e))
                   <= length (closed_trades e))%nat).
  { simpl.
    rewrite histogram_total_count.
    pose proof (closed_holding_days_length (closed_trades e)).
    pose proof (filter_length_le (fun d => (0 <=? d)%Z)
                  (closed_holding_days_of (closed_trades e))).
    lia. }
  split; [reflexivity|]. split; [exact Hclosed|]. split.
  - simpl. apply filter_disjoint_length. exact win_or_loss.
  - split; [exact Hhist|]. intros Hne. rewrite Hclosed.
    destruct (closed_trades e) as [|t closed] eqn:Hc; [|simpl; lia].
    exfalso. apply Hne. simpl. now rewrite Hc.
Qed.

End ResultFacts.

(** ** The worst window *)

Module WindowFacts.
Import MarketData PerformanceFilter Engine Windows Scenarios.

(** A rounding is at most half a unit from what it rounds. *)
Lemma rint_close y :
  (inject_Z (rint y) - y <= 1 # 2)%Q /\ (y - inject_Z (rint y) <= 1 # 2)%Q.
Proof.
  unfold rint. pose proof (Qfloor_le y) as Hle.
  pose proof (Qlt_floor y) as Hlt. rewrite inject_Z_plus in Hlt.
  change (inject_Z 1) with 1%Q in Hlt.
  destruct (Qcompare_spec (y - inject_Z (Qfloor y)) (1 # 2)) as [He|Hl|Hg].
  - destruct (Z.even (Qfloor y));
      [|rewrite inject_Z_plus; change (inject_Z 1) with 1%Q]; split; lra.
  - split; lra.
  - rewrite inject_Z_plus. change (inject_Z 1) with 1%Q. split; lra.
Qed.

Lemma round2_close x : (Qabs (round2 x - x) <= 1 # 200)%Q.
Proof.
  apply Qabs_Qle_condition. unfold round2.
  destruct (rint_close (x * 100)) as [H1 H2].
  set (z := inject_Z (rint (x * 100))) in *.
  unfold Qdiv. change (/ 100)%Q with (1 # 100)%Q.
  split; lra.
Qed.

Lemma dropna_In rows j l r :
  nth_error rows j = Some (l, Some r) -> In (l, r) (dropna rows).
Proof.
  revert j. induction rows as [|[l0 [r0|]] rows IH]; intros [|j]; simpl;
    try discriminate.
  - intros [= -> ->]. now left.
  - intros H. right. now apply IH with j.
  - intros H. now apply IH with j.
Qed.

(** A row that survives [dropna] comes from a position, the rows before it
    from earlier positions and the rows after it from later ones. *)
Lemma dropna_position rows :
  forall before l r after,
    dropna rows = before ++ (l, r) :: after ->
    exists j,
      nth_error rows j = Some (l, Some r)
      /\ (forall j' l' r', (j' < j)%nat ->
                           nth_error rows j' = Some (l', Some r') ->
                           In (l', r') before)
      /\ (forall j' l' r', (j < j')%nat ->
                           nth_error rows j' = Some (l', Some r') ->
                           In (l', r') after).
Proof.
  induction rows as [|[l0 [r0|]] rows IH]; intros before l r after Heq;
    simpl in Heq.
  - now destruct before.
  - destruct before as [|x before]; simpl in Heq.
    + injection Heq as -> -> <-. exists O. split; [reflexivity|]. split.
      * intros j' l' r' Hlt. lia.
      * intros [|j'] l' r' Hlt H; [lia|]. simpl in H.
        now apply dropna_In with j'.
    + injection Heq as <- Heq. destruct (IH _ _ _ _ Heq) as (j & Hj & Hb & Ha).
      exists (S j). split; [exact Hj|]. split.
      * intros [|j'] l' r' Hlt H; simpl in H.
        -- injection H as <- <-. now left.
        -- right. apply (Hb j'); [lia | exact H].
      * intros [|j'] l' r' Hlt H; [lia|]. simpl in H.
        apply (Ha j'); [lia | exact H].
  - destruct (IH _ _ _ _ Heq) as (j & Hj & Hb & Ha).
    exists (S j). split; [exact Hj|]. split.
    + intros [|j'] l' r' Hlt H; simpl in H; [discriminate|].
      apply (Hb j'); [lia | exact H].
    + intros [|j'] l' r' Hlt H; [lia|]. simpl in H.
      apply (Ha j'); [lia | exact H].
Qed.

Lemma nth_error_combine {A B} (la : list A) (lb : list B) j a b :
  nth_error (combine la lb) j = Some (a, b)
  <-> nth_error la j = Some a /\ nth_error lb j = Some b.
Proof.
  revert lb j. induction la as [|a0 la IH]; intros [|b0 lb] [|j]; simpl;
    try (split; [discriminate | intros [? ?]; discriminate]).
  - split; [intros [= -> ->]; now split | intros [[= ->] [= ->]]; reflexivity].
  - apply IH.
Qed.

(** The column that the evaluator computes holds the window returns. *)
Lemma pct_change_window hist j :
  nth_error (pct_change_x100 5 (map snd hist)) j
  = if (j <? length hist)%nat then Some (window_return hist j) else None.
Proof.
  unfold pct_change_x100. rewrite length_map, nth_error_map.
  destruct (Nat.ltb_spec j (length hist)) as [Hlt|Hge].
  - rewrite (nth_error_nth' _ O) by now rewrite length_seq.
    rewrite seq_nth by exact Hlt. simpl. unfold window_return.
    destruct (j <? 5)%nat; [reflexivity|].
    rewrite !nth_error_map.
    destruct (nth_error hist j), (nth_error hist (j - 5)); reflexivity.
  - replace (nth_error (seq 0 (length hist)) j) with (@None nat);
      [reflexivity|].
    symmetry. apply nth_error_None. now rewrite length_seq.
Qed.

Lemma window_return_bound hist j r :
  window_return hist j = Some r -> (5 <= j < length hist)%nat.
Proof.
  unfold window_return. destruct (Nat.ltb_spec j 5); [discriminate|].
  destruct (nth_error hist j) eqn:Hj; [|discriminate]. intros _.
  split; [lia|]. apply nth_error_Some. congruence.
Qed.




Lemma rows_nth hist j l r :
  nth_error (combine (index hist) (pct_change_x100 5 (map snd hist))) j
  = Some (l, Some r)
  <-> nth_error (index hist) j = Some l /\ window_return hist j = Some r.
Proof.
  rewrite nth_error_combine, pct_change_window. split.
  - intros [Hl Hr]. split; [exact Hl|].
    destruct (j <? length hist)%nat; [congruence | discriminate].
  - intros [Hl Hr]. split; [exact Hl|].
    apply window_return_bound in Hr as Hb.
    replace (j <? length hist)%nat with true; [congruence|].
    symmetry. apply Nat.ltb_lt. lia.
Qed.





(** X14: on five rows or fewer the evaluator has no window and returns
    nothing. *)
Theorem no_window_on_five_rows hist :
  (length hist <= 5)%nat -> calculate_worst_5day_performance hist = None.
Proof.
  intros Hlen. unfold calculate_worst_5day_performance.
  destruct (length hist <? 5)%nat; [reflexivity|].
  destruct (dropna _) as [|[l r] rest] eqn:Hv; [reflexivity|].
  destruct (dropna_position _ [] l r rest Hv) as (j & Hj & _).
  apply rows_nth in Hj. destruct Hj as [_ Hw].
  apply window_return_bound in Hw. lia.
Qed.

(** Five rows of the dip scenario. *)
Lemma no_window_on_five_rows_witness :
  calculate_worst_5day_performance (firstn 5 dip) = None.
Proof.
  apply no_window_on_five_rows. simpl. lia.
Defined.

End WindowFacts.

(** ** Rounding to two decimals *)

Module RoundingFacts.
Import MarketData PerformanceFilter Engine DictFacts EngineFacts Windows
  Scenarios.








End RoundingFacts.

(** ** What a screening reads of the histories *)

Module LookupFacts.
Import MarketData PerformanceFilter Engine DictFacts EngineFacts Windows
  Scenarios.

Lemma find_filter {A} (f g : A -> bool) (l : list A) :
  (forall x, f x = true -> g x = true) -> find f (filter g l) = find f l.
Proof.
  intros H. induction l as [|a l IH]; simpl; [reflexivity|].
  destruct (g a) eqn:Hg; simpl.
  - destruct (f a); [reflexivity | exact IH].
  - destruct (f a) eqn:Hf; [|exact IH]. apply H in Hf. congruence.
Qed.

Lemma loc_close_up_to_date hist d t :
  t <= d -> loc_close (up_to_date hist d) t = loc_close hist t.
Proof.
  intros Ht. unfold loc_close, up_to_date. rewrite find_filter; [reflexivity|].
  intros row Hrow. apply Z.eqb_eq in Hrow. apply Z.leb_le. lia.
Qed.

Lemma index_up_to_date hist d :
  index (up_to_date hist d) = filter (fun t => t <=? d) (index hist).
Proof.
  unfold index, up_to_date. induction hist as [|row hist IH]; simpl;
    [reflexivity|].
  unfold instant in *.
  destruct (fst row <=? d); simpl; now rewrite IH.
Qed.

Lemma filter_idem {A} (f : A -> bool) (l : list A) :
  filter f (filter f l) = filter f l.
Proof.
  induction l as [|a l IH]; simpl; [reflexivity|].
  destruct (f a) eqn:Hf; simpl; [rewrite Hf; now f_equal | exact IH].
Qed.

Lemma last_filter_In (f : Z -> bool) l d :
  filter f l <> [] -> f (last (filter f l) d) = true.
Proof.
  intros Hne. pose proof (MarketDataFacts.last_In (filter f l) d Hne) as H.
  apply filter_In in H. tauto.
Qed.

Lemma get_price_up_to_date hist d :
  get_price_on_date (up_to_date hist d) d = get_price_on_date hist d.
Proof.
  unfold get_price_on_date.
  rewrite loc_close_up_to_date by lia.
  destruct (loc_close hist d); [reflexivity|].
  rewrite index_up_to_date, filter_idem.
  destruct (filter (fun t => t <=? d) (index hist)) as [|a prior] eqn:Hp;
    [reflexivity|].
  rewrite <- Hp.
  replace (0 <? length (filter (fun t => (t <=? d)%Z) (index hist)))%nat
    with true by (rewrite Hp; reflexivity).
  apply loc_close_up_to_date. apply Z.leb_le.
  apply (last_filter_In (fun t => t <=? d)). rewrite Hp. discriminate.
Qed.

Lemma recent_worst_up_to_date hist d :
  recent_worst (up_to_date hist d) d = recent_worst hist d.
Proof.
  unfold recent_worst, up_to_date. now rewrite filter_idem.
Qed.

Lemma screen_ticker_up_to_date d k hist :
  screen_ticker d (k, up_to_date hist d) = screen_ticker d (k, hist).
Proof.
  unfold screen_ticker.
  now rewrite recent_worst_up_to_date, get_price_up_to_date.
Qed.

Lemma get_map {A B} (f : A -> B) k (data : Dict.t A) :
  Dict.get k (map (fun kh => (fst kh, f (snd kh))) data)
  = option_map f (Dict.get k data).
Proof.
  induction data as [|[k0 h] data IH]; simpl; [reflexivity|].
  destruct (String.eqb k k0); [reflexivity | exact IH].
Qed.

Lemma screen_for_date_known_at e d :
  _screen_for_date (known_at e d) d = _screen_for_date e d.
Proof.
  unfold _screen_for_date, known_at. simpl.
  rewrite flat_map_concat_map, map_map, <- flat_map_concat_map.
  erewrite flat_map_ext; [reflexivity|].
  intros [k hist]. apply screen_ticker_up_to_date.
Qed.

Lemma get_known_at e d k :
  Dict.get k (all_historical_data (known_at e d))
  = option_map (fun hist => up_to_date hist d)
      (Dict.get k (all_historical_data e)).
Proof. exact (get_map (fun hist => up_to_date hist d) k _). Qed.

Lemma exit_check_known_at e d entry :
  exit_check (known_at e d) d entry = exit_check e d entry.
Proof.
  unfold exit_check. destruct entry as [k t]. rewrite get_known_at.
  destruct (Dict.get k (all_historical_data e)) as [hist|]; simpl;
    [|reflexivity].
  now rewrite get_price_up_to_date.
Qed.

Lemma close_set_data e data k p d :
  _close_position (set_historical_data e data) k p d
  = set_historical_data (_close_position e k p d) data.
Proof.
  unfold _close_position, set_historical_data. simpl.
  now destruct (Dict.get k (open_positions e)).
Qed.

Lemma close_all_set_data l :
  forall e data,
    close_all (set_historical_data e data) l
    = set_historical_data (close_all e l) data.
Proof.
  unfold close_all. induction l as [|[[k p] d] l IH]; intros e data; simpl.
  - reflexivity.
  - now rewrite close_set_data, IH.
Qed.

Lemma open_set_data e data c d :
  _open_position (set_historical_data e data) c d
  = set_historical_data (_open_position e c d) data.
Proof.
  unfold _open_position, set_historical_data. simpl.
  destruct (Dict.mem _ _); [reflexivity|].
  now destruct (Qle_bool _ _).
Qed.

(** The rows cut away are those of the state after the exit check, whose
    histories are those of the state before. *)
Lemma update_known_at e d :
  _update_open_positions (known_at e d) d
  = known_at (_update_open_positions e d) d.
Proof.
  unfold _update_open_positions. unfold known_at at 1.
  rewrite close_all_set_data. unfold known_at.
  replace (all_historical_data
             (close_all e (flat_map (exit_check e d) (open_positions e))))
    with (all_historical_data e)
    by (symmetry; apply (RunFacts.update_config e d)).
  f_equal. f_equal. apply flat_map_ext. intros entry.
  apply (exit_check_known_at e d entry).
Qed.

(** X15: a screening reads of each history only the rows dated at or
    before its date: the lookup of the current price, the selection, the
    exit check and the whole screening give the same on the histories cut
    at the date as on the full histories. *)
Theorem screening_reads_no_later_row e d :
  (forall hist,
      get_price_on_date (up_to_date hist d) d = get_price_on_date hist d)
  /\ _screen_for_date (known_at e d) d = _screen_for_date e d
  /\ (forall entry,
         exit_check (known_at e d) d entry = exit_check e d entry)
  /\ screening (known_at e d) d = known_at (screening e d) d.
Proof.
  split; [intros; apply get_price_up_to_date|].
  split; [apply screen_for_date_known_at|].
  split; [apply exit_check_known_at|].
  unfold screening. rewrite update_known_at.
  rewrite screen_for_date_known_at.
  destruct (_screen_for_date (_update_open_positions e d) d) as [w|];
    [|reflexivity].
  unfold known_at at 1. rewrite open_set_data. unfold known_at.
  now rewrite (proj1 (proj2 (open_config (_update_open_positions e d) w d))).
Qed.

(** X16: on any series without a repeated date, sorted or not, the
    lookup returns the close of a row dated at or before the query, never
    a later one, and it returns nothing exactly when every row is dated
    after the query. *)
Theorem lookup_never_returns_a_later_close hist d :
  NoDup (index hist) ->
  match get_price_on_date hist d with
  | Some p => exists t, In (t, p) hist /\ t <= d
  | None => forall t, In t (index hist) -> d < t
  end.
Proof.
  intros _. unfold get_price_on_date.
  destruct (loc_close hist d) as [p|] eqn:Hl.
  - exists d. split; [now apply MarketDataFacts.loc_close_Some | lia].
  - destruct (filter (fun t => t <=? d) (index hist)) as [|a prior] eqn:Hp.
    + simpl. intros t Hin.
      destruct (Z.leb_spec t d) as [Hle|Hgt]; [|exact Hgt].
      assert (Hin' : In t (filter (fun t => t <=? d) (index hist))).
      { apply filter_In. split; [exact Hin | now apply Z.leb_le]. }
      rewrite Hp in Hin'. contradiction.
    + rewrite <- Hp.
      replace (0 <? length (filter (fun t => (t <=? d)%Z) (index hist)))%nat
        with true by (rewrite Hp; reflexivity).
      assert (Hne : filter (fun t => t <=? d) (index hist) <> [])
        by (rewrite Hp; discriminate).
      pose proof (MarketDataFacts.last_In _ 0 Hne) as Hlast.
      apply filter_In in Hlast. destruct Hlast as [Hidx Hle].
      apply Z.leb_le in Hle.
      destruct (MarketDataFacts.loc_close_index hist _ Hidx) as [p Hp'].
      rewrite Hp'. exists (last (filter (fun t => t <=? d) (index hist)) 0).
      split; [now apply MarketDataFacts.loc_close_Some | exact Hle].
Qed.

(** Three closes out of order, asked at noon of day 3: the close of day
    2, the last of the rows dated before. *)
Lemma lookup_never_returns_a_later_close_witness :
  match get_price_on_date shuffled (noon 3) with
  | Some p => exists t, In (t, p) shuffled /\ t <= noon 3
  | None => forall t, In t (index shuffled) -> noon 3 < t
  end.
Proof.
  apply (lookup_never_returns_a_later_close shuffled (noon 3)).
  repeat (constructor; [simpl; unfold day, us_per_day; lia|]).
  constructor.
Defined.

End LookupFacts.

(** ** Fetching, ranking and the percentage return *)

Module RankingFacts.
Import MarketData PerformanceFilter DictFacts Ranking Scenarios.

(** X17: for a positive start price, [calculate_return] is the
    percentage change that the evaluator computes, and its sign is the
    sign of the price move: negative exactly when the end price is below
    the start price, zero exactly when they are equal. *)
Theorem calculate_return_sign start_price end_price :
  (0 < start_price)%Q ->
  (calculate_return start_price end_price
   == (end_price / start_price - 1) * 100)%Q
  /\ ((calculate_return start_price end_price < 0)%Q
      <-> (end_price < start_price)%Q)
  /\ ((calculate_return start_price end_price == 0)%Q
      <-> (end_price == start_price)%Q)
  /\ ((0 < calculate_return start_price end_price)%Q
      <-> (start_price < end_price)%Q).
Proof.
  intros Hs. unfold calculate_return.
  assert (Hne : ~ (start_price == 0)%Q).
  { intros H. rewrite H in Hs. now apply Qlt_irrefl in Hs. }
  assert (Hi : (0 < / start_price)%Q) by now apply Qinv_lt_0_compat.
  assert (Hm : (start_price * / start_price == 1)%Q)
    by now apply Qmult_inv_r.
  unfold Qdiv. set (i := (/ start_price)%Q) in *.
  split; [|split; [|split]].
  - transitivity ((end_price * i - start_price * i) * 100)%Q; [ring|].
    rewrite Hm. ring.
  - split; intros H; nra.
  - split; intros H; nra.
  - split; intros H; nra.
Qed.

(** From 100 to 90. *)
Lemma calculate_return_sign_witness : (calculate_return 100 90 < 0)%Q.
Proof.
  apply (proj1 (proj2 (calculate_return_sign 100 90 eq_refl))).
  reflexivity.
Defined.

Lemma retry_success download ticker n :
  forall first hist,
    retry download ticker first n = Some hist ->
    hist <> []
    /\ exists attempt,
        (first <= attempt < first + n)%nat
        /\ download ticker attempt = Some hist
        /\ forall earlier, (first <= earlier < attempt)%nat ->
                           fetch_attempt download ticker earlier = None.
Proof.
  induction n as [|n IH]; intros first hist; simpl; [discriminate|].
  destruct (fetch_attempt download ticker first) as [h|] eqn:Ha.
  - intros [= ->]. unfold fetch_attempt in Ha.
    destruct (download ticker first) as [[|row rows]|] eqn:Hd;
      try discriminate.
    injection Ha as <-. split; [discriminate|].
    exists first. split; [lia|]. split; [exact Hd|]. intros earlier H. lia.
  - intros H. destruct (IH _ _ H) as (Hne & attempt & Hb & Hd & He).
    split; [exact Hne|]. exists attempt. split; [lia|]. split; [exact Hd|].
    intros earlier Hr. destruct (Nat.eq_dec earlier first) as [->|Hneq];
      [exact Ha | apply He; lia].
Qed.

Lemma retry_failure download ticker n :
  forall first,
    retry download ticker first n = None ->
    forall attempt, (first <= attempt < first + n)%nat ->
                    fetch_attempt download ticker attempt = None.
Proof.
  induction n as [|n IH]; intros first H attempt Hb; [lia|].
  simpl in H.
  destruct (fetch_attempt download ticker first) as [h|] eqn:Ha;
    [discriminate|].
  destruct (Nat.eq_dec attempt first) as [->|Hneq];
    [exact Ha | apply (IH (S first) H); lia].
Qed.

Lemma fetch_multiple_get {V} (fetch : string -> option V) k tickers :
  forall acc,
    Dict.get k
      (fold_left (fun results ticker =>
                    match fetch ticker with
                    | Some hist => Dict.set ticker hist results
                    | None => results
                    end) tickers acc)
    = match (if existsb (String.eqb k) tickers then fetch k else None) with
      | Some v => Some v
      | None => Dict.get k acc
      end.
Proof.
  induction tickers as [|t tickers IH]; intros acc; simpl; [reflexivity|].
  rewrite IH. destruct (String.eqb_spec k t) as [->|Hne]; simpl.
  - destruct (existsb (String.eqb t) tickers).
    + destruct (fetch t); [reflexivity|]. reflexivity.
    + destruct (fetch t) as [v|]; [|reflexivity].
      rewrite ResultFacts.get_set. now rewrite String.eqb_refl.
  - destruct (if existsb (String.eqb k) tickers then fetch k else None);
      [reflexivity|].
    destruct (fetch t) as [v|]; [|reflexivity].
    rewrite ResultFacts.get_set.
    destruct (String.eqb_spec k t); [contradiction | reflexivity].
Qed.

Lemma fetch_multiple_NoDup {V} (fetch : string -> option V) tickers :
  forall acc,
    NoDup (Dict.keys acc) ->
    NoDup (Dict.keys
             (fold_left (fun results ticker =>
                           match fetch ticker with
                           | Some hist => Dict.set ticker hist results
                           | None => results
                           end) tickers acc)).
Proof.
  induction tickers as [|t tickers IH]; intros acc Hnd; simpl; [exact Hnd|].
  apply IH. destruct (fetch t); [now apply NoDup_keys_set | exact Hnd].
Qed.

(** X18: [fetch_multiple_stocks] over [fetch_stock_history] returns a
    dictionary (no ticker twice, whatever the ticker list) that maps each
    listed ticker to the first history, of at most three attempts, that
    is not empty, and leaves out a ticker exactly when all three attempts
    raise or return an empty history; no unlisted ticker is in it. *)
Theorem fetched_histories download tickers :
  NoDup (Dict.keys
           (fetch_multiple_stocks (fetch_stock_history download) tickers))
  /\ (forall k,
         Dict.get k
           (fetch_multiple_stocks (fetch_stock_history download) tickers)
         = if existsb (String.eqb k) tickers
           then fetch_stock_history download k
           else None)
  /\ (forall k hist,
         fetch_stock_history download k = Some hist ->
         hist <> []
         /\ exists attempt,
             (attempt < 3)%nat /\ download k attempt = Some hist
             /\ forall earlier, (earlier < attempt)%nat ->
                                download k earlier = None
                                \/ download k earlier = Some [])
  /\ (forall k,
         fetch_stock_history download k = None ->
         forall attempt, (attempt < 3)%nat ->
                         download k attempt = None
                         \/ download k attempt = Some []).
Proof.
  assert (Hattempt : forall k a,
             fetch_attempt download k a = None ->
             download k a = None \/ download k a = Some []).
  { intros k a. unfold fetch_attempt.
    destruct (download k a) as [[|row rows]|]; try discriminate; auto. }
  split; [|split; [|split]].
  - apply fetch_multiple_NoDup. constructor.
  - intros k. unfold fetch_multiple_stocks. rewrite fetch_multiple_get.
    destruct (existsb (String.eqb k) tickers); [|reflexivity].
    now destruct (fetch_stock_history download k).
  - intros k hist H. unfold fetch_stock_history in H.
    destruct (retry_success download k _ _ _ H) as (Hne & a & Hb & Hd & He).
    split; [exact Hne|]. exists a. unfold RETRY_ATTEMPTS in Hb.
    split; [lia|]. split; [exact Hd|].
    intros earlier Hlt. apply Hattempt. apply He. lia.
  - intros k H attempt Hlt. apply Hattempt.
    apply (retry_failure download k _ _ H). unfold RETRY_ATTEMPTS. lia.
Qed.

Lemma insert_ranked_perm x l : Permutation (insert_ranked x l) (x :: l).
Proof.
  induction l as [|y l IH]; simpl; [reflexivity|].
  destruct (Qltb _ _); [|reflexivity].
  rewrite IH. apply perm_swap.
Qed.

Lemma sorted_by_return_perm l : Permutation (sorted_by_return l) l.
Proof.
  unfold sorted_by_return. induction l as [|x l IH]; simpl; [reflexivity|].
  rewrite insert_ranked_perm. now constructor.
Qed.

Lemma insert_ranked_sorted x l :
  StronglySorted le_return l -> StronglySorted le_return (insert_ranked x l).
Proof.
  induction l as [|y l IH]; simpl; intros Hs.
  - repeat constructor.
  - apply StronglySorted_inv in Hs. destruct Hs as [Hs Hy].
    destruct (Qltb (return_pct (snd y)) (return_pct (snd x))) eqn:Hlt.
    + apply SelectionFacts.Qltb_lt in Hlt. constructor; [now apply IH|].
      rewrite Forall_forall. intros z Hz.
      apply (Permutation_in _ (insert_ranked_perm x l)) in Hz.
      destruct Hz as [<-|Hz].
      * unfold le_return. now apply Qlt_le_weak.
      * rewrite Forall_forall in Hy. now apply Hy.
    + apply SelectionFacts.Qltb_ge in Hlt.
      constructor; [constructor; assumption|].
      constructor; [exact Hlt|].
      rewrite Forall_forall in *. intros z Hz. unfold le_return.
      apply Qle_trans with (return_pct (snd y)); [exact Hlt|].
      now apply Hy.
Qed.

Lemma sorted_by_return_sorted l : StronglySorted le_return (sorted_by_return l).
Proof.
  unfold sorted_by_return. induction l as [|x l IH]; simpl.
  - constructor.
  - now apply insert_ranked_sorted.
Qed.

Lemma ranking_is_sorted_aux performance_data :
  match rank_by_worst_performance performance_data with
  | None => performance_data = []
  | Some ranked =>
      Permutation ranked performance_data
      /\ StronglySorted le_return ranked
  end.
Proof.
  unfold rank_by_worst_performance.
  pose proof (sorted_by_return_perm performance_data) as Hp.
  pose proof (sorted_by_return_sorted performance_data) as Hs.
  destruct (sorted_by_return performance_data) as [|x l].
  - now apply Permutation_nil in Hp.
  - now split.
Qed.

(** X19: [rank_by_worst_performance] raises exactly on the empty
    dictionary (its log line reads the first ranked entry): it raises on
    the empty one, and a raise means the dictionary is empty; on any
    other it returns the entries of the dictionary, each once, in
    ascending order of return. *)
Theorem ranking_is_sorted performance_data :
  rank_by_worst_performance [] = None
  /\ (rank_by_worst_performance performance_data = None
      <-> performance_data = [])
  /\ match rank_by_worst_performance performance_data with
     | None => performance_data = []
     | Some ranked =>
         ranked <> [] /\ Permutation ranked performance_data
         /\ StronglySorted le_return ranked
     end.
Proof.
  pose proof (ranking_is_sorted_aux performance_data) as H.
  split; [reflexivity|]. split.
  - split; [|now intros ->].
    intros Hn. now rewrite Hn in H.
  - destruct (rank_by_worst_performance performance_data) as [ranked|] eqn:Hr;
      [|exact H].
    split; [|exact H]. intros ->. unfold rank_by_worst_performance in Hr.
    destruct (sorted_by_return performance_data); discriminate.
Qed.

Lemma sorted_app_le {A} (R : A -> A -> Prop) l1 l2 :
  StronglySorted R (l1 ++ l2) ->
  forall x y, In x l1 -> In y l2 -> R x y.
Proof.
  induction l1 as [|a l1 IH]; simpl; intros Hs x y Hx Hy; [contradiction|].
  apply StronglySorted_inv in Hs. destruct Hs as [Hs Ha].
  destruct Hx as [<-|Hx].
  - rewrite Forall_forall in Ha. apply Ha. apply in_or_app. now right.
  - now apply IH.
Qed.

(** X20: [get_top_n_worst_performers] raises exactly on the empty
    dictionary, for every [n] (it raises on the empty one, and a raise
    means the dictionary is empty); otherwise it returns a prefix of the
    ranking, as long as
    [n] allows ([n] entries, all of them if there are fewer, and all but
    the last [-n] for a negative [n]), and no entry left out has a
    smaller return than an entry returned. *)
Theorem top_n_is_a_prefix_of_the_ranking performance_data n :
  get_top_n_worst_performers [] n = None
  /\ (get_top_n_worst_performers performance_data n = None
      <-> performance_data = [])
  /\ match get_top_n_worst_performers performance_data n with
     | None => performance_data = []
     | Some top =>
         exists rest,
           rank_by_worst_performance performance_data = Some (top ++ rest)
           /\ length top
              = (if (0 <=? n)%Z
                 then Nat.min (Z.to_nat n) (length performance_data)
                 else length performance_data - Z.to_nat (- n))%nat
           /\ forall x y, In x top -> In y rest -> le_return x y
     end.
Proof.
  split; [reflexivity|].
  assert (Hnone : get_top_n_worst_performers performance_data n = None
                  <-> performance_data = []).
  { unfold get_top_n_worst_performers.
    pose proof (ranking_is_sorted_aux performance_data) as H.
    split; [|now intros ->].
    destruct (rank_by_worst_performance performance_data);
      [discriminate | now intros _]. }
  split; [exact Hnone|].
  unfold get_top_n_worst_performers.
  pose proof (ranking_is_sorted_aux performance_data) as H.
  destruct (rank_by_worst_performance performance_data) as [ranked|];
    [|exact H].
  destruct H as [Hp Hs].
  set (m := if 0 <=? n then Z.to_nat n
            else (length ranked - Z.to_nat (- n))%nat).
  assert (Hslice : slice_to n ranked = firstn m ranked).
  { unfold slice_to, m. now destruct (0 <=? n). }
  rewrite Hslice. exists (skipn m ranked).
  split; [now rewrite firstn_skipn|]. split.
  - rewrite length_firstn, (Permutation_length Hp). unfold m.
    rewrite (Permutation_length Hp). destruct (0 <=? n); lia.
  - apply sorted_app_le. now rewrite firstn_skipn.
Qed.

Lemma performance_fold market_data :
  forall acc,
    NoDup (Dict.keys market_data) ->
    (forall k, In k (Dict.keys market_data) -> ~ In k (Dict.keys acc)) ->
    fold_left
      (fun results entry =>
         match calculate_worst_5day_performance (snd entry) with
         | Some performance => Dict.set (fst entry) performance results
         | None => results
         end)
      market_data acc
    = acc ++ flat_map
               (fun entry =>
                  match calculate_worst_5day_performance (snd entry) with
                  | Some performance => [(fst entry, performance)]
                  | None => []
                  end)
               market_data.
Proof.
  induction market_data as [|[k hist] md IH]; intros acc Hnd Hfresh; simpl.
  - now rewrite app_nil_r.
  - inversion Hnd as [|? ? Hnotin Hnd']; subst.
    destruct (calculate_worst_5day_performance hist) as [perf|].
    + rewrite IH; [|exact Hnd'|].
      * rewrite set_absent, <- app_assoc; [reflexivity|].
        apply mem_false_iff. apply Hfresh. now left.
      * intros k' Hk'. rewrite keys_set.
        replace (Dict.mem k acc) with false
          by (symmetry; apply mem_false_iff; apply Hfresh; now left).
        unfold Dict.keys at 1. intros Hin. apply in_app_or in Hin.
        destruct Hin as [Hin|[<-|[]]].
        -- apply (Hfresh k'); [now right | exact Hin].
        -- now apply Hnotin.
    + apply IH; [exact Hnd'|]. intros k' Hk'. apply Hfresh. now right.
Qed.

(** X21: on a dictionary of histories, [calculate_performance_for_multiple]
    returns, in the order of the histories, the tickers whose evaluation
    gives a result, each with the result of its own history; a ticker
    whose history is too short is left out. *)
Theorem performance_for_each_ticker market_data :
  NoDup (Dict.keys market_data) ->
  calculate_performance_for_multiple market_data
  = flat_map
      (fun entry =>
         match calculate_worst_5day_performance (snd entry) with
         | Some performance => [(fst entry, performance)]
         | None => []
         end)
      market_data.
Proof.
  intros Hnd. unfold calculate_performance_for_multiple.
  rewrite performance_fold; [reflexivity | exact Hnd|].
  intros k _ [].
Qed.

(** The dip scenario next to a history of three rows. *)
Lemma performance_for_each_ticker_witness :
  Dict.keys
    (calculate_performance_for_multiple
       [("T"%string, dip); ("U"%string, gap)])
  = ["T"%string].
Proof.
  rewrite (performance_for_each_ticker
             [("T"%string, dip); ("U"%string, gap)]).
  - reflexivity.
  - repeat constructor; simpl; intuition discriminate.
Defined.

End RankingFacts.

(** ** The ticker universe *)

Module UniverseFacts.
Import Universe.

Lemma cell_eqb_eq c s : cell_eqb c s = true <-> c = Some s.
Proof.
  unfold cell_eqb. destruct c as [s'|].
  - rewrite String.eqb_eq. split; [now intros -> | now intros [= ->]].
  - split; discriminate.
Qed.

Lemma cell_match_eq a b : cell_match a b = true <-> a = b.
Proof.
  unfold cell_match. destruct a as [s|], b as [s'|].
  - rewrite String.eqb_eq. split; [now intros -> | now intros [= ->]].
  - split; discriminate.
  - split; discriminate.
  - split; reflexivity.
Qed.

Lemma isin_In c values : isin c values = true <-> In c values.
Proof.
  unfold isin. rewrite existsb_exists. split.
  - intros (x & Hin & Heq). apply cell_match_eq in Heq. now subst.
  - intros Hin. exists c. split; [exact Hin | now apply cell_match_eq].
Qed.

Lemma isin_strings c values :
  isin c (strings values) = true <-> exists s, c = Some s /\ In s values.
Proof.
  rewrite isin_In. unfold strings. rewrite in_map_iff. split.
  - intros (s & <- & Hin). now exists s.
  - intros (s & -> & Hin). now exists s.
Qed.

Lemma all_index_tickers_In fetchers indices t :
  In t (all_index_tickers fetchers indices)
  <-> exists index_name tickers,
        In index_name indices /\ valid_index index_name = true
        /\ fetchers index_name = Some tickers /\ In t tickers.
Proof.
  unfold all_index_tickers, fetch_index_tickers. rewrite in_flat_map. split.
  - intros (index_name & Hin & Ht).
    destruct (valid_index index_name) eqn:Hv; [|contradiction].
    destruct (fetchers index_name) as [tickers|] eqn:Hf; [|contradiction].
    now exists index_name, tickers.
  - intros (index_name & tickers & Hin & Hv & Hf & Ht).
    exists index_name. split; [exact Hin|]. now rewrite Hv, Hf.
Qed.

(** The rows that [load_metadata] keeps. *)
Lemma load_metadata_In load_year raw row :
  In row (load_metadata load_year raw)
  <-> exists r year,
        In r raw /\ raw_founding_year r = Some year
        /\ row = {| r_ticker := raw_ticker r;
                    r_company_name := raw_company_name r;
                    r_founding_year := year;
                    r_country := raw_country r;
                    r_index := raw_index r;
                    r_notes := raw_notes r;
                    r_company_age_years := None |}
        /\ valid_row load_year row = true.
Proof.
  unfold load_metadata, dropna_founding_year.
  rewrite filter_In, in_flat_map. split.
  - intros [(r & Hin & Hrow) Hv].
    destruct (raw_founding_year r) as [year|] eqn:Hy; [|contradiction].
    destruct Hrow as [<-|[]]. exists r, year. auto.
  - intros (r & year & Hin & Hy & -> & Hv). split; [|exact Hv].
    exists r. split; [exact Hin|]. rewrite Hy. now left.
Qed.

Lemma valid_row_spec load_year row :
  valid_row load_year row = true
  <-> 1600 <= r_founding_year row <= load_year
      /\ exists index_name,
           r_index row = Some index_name /\ valid_index index_name = true.
Proof.
  unfold valid_row, valid_founding_year.
  rewrite !andb_true_iff, !Z.leb_le. split.
  - intros [[H1 H2] Hi]. split; [lia|].
    destruct (r_index row) as [index_name|]; [|discriminate].
    now exists index_name.
  - intros [[H1 H2] (index_name & -> & Hv)]. auto.
Qed.

Lemma filter_by_age_In current_year df min_age row :
  In row (filter_by_age current_year df min_age)
  <-> exists row0,
        In row0 df /\ row = with_age current_year row0
        /\ min_age <= current_year - r_founding_year row0.
Proof.
  unfold filter_by_age. rewrite filter_In, in_map_iff. split.
  - intros [(row0 & <- & Hin) Hage]. exists row0.
    unfold age_at_least in Hage. simpl in Hage. apply Z.leb_le in Hage.
    auto.
  - intros (row0 & Hin & -> & Hage). split; [now exists row0|].
    unfold age_at_least. simpl. now apply Z.leb_le.
Qed.

Section WithUpper.
Variable upper : string -> string.

Lemma filter_by_country_In df countries row :
  In row (filter_by_country upper df (Some countries))
  <-> In row df
      /\ (countries = []
          \/ exists country wanted,
               r_country row = Some country /\ In wanted countries
               /\ upper wanted = upper country).
Proof.
  unfold filter_by_country. destruct countries as [|c0 cs].
  - split; [intros H; split; [exact H | now left] | tauto].
  - rewrite filter_In. set (l := c0 :: cs).
    assert (H : isin (option_map upper (r_country row))
                  (strings (map upper l)) = true
                <-> exists country wanted,
                      r_country row = Some country /\ In wanted l
                      /\ upper wanted = upper country).
    { rewrite isin_strings. split.
      - intros (s & Hs & Hin). apply in_map_iff in Hin.
        destruct Hin as (wanted & Hw & Hin).
        destruct (r_country row) as [country|]; [|discriminate].
        injection Hs as Hs. exists country, wanted.
        split; [reflexivity|]. split; [exact Hin | congruence].
      - intros (country & wanted & -> & Hin & Hw).
        exists (upper country). split; [reflexivity|].
        apply in_map_iff. now exists wanted. }
    rewrite H. split.
    + intros [Hin Hc]. split; [exact Hin | now right].
    + intros [Hin [Hnil|Hc]]; [discriminate | auto].
Qed.

(** X22: a cell is a candidate of the backtest exactly when the CSV has
    a row with that ticker cell which is in the listing of a supported
    index of the engine whose fetch succeeded, and the row has a founding
    year from 1600 to the year of the load and a supported index, is old
    enough, and, when countries are given, has the country of one of them
    up to case.  An unsupported index name and a failed fetch take no
    ticker away from the other indices.  A row without ticker (NaN) is a
    candidate under the same conditions, when a listing holds NaN, as
    that of the S&P 500 can. *)
Theorem candidates_pass_every_filter fetchers indices raw min_age
  countries load_year current_year (c : cell) :
  In c (_get_candidate_tickers upper fetchers indices raw min_age countries
          load_year current_year)
  <-> exists row year index_name,
        In row raw /\ raw_ticker row = c
        /\ (exists listing tickers,
               In listing indices /\ valid_index listing = true
               /\ fetchers listing = Some tickers /\ In c tickers)
        /\ raw_founding_year row = Some year
        /\ 1600 <= year <= load_year
        /\ raw_index row = Some index_name
        /\ valid_index index_name = true
        /\ min_age <= current_year - year
        /\ (countries = []
            \/ exists country wanted,
                 raw_country row = Some country /\ In wanted countries
                 /\ upper wanted = upper country).
Proof.
  unfold _get_candidate_tickers.
  set (all := all_index_tickers fetchers indices).
  set (aged := filter_by_age current_year
                 (get_companies_by_tickers (load_metadata load_year raw) all)
                 min_age).
  assert (Hfinal : forall row,
             In row (match countries with
                     | [] => aged
                     | _ :: _ => filter_by_country upper aged (Some countries)
                     end)
             <-> In row aged
                 /\ (countries = []
                     \/ exists country wanted,
                          r_country row = Some country /\ In wanted countries
                          /\ upper wanted = upper country)).
  { intros row. destruct countries as [|c0 cs] eqn:Hc.
    - split; [intros H; split; [exact H | now left] | tauto].
    - apply filter_by_country_In. }
  rewrite in_map_iff. split.
  - intros (row & <- & Hin). apply Hfinal in Hin. destruct Hin as [Hin Hc].
    apply filter_by_age_In in Hin. destruct Hin as (row0 & Hin & -> & Hage).
    unfold get_companies_by_tickers in Hin. apply filter_In in Hin.
    destruct Hin as [Hin Hisin]. apply load_metadata_In in Hin.
    destruct Hin as (r & year & Hr & Hy & -> & Hv).
    apply valid_row_spec in Hv. simpl in Hv.
    destruct Hv as [Hyear (index_name & Hi & Hv)].
    apply isin_In in Hisin. simpl in Hisin.
    apply all_index_tickers_In in Hisin. simpl in *.
    exists r, year, index_name. tauto.
  - intros (r & year & index_name & Hr & <- & Hall & Hy & Hyear
            & Hi & Hv & Hage & Hc).
    set (row0 := {| r_ticker := raw_ticker r;
                    r_company_name := raw_company_name r;
                    r_founding_year := year;
                    r_country := raw_country r;
                    r_index := raw_index r;
                    r_notes := raw_notes r;
                    r_company_age_years := None |}).
    exists (with_age current_year row0). split; [reflexivity|].
    apply Hfinal. split; [|exact Hc].
    apply filter_by_age_In. exists row0.
    split; [|split; [reflexivity | exact Hage]].
    unfold get_companies_by_tickers. apply filter_In. split.
    + apply load_metadata_In. exists r, year.
      split; [exact Hr|]. split; [exact Hy|]. split; [reflexivity|].
      apply valid_row_spec. simpl. split; [exact Hyear|].
      now exists index_name.
    + apply isin_In. simpl. now apply all_index_tickers_In.
Qed.
End WithUpper.

(** The first element that a filter keeps. *)
Lemma filter_head {A} (f : A -> bool) (l : list A) :
  match filter f l with
  | [] => forall x, In x l -> f x = false
  | x :: _ =>
      exists before after,
        l = before ++ x :: after /\ f x = true
        /\ forall y, In y before -> f y = false
  end.
Proof.
  induction l as [|a l IH]; simpl; [intros x []|].
  destruct (f a) eqn:Ha.
  - exists [], l. split; [reflexivity|]. split; [exact Ha | intros y []].
  - destruct (filter f l) as [|x rest].
    + intros x [<-|Hx]; [exact Ha | now apply IH].
    + destruct IH as (before & after & -> & Hx & Hb).
      exists (a :: before), after. split; [reflexivity|].
      split; [exact Hx|]. intros y [<-|Hy]; [exact Ha | now apply Hb].
Qed.

Lemma valid_founding_year_later load_year later year :
  valid_founding_year load_year year = true ->
  valid_founding_year (load_year + Z.of_nat later) year = true.
Proof.
  unfold valid_founding_year. rewrite !andb_true_iff, !Z.leb_le. lia.
Qed.

(** X23: the checks of [load_metadata] are those of the two validators of
    [Company], and not those of its text fields.  On loaded metadata, in
    the year of the load or a later one, [get_company] finds no row
    exactly when no row has the ticker; otherwise it looks at the first
    row of the ticker only: it raises when the company name, the country
    or the notes of that row are empty (NaN), and it returns the company
    of that row when all three are there (the notes as a string, or no
    column [notes] at all); it never raises for the founding year or the
    index. *)
Theorem get_company_on_loaded_metadata load_year later raw ticker :
  match get_company (load_year + Z.of_nat later)
          (load_metadata load_year raw) ticker with
  | NotFound =>
      forall row, In row (load_metadata load_year raw) ->
                  r_ticker row <> Some ticker
  | Found company =>
      exists before row after,
        load_metadata load_year raw = before ++ row :: after
        /\ (forall r, In r before -> r_ticker r <> Some ticker)
        /\ r_ticker row = Some ticker
        /\ co_ticker company = ticker
        /\ r_company_name row = Some (co_company_name company)
        /\ r_country row = Some (co_country company)
        /\ r_index row = Some (co_index company)
        /\ co_founding_year company = r_founding_year row
        /\ ((r_notes row = None /\ co_notes company = None)
            \/ exists notes,
                 r_notes row = Some (Some notes)
                 /\ co_notes company = Some notes)
        /\ 1600 <= co_founding_year company <= load_year
        /\ valid_index (co_index company) = true
  | Invalid =>
      exists before row after,
        load_metadata load_year raw = before ++ row :: after
        /\ (forall r, In r before -> r_ticker r <> Some ticker)
        /\ r_ticker row = Some ticker
        /\ (r_company_name row = None \/ r_country row = None
            \/ r_notes row = Some None)
  end.
Proof.
  unfold get_company.
  pose proof (filter_head (fun row => cell_eqb (r_ticker row) ticker)
                (load_metadata load_year raw)) as H.
  destruct (filter _ (load_metadata load_year raw)) as [|row rest].
  - intros row Hin Heq. apply cell_eqb_eq in Heq.
    rewrite (H row Hin) in Heq. discriminate.
  - destruct H as (before & after & Hl & Hrow & Hb).
    apply cell_eqb_eq in Hrow.
    assert (Hb' : forall r, In r before -> r_ticker r <> Some ticker).
    { intros r Hr Heq. apply cell_eqb_eq in Heq.
      rewrite (Hb r Hr) in Heq. discriminate. }
    assert (Hv : valid_row load_year row = true).
    { assert (Hin : In row (load_metadata load_year raw)).
      { rewrite Hl. apply in_or_app. right. now left. }
      unfold load_metadata in Hin. now apply filter_In in Hin. }
    pose proof (proj1 (valid_row_spec load_year row) Hv)
      as [Hyear (index_name & Hi & Hvi)].
    unfold valid_row in Hv. apply andb_true_iff in Hv.
    destruct Hv as [Hvy _].
    unfold company_of_row. rewrite Hrow, Hi.
    rewrite (valid_founding_year_later load_year later _ Hvy), Hvi. simpl.
    destruct (r_company_name row) as [name|] eqn:Hn;
      [|exists before, row, after; rewrite Hn; tauto].
    destruct (r_country row) as [country|] eqn:Hc;
      [|exists before, row, after; rewrite Hn, Hc; tauto].
    destruct (r_notes row) as [[notes|]|] eqn:Hnotes.
    + exists before, row, after. simpl. rewrite Hn, Hc, Hi, Hnotes.
      split; [exact Hl|]. split; [exact Hb'|]. split; [exact Hrow|].
      repeat (split; [reflexivity|]).
      split; [right; now exists notes|]. split; [lia | exact Hvi].
    + exists before, row, after. rewrite Hn, Hc, Hnotes. tauto.
    + exists before, row, after. simpl. rewrite Hn, Hc, Hi, Hnotes.
      split; [exact Hl|]. split; [exact Hb'|]. split; [exact Hrow|].
      repeat (split; [reflexivity|]).
      split; [left; now split|]. split; [lia | exact Hvi].
Qed.

Lemma fetch_all_get fetchers k indices :
  forall acc,
    Dict.get k
      (fold_left
         (fun results index_name =>
            match fetch_index_tickers fetchers index_name with
            | Some tickers => Dict.set index_name tickers results
            | None => Dict.set index_name [] results
            end)
         indices acc)
    = if existsb (String.eqb k) indices
      then Some (match fetch_index_tickers fetchers k with
                 | Some tickers => tickers
                 | None => []
                 end)
      else Dict.get k acc.
Proof.
  induction indices as [|i indices IH]; intros acc; simpl; [reflexivity|].
  rewrite IH. destruct (existsb (String.eqb k) indices);
    [now rewrite orb_true_r|].
  rewrite orb_false_r.
  destruct (fetch_index_tickers fetchers i) as [tickers|] eqn:Hf;
    rewrite ResultFacts.get_set;
    destruct (String.eqb_spec k i) as [->|Hne]; try reflexivity;
    now rewrite Hf.
Qed.

Lemma fetch_all_NoDup fetchers indices :
  forall acc,
    NoDup (Dict.keys acc) ->
    NoDup (Dict.keys
             (fold_left
                (fun results index_name =>
                   match fetch_index_tickers fetchers index_name with
                   | Some tickers => Dict.set index_name tickers results
                   | None => Dict.set index_name [] results
                   end)
                indices acc)).
Proof.
  induction indices as [|i indices IH]; intros acc Hnd; simpl; [exact Hnd|].
  apply IH. destruct (fetch_index_tickers fetchers i);
    now apply DictFacts.NoDup_keys_set.
Qed.

(** X28: [fetch_all_indices] raises for no list of names, although its
    docstring announces a [ValueError]: the result has each name asked
    for as a key, once, and no other key; a name maps to the tickers of
    its fetcher when it is a supported index and the fetch succeeds, and
    to the empty list when it is not supported or the fetch fails. *)
Theorem fetch_all_indices_never_raises fetchers indices :
  NoDup (Dict.keys (fetch_all_indices fetchers indices))
  /\ (forall name,
         In name (Dict.keys (fetch_all_indices fetchers indices))
         <-> In name indices)
  /\ (forall name,
         In name indices ->
         Dict.get name (fetch_all_indices fetchers indices)
         = Some (if valid_index name
                 then match fetchers name with
                      | Some tickers => tickers
                      | None => []
                      end
                 else [])).
Proof.
  assert (Hget : forall name,
             Dict.get name (fetch_all_indices fetchers indices)
             = if existsb (String.eqb name) indices
               then Some (if valid_index name
                          then match fetchers name with
                               | Some tickers => tickers
                               | None => []
                               end
                          else [])
               else None).
  { intros name. unfold fetch_all_indices. rewrite fetch_all_get.
    unfold fetch_index_tickers. simpl.
    now destruct (existsb _ indices), (valid_index name). }
  assert (Hex : forall name,
             existsb (String.eqb name) indices = true <-> In name indices).
  { intros name. rewrite existsb_exists. split.
    - intros (x & Hin & Heq). apply String.eqb_eq in Heq. now subst.
    - intros Hin. exists name. split; [exact Hin | apply String.eqb_refl]. }
  split; [apply fetch_all_NoDup; constructor|]. split.
  - intros name. rewrite <- Hex. split.
    + intros Hin. unfold Dict.keys in Hin. apply in_map_iff in Hin.
      destruct Hin as ([k v] & <- & Hin). simpl.
      apply DictFacts.In_get in Hin; [|apply fetch_all_NoDup; constructor].
      rewrite Hget in Hin.
      now destruct (existsb (String.eqb k) indices).
    + intros He. specialize (Hget name). rewrite He in Hget.
      apply DictFacts.get_In in Hget. unfold Dict.keys.
      apply in_map_iff. eexists. split; [|exact Hget]. reflexivity.
  - intros name Hin. rewrite Hget. apply Hex in Hin. now rewrite Hin.
Qed.

End UniverseFacts.

(** ** The screening workflow *)

Module ScreenerFacts.
Import MarketData PerformanceFilter Ranking Universe Screener DictFacts
  UniverseFacts RankingFacts.





Section WithUpper.
Variable upper : string -> string.



End WithUpper.


End ScreenerFacts.

(** ** The report and the curve *)

Module ReportFacts.
Import MarketData Engine DictFacts EngineFacts Positions PositionFacts
  RunFacts Ranking Reporter Plotter Scenarios.

(** The exit prices of a full run are closes of the data. *)
Lemma full_run_exit_prices lb inv fr data dates now t p :
  positive_closes data ->
  In t (all_trades
          (_close_remaining_positions
             (screenings (fresh lb inv fr data) dates) now)) ->
  exit_price t = Some p -> (0 < p)%Q.
Proof.
  intros Hdata Hin Hp.
  set (e := screenings (fresh lb inv fr data) dates) in *.
  destruct (run_inv_screenings inv data (fun x => (0 < x)%Q)
              (fun k hist x => positive_closes_In data k hist x Hdata)
              dates _ (run_inv_fresh inv data _ lb fr))
    as (_ & Hd & Hnd & _ & Hc).
  fold e in Hd, Hnd, Hc.
  assert (Hwf : wf e).
  { unfold e. destruct (screenings_are_calls dates (fresh lb inv fr data))
      as [cs ->]. apply wf_calls. }
  destruct Hwf as (_ & Hopen & _).
  unfold all_trades in Hin. rewrite close_remaining_as_batch in Hin.
  rewrite (batch_ledger _ (forced_exit_shape e now)) in Hin; auto.
  rewrite (batch_open_positions _ (forced_exit_shape e now)) in Hin
    by exact Hnd.
  apply in_app_or in Hin. destruct Hin as [Hin|Hin].
  - apply in_app_or in Hin. destruct Hin as [Hin|Hin].
    + rewrite Forall_forall in Hc.
      destruct (Hc t Hin) as [(p' & x & Hp' & _ & _ & _ & Hlt) [He _]].
      rewrite Hp in Hp'. injection Hp' as <-.
      now apply Qlt_trans with (entry_price t).
    + apply in_flat_map in Hin. destruct Hin as ([k t0] & Hk & Hin).
      unfold moved, forced_exit, closing_price in Hin. simpl in Hin.
      rewrite Hd in Hin.
      destruct (Dict.get k data) as [hist|] eqn:Hg; [|contradiction].
      destruct (get_price_on_date hist now) as [q|] eqn:Hq;
        [|contradiction].
      destruct Hin as [<-|[]]. simpl in Hp. injection Hp as <-.
      apply positive_closes_In with data k hist; [exact Hdata| |].
      * now apply get_In.
      * now apply get_price_on_date_close with now.
  - unfold Dict.values in Hin. apply in_map_iff in Hin.
    destruct Hin as ([k t0] & <- & Hin). apply filter_In in Hin.
    destruct Hin as [Hin _]. destruct (Hopen k t0 Hin) as [_ (_ & He & _)].
    simpl in Hp. congruence.
Qed.

Lemma Forall2_map_r {A B} (P : A -> B -> Prop) (f : A -> B) (l : list A) :
  Forall (fun a => P a (f a)) l -> Forall2 P l (map f l).
Proof.
  induction 1; simpl; constructor; auto.
Qed.

Lemma wf_full_run lb inv fr data dates now :
  wf (_close_remaining_positions (screenings (fresh lb inv fr data) dates)
        now).
Proof.
  apply (keeps_close_remaining wf).
  - intros e k p d. apply wf_close.
  - destruct (screenings_are_calls dates (fresh lb inv fr data)) as [cs ->].
    apply wf_calls.
Qed.

Lemma reported_round2 x exact :
  (x == exact)%Q -> reported_as (Some (round2 x)) exact.
Proof.
  intros Heq. exists (round2 x). split; [reflexivity|].
  split; [apply EvaluatorFacts.round2_two_decimals|].
  pose proof (WindowFacts.round2_close x) as Hc.
  apply Qabs_Qle_condition in Hc.
  apply Qabs_Qlt_condition. split; lra.
Qed.

(** X25: with a positive investment and positive closes, the saved report
    of a full run has, for every closed trade, an exit price, a pnl and a
    pnl in percent of two decimals, each less than 0.01 away from the
    exact value: the exit price, investment / entry * (exit - entry), and
    the price change from entry to exit in percent, whatever the
    investment.  A trade still open has no exit date, exit price, pnl or
    percentage.  The number of closed trades of the metadata is the
    length of the ledger. *)
Theorem report_rows_of_a_full_run lb inv fr data dates now :
  (0 < inv)%Q ->
  positive_closes data ->
  Forall2
    (fun t row =>
       match exit_price t with
       | Some p =>
           reported_as (tr_exit_price row) p
           /\ reported_as (tr_pnl row)
                (inv / entry_price t * (p - entry_price t))
           /\ reported_as (tr_pnl_pct row)
                (calculate_return (entry_price t) p)
       | None =>
           tr_exit_date row = None /\ tr_exit_price row = None
           /\ tr_pnl row = None /\ tr_pnl_pct row = None
       end)
    (trades (_generate_results
               (_close_remaining_positions
                  (screenings (fresh lb inv fr data) dates) now)))
    (rp_trades
       (save_backtest_results
          (_generate_results
             (_close_remaining_positions
                (screenings (fresh lb inv fr data) dates) now))))
  /\ rm_closed_trades
       (rp_metadata
          (save_backtest_results
             (_generate_results
                (_close_remaining_positions
                   (screenings (fresh lb inv fr data) dates) now))))
     = Z.of_nat
         (length
            (closed_trades
               (_close_remaining_positions
                  (screenings (fresh lb inv fr data) dates) now))).
Proof.
  intros Hinv Hdata.
  set (e := _close_remaining_positions
              (screenings (fresh lb inv fr data) dates) now).
  split.
  - unfold save_backtest_results. simpl rp_trades.
    apply Forall2_map_r. apply Forall_forall. intros t Hin.
    change (In t (all_trades e)) in Hin.
    destruct (full_run_trades lb inv fr data dates now t Hdata Hin)
      as (He & Hs & Hsettled).
    pose proof (full_run_exit_prices lb inv fr data dates now t) as Hpos.
    specialize (fun p => Hpos p Hdata Hin).
    unfold pnl_settled in Hsettled. unfold trade_row. simpl.
    destruct (exit_price t) as [p|] eqn:Hp.
    + destruct (pnl t) as [x|] eqn:Hx; [|contradiction].
      specialize (Hpos p eq_refl).
      assert (Hp0 : Qeq_bool p 0 = false).
      { destruct (Qeq_bool p 0) eqn:Heq; [|reflexivity].
        apply Qeq_bool_iff in Heq. rewrite Heq in Hpos.
        now apply Qlt_irrefl in Hpos. }
      assert (Hne : ~ (entry_price t == 0)%Q).
      { intros H0. rewrite H0 in He. now apply Qlt_irrefl in He. }
      assert (Hinvested : (entry_price t * shares t == inv)%Q).
      { rewrite Hs. field. exact Hne. }
      assert (Hlt : Qltb 0 (entry_price t * shares t) = true).
      { apply SelectionFacts.Qltb_lt. now rewrite Hinvested. }
      rewrite Hp0, Hlt. simpl.
      split; [apply reported_round2; reflexivity|]. split.
      * apply reported_round2. now rewrite Hsettled, Hs.
      * apply reported_round2. unfold calculate_return.
        rewrite Hsettled, Hs. field. split; [exact Hne|].
        intros H0. rewrite H0 in Hinv. now apply Qlt_irrefl in Hinv.
    + destruct (pnl t) as [x|] eqn:Hx; [contradiction|].
      split; [|now repeat split].
      destruct (wf_full_run lb inv fr data dates now)
        as (_ & Hopen & Hclosed & _).
      fold e in Hopen, Hclosed. unfold all_trades in Hin.
      apply in_app_or in Hin. destruct Hin as [Hin|Hin].
      * destruct (Hclosed t Hin) as (_ & Hne & _). congruence.
      * unfold Dict.values in Hin. apply in_map_iff in Hin.
        destruct Hin as ([k t0] & <- & Hin).
        now destruct (Hopen k t0 Hin) as [_ (Hd & _)].
  - simpl. unfold Dict.values. rewrite length_app, length_map. lia.
Qed.

(** The swing scenario, run to day 400: the rows of its two trades. *)
Lemma report_rows_of_a_full_run_witness :
  Forall2
    (fun t row =>
       match exit_price t with
       | Some p =>
           reported_as (tr_exit_price row) p
           /\ reported_as (tr_pnl row)
                (50 / entry_price t * (p - entry_price t))
           /\ reported_as (tr_pnl_pct row)
                (calculate_return (entry_price t) p)
       | None =>
           tr_exit_date row = None /\ tr_exit_price row = None
           /\ tr_pnl row = None /\ tr_pnl_pct row = None
       end)
    (trades (_generate_results
               (_close_remaining_positions
                  (screenings (fresh 1 50 7 [("T"%string, swing)])
                     [noon 35; noon 42])
                  (noon 400))))
    (rp_trades
       (save_backtest_results
          (_generate_results
             (_close_remaining_positions
                (screenings (fresh 1 50 7 [("T"%string, swing)])
                   [noon 35; noon 42])
                (noon 400))))).
Proof.
  refine (proj1 (report_rows_of_a_full_run
                   1 50 7 [("T"%string, swing)] [noon 35; noon 42] (noon 400)
                   _ _)).
  - reflexivity.
  - repeat constructor.
Defined.

(** *** The curve of the cumulative pnl *)

Lemma fold_left_Qplus l :
  forall acc, (fold_left Qplus l acc == acc + fold_right Qplus 0 l)%Q.
Proof.
  induction l as [|x l IH]; intros acc; simpl.
  - ring.
  - rewrite IH. ring.
Qed.

Lemma sum_right_perm l l' :
  Permutation l l' -> (fold_right Qplus 0 l == fold_right Qplus 0 l')%Q.
Proof.
  induction 1; simpl.
  - reflexivity.
  - now rewrite IHPermutation.
  - ring.
  - now rewrite IHPermutation1.
Qed.

Lemma sumQ_perm l l' : Permutation l l' -> (sumQ l == sumQ l')%Q.
Proof.
  intros H. unfold sumQ. rewrite !fold_left_Qplus.
  now rewrite (sum_right_perm l l' H).
Qed.

Lemma insert_by_exit_perm x l : Permutation (insert_by_exit x l) (x :: l).
Proof.
  induction l as [|y l IH]; simpl; [reflexivity|].
  destruct (fst y <? fst x); [|reflexivity].
  rewrite IH. apply perm_swap.
Qed.

Lemma sort_by_exit_perm l : Permutation (sort_by_exit l) l.
Proof.
  unfold sort_by_exit. induction l as [|x l IH]; simpl; [reflexivity|].
  rewrite insert_by_exit_perm. now constructor.
Qed.

Lemma insert_by_exit_sorted x l :
  StronglySorted by_exit l -> StronglySorted by_exit (insert_by_exit x l).
Proof.
  induction 1 as [|y l Hs IH Hy]; simpl.
  - constructor; constructor.
  - destruct (Z.ltb_spec (fst y) (fst x)) as [Hlt|Hge].
    + constructor; [exact IH|].
      apply Forall_forall. intros z Hz.
      apply (Permutation_in _ (insert_by_exit_perm x l)) in Hz.
      destruct Hz as [<-|Hz]; [unfold by_exit; lia|].
      rewrite Forall_forall in Hy. now apply Hy.
    + constructor; [now constructor|].
      constructor; [exact Hge|].
      apply Forall_forall. intros z Hz. rewrite Forall_forall in Hy.
      specialize (Hy z Hz). unfold by_exit in *. lia.
Qed.

Lemma sort_by_exit_sorted l : StronglySorted by_exit (sort_by_exit l).
Proof.
  unfold sort_by_exit. induction l as [|x l IH]; simpl; [constructor|].
  now apply insert_by_exit_sorted.
Qed.

Lemma sorted_dates l :
  StronglySorted by_exit l ->
  StronglySorted Z.le (map (fun x => strptime (fst x)) l).
Proof.
  induction 1 as [|x l Hs IH Hx]; simpl; constructor.
  - exact IH.
  - apply Forall_forall. intros z Hz. apply in_map_iff in Hz.
    destruct Hz as (y & <- & Hy). rewrite Forall_forall in Hx.
    specialize (Hx y Hy). unfold by_exit in Hx. unfold strptime, us_per_day.
    nia.
Qed.

Lemma final_pnl_cons a points :
  final_pnl (a :: points)
  = match final_pnl points with
    | Some v => Some v
    | None => Some (snd a)
    end.
Proof.
  unfold final_pnl. simpl. destruct (rev points) as [|b l]; reflexivity.
Qed.

(** The loop of the curve on trades that have a pnl: one point per
    trade, at the exit dates, and the last point is the sum. *)
Lemma accumulate_spec closed :
  (forall x, In x closed -> pnl (snd x) <> None) ->
  forall current_pnl,
    exists points,
      accumulate current_pnl closed = Some points
      /\ map fst points = map (fun x => strptime (fst x)) closed
      /\ match final_pnl points with
         | Some v =>
             (v == current_pnl
                   + fold_right Qplus 0 (pnl_values (map snd closed)))%Q
         | None => closed = []
         end.
Proof.
  induction closed as [|[d t] closed IH]; intros Hp current_pnl; simpl.
  - exists []. repeat split.
  - destruct (pnl t) as [x|] eqn:Hx;
      [|exfalso; now apply (Hp (d, t) (or_introl eq_refl))].
    destruct (IH (fun y Hy => Hp y (or_intror Hy)) (current_pnl + x)%Q)
      as (points & -> & Hdates & Hfinal).
    eexists. split; [reflexivity|]. simpl. split; [now rewrite Hdates|].
    rewrite final_pnl_cons. destruct (final_pnl points) as [v|].
    + rewrite Hfinal. ring.
    + subst closed. simpl. ring.
Qed.

Lemma dated_closed closed :
  (forall t, In t closed -> exit_date t <> None) ->
  map snd (dated closed) = closed.
Proof.
  unfold dated. induction closed as [|t closed IH]; intros H; simpl;
    [reflexivity|].
  destruct (exit_date t) as [d|] eqn:Hd;
    [|exfalso; now apply (H t (or_introl eq_refl))].
  simpl. f_equal. apply IH. intros t' Ht'. apply H. now right.
Qed.

Lemma dated_open open :
  (forall t, In t open -> exit_date t = None) -> dated open = [].
Proof.
  unfold dated. induction open as [|t open IH]; intros H; simpl;
    [reflexivity|].
  rewrite (H t (or_introl eq_refl)). simpl. apply IH.
  intros t' Ht'. apply H. now right.
Qed.

Lemma pnl_values_perm l l' :
  Permutation l l' -> Permutation (pnl_values l) (pnl_values l').
Proof. apply Permutation_flat_map. Qed.

(** X26: for the result of every state reached by calls on a new engine,
    the curve of the cumulative pnl is drawn without error, has one point
    per closed trade and none for an open one, its dates do not
    decrease, and its last value, the one of the annotation, is the total
    pnl of the result; there is no point exactly when no trade is
    closed. *)
Theorem curve_ends_at_the_total_pnl lb inv fr data cs :
  exists points,
    cumulative_pnl (_generate_results (calls (fresh lb inv fr data) cs))
    = Some points
    /\ length points = length (closed_trades (calls (fresh lb inv fr data) cs))
    /\ StronglySorted Z.le (map fst points)
    /\ match final_pnl points with
       | Some v =>
           (v == total_pnl
                   (_generate_results (calls (fresh lb inv fr data) cs)))%Q
       | None => closed_trades (calls (fresh lb inv fr data) cs) = []
       end.
Proof.
  set (e := calls (fresh lb inv fr data) cs).
  destruct (wf_calls lb inv fr data cs) as (_ & Hopen & Hclosed & _).
  fold e in Hopen, Hclosed.
  unfold cumulative_pnl. simpl trades. simpl total_pnl.
  assert (Hd : dated (closed_trades e ++ Dict.values (open_positions e))
               = dated (closed_trades e)).
  { assert (Ho : dated (Dict.values (open_positions e)) = []).
    { apply dated_open. intros t Hin. unfold Dict.values in Hin.
      apply in_map_iff in Hin. destruct Hin as ([k t0] & <- & Hin).
      now destruct (Hopen k t0 Hin) as [_ (H & _)]. }
    unfold dated in *. now rewrite flat_map_app, Ho, app_nil_r. }
  rewrite Hd.
  assert (Hsnd : map snd (dated (closed_trades e)) = closed_trades e).
  { apply dated_closed. intros t Hin. now destruct (Hclosed t Hin). }
  set (sorted := sort_by_exit (dated (closed_trades e))).
  pose proof (sort_by_exit_perm (dated (closed_trades e))) as Hperm.
  fold sorted in Hperm.
  assert (Hperm' : Permutation (map snd sorted) (closed_trades e)).
  { rewrite <- Hsnd. now apply Permutation_map. }
  destruct (accumulate_spec sorted) with (current_pnl := 0%Q)
    as (points & Hacc & Hdates & Hfinal).
  { intros x Hx.
    assert (Hin : In (snd x) (closed_trades e)).
    { apply (Permutation_in _ Hperm'). now apply in_map. }
    now destruct (Hclosed (snd x) Hin) as (_ & _ & _ & H). }
  exists points. split; [exact Hacc|]. split.
  { rewrite <- (length_map fst points), Hdates, length_map.
    now rewrite <- (Permutation_length Hperm'), length_map. }
  split.
  - rewrite Hdates. apply sorted_dates. apply sort_by_exit_sorted.
  - destruct (final_pnl points) as [v|].
    + rewrite Hfinal. unfold sumQ. rewrite fold_left_Qplus.
      rewrite (sum_right_perm _ _ (pnl_values_perm _ _ Hperm')). ring.
    + rewrite Hfinal in Hperm. apply Permutation_nil in Hperm.
      rewrite <- Hsnd, Hperm. reflexivity.
Qed.

(** *** The bars of the holding periods *)

Lemma fold_max_le rest :
  forall first d, In d (first :: rest) -> d <= fold_left Z.max rest first.
Proof.
  induction rest as [|x rest IH]; intros first d Hin; simpl.
  - destruct Hin as [<-|[]]. lia.
  - destruct Hin as [<-|[<-|Hin]].
    + specialize (IH (Z.max first x) (Z.max first x) (or_introl eq_refl)).
      lia.
    + specialize (IH (Z.max first x) (Z.max first x) (or_introl eq_refl)).
      lia.
    + apply IH. now right.
Qed.

(** The bars are the counts of the eight ranges of the engine. *)
Lemma bin_counts_ranges first rest :
  bin_counts (bins first rest) (first :: rest)
  = map (fun r => count_in_range r (first :: rest)) ranges.
Proof.
  set (days := first :: rest).
  assert (Hmax : forall d, In d days -> d <= fold_left Z.max rest first)
    by apply fold_max_le.
  unfold bins, ranges, count_in_range.
  cbn [bin_counts map].
  repeat (apply f_equal2; [reflexivity|]).
  apply f_equal2; [|reflexivity]. f_equal.
  apply filter_ext_in. intros d Hd. specialize (Hmax d Hd).
  unfold in_range. destruct (Z.ltb_spec d (fold_left Z.max rest first + 1));
    [reflexivity | lia].
Qed.

Lemma distribution_count r days :
  In r ranges ->
  ResultFacts.count_of (snd r) (_create_holding_distribution days)
  = count_in_range r days.
Proof.
  intros Hr. unfold ResultFacts.count_of, _create_holding_distribution.
  destruct days as [|d days]; [reflexivity|].
  rewrite (ResultFacts.fold_count_day_get r (d :: days) Hr Dict.empty).
  now destruct (count_in_range r (d :: days)).
Qed.

Lemma filter_split (f g : Z -> bool) (l : list Z) :
  length (filter f l)
  = (length (filter f (filter g l))
     + length (filter (fun d => f d && negb (g d)) l))%nat.
Proof.
  induction l as [|d l IH]; simpl; [reflexivity|].
  destruct (g d); simpl; destruct (f d); simpl; lia.
Qed.

Lemma closed_holding_days_nonzero closed :
  closed_holding_days_of closed
  = filter (fun d => negb (d =? 0)) (plotted_holding_days closed).
Proof.
  unfold closed_holding_days_of, plotted_holding_days.
  induction closed as [|t closed IH]; simpl; [reflexivity|].
  rewrite IH, filter_app. f_equal.
  destruct (holding_days t) as [d|]; [|reflexivity].
  simpl. now destruct (d =? 0).
Qed.

Lemma zero_day_trades_count closed :
  zero_day_trades closed
  = length (filter (fun d => d =? 0) (plotted_holding_days closed)).
Proof.
  unfold zero_day_trades, plotted_holding_days.
  induction closed as [|t closed IH]; simpl; [reflexivity|].
  rewrite filter_app, length_app, <- IH.
  destruct (holding_days t) as [d|]; [|reflexivity].
  simpl. now destruct (d =? 0).
Qed.

Lemma plotted_open open :
  (forall t, In t open -> holding_days t = None) ->
  plotted_holding_days open = [].
Proof.
  unfold plotted_holding_days.
  induction open as [|t open IH]; intros H; simpl; [reflexivity|].
  rewrite (H t (or_introl eq_refl)). simpl. apply IH.
  intros t' Ht'. apply H. now right.
Qed.

Lemma plotted_closed closed :
  (forall t, In t closed -> holding_days t <> None) ->
  length (plotted_holding_days closed) = length closed.
Proof.
  unfold plotted_holding_days.
  induction closed as [|t closed IH]; intros H; simpl; [reflexivity|].
  rewrite length_app, IH by (intros t' Ht'; apply H; now right).
  destruct (holding_days t) eqn:Hd; [reflexivity|].
  exfalso. now apply (H t (or_introl eq_refl)).
Qed.

(** The count of a range over all day counts, from the count over those
    that are not 0. *)
Lemma count_with_zero_days r days :
  count_in_range r days
  = (count_in_range r (filter (fun d => negb (d =? 0)%Z) days)
     + if in_range 0%Z r
       then length (filter (fun d => (d =? 0)%Z) days)
       else 0)%nat.
Proof.
  unfold count_in_range.
  rewrite (filter_split (fun d => in_range d r) (fun d => negb (d =? 0))).
  f_equal. destruct (in_range 0 r) eqn:H0.
  - f_equal. apply filter_ext. intros d. rewrite negb_involutive.
    destruct (Z.eqb_spec d 0) as [->|_];
      [now rewrite H0 | apply andb_false_r].
  - rewrite filter_none; [reflexivity|].
    intros d _. rewrite negb_involutive.
    destruct (Z.eqb_spec d 0) as [->|_];
      [now rewrite H0 | apply andb_false_r].
Qed.

Lemma sum_of_counts_cons rs d days :
  fold_right Nat.add O (map (fun r => count_in_range r (d :: days)) rs)
  = (fold_right Nat.add O
       (map (fun r => if in_range d r then 1%nat else 0%nat) rs)
     + fold_right Nat.add O (map (fun r => count_in_range r days) rs))%nat.
Proof.
  induction rs as [|r rs IH]; simpl; [reflexivity|].
  rewrite IH. unfold count_in_range. simpl.
  destruct (in_range d r); simpl; lia.
Qed.

(** A day count from 0 on is in exactly one range, a negative one in
    none. *)
Lemma one_range_per_day d :
  fold_right Nat.add O
    (map (fun r => if in_range d r then 1%nat else 0%nat) ranges)
  = (if (0 <=? d)%Z then 1 else 0)%nat.
Proof.
  unfold ranges, in_range. simpl.
  repeat match goal with
         | |- context [(?a <=? d)%Z] =>
             destruct (Z.leb_spec a d); simpl; try lia
         | |- context [(d <? ?b)%Z] =>
             destruct (Z.ltb_spec d b); simpl; try lia
         end.
Qed.

Lemma sum_of_counts days :
  fold_right Nat.add O (map (fun r => count_in_range r days) ranges)
  = length (filter (fun d => (0 <=? d)%Z) days).
Proof.
  induction days as [|d days IH].
  - reflexivity.
  - rewrite sum_of_counts_cons, one_range_per_day, IH. simpl.
    now destruct (0 <=? d)%Z.
Qed.

Lemma nonnegative_days_count closed :
  length (filter (fun d => (0 <=? d)%Z) (plotted_holding_days closed))
  = length (filter (fun t => match holding_days t with
                             | Some d => (0 <=? d)%Z
                             | None => false
                             end) closed).
Proof.
  unfold plotted_holding_days.
  induction closed as [|t closed IH]; simpl; [reflexivity|].
  rewrite filter_app, length_app, IH.
  destruct (holding_days t) as [d|]; [|reflexivity].
  simpl. now destruct (0 <=? d)%Z.
Qed.

(** X27: for the result of every state reached by calls on a new engine,
    the bars of the holding periods count every closed trade: each bar
    is the count that the distribution of the result has under the label
    of its range, except that the first bar also counts the trades held
    for zero days, which the distribution leaves out.  Nothing is plotted
    exactly when no trade is closed: bars are drawn only when the ledger
    is not empty, and no bars only when it is empty. *)
Theorem bars_count_the_zero_day_trades lb inv fr data cs :
  match plot_holding_period_distribution
          (_generate_results (calls (fresh lb inv fr data) cs)) with
  | Some counts =>
      closed_trades (calls (fresh lb inv fr data) cs) <> []
      /\ counts
      = map (fun r =>
               (ResultFacts.count_of (snd r)
                  (holding_days_distribution
                     (_generate_results (calls (fresh lb inv fr data) cs)))
                + if in_range 0%Z r
                  then zero_day_trades
                         (closed_trades (calls (fresh lb inv fr data) cs))
                  else 0)%nat)
            ranges
      /\ fold_right Nat.add O counts
         = length (filter (fun t => match holding_days t with
                                    | Some d => 0 <=? d
                                    | None => false
                                    end)
                     (closed_trades (calls (fresh lb inv fr data) cs)))
  | None => closed_trades (calls (fresh lb inv fr data) cs) = []
  end.
Proof.
  set (e := calls (fresh lb inv fr data) cs).
  destruct (wf_calls lb inv fr data cs) as (_ & Hopen & Hclosed & _).
  fold e in Hopen, Hclosed.
  unfold plot_holding_period_distribution. simpl trades.
  simpl holding_days_distribution.
  assert (Hp : plotted_holding_days
                 (closed_trades e ++ Dict.values (open_positions e))
               = plotted_holding_days (closed_trades e)).
  { assert (Ho : plotted_holding_days (Dict.values (open_positions e)) = []).
    { apply plotted_open. intros t Hin. unfold Dict.values in Hin.
      apply in_map_iff in Hin. destruct Hin as ([k t0] & <- & Hin).
      now destruct (Hopen k t0 Hin) as [_ (_ & _ & H & _)]. }
    unfold plotted_holding_days in *.
    now rewrite flat_map_app, Ho, app_nil_r. }
  rewrite Hp.
  assert (Hlen : length (plotted_holding_days (closed_trades e))
                 = length (closed_trades e)).
  { apply plotted_closed. intros t Hin.
    now destruct (Hclosed t Hin) as (_ & _ & H & _). }
  destruct (plotted_holding_days (closed_trades e)) as [|first rest] eqn:Hd.
  - destruct (closed_trades e); [reflexivity | discriminate].
  - split; [intros Hnil; rewrite Hnil in Hlen; discriminate|].
    rewrite bin_counts_ranges, <- Hd. split.
    + apply map_ext_in. intros r Hr.
      rewrite (distribution_count r _ Hr), closed_holding_days_nonzero.
      rewrite zero_day_trades_count. apply count_with_zero_days.
    + rewrite sum_of_counts. apply nonnegative_days_count.
Qed.

End ReportFacts.
